(** * DeSciDB pipeline orchestrator: a shallow embedding

    The development follows [descidb/core/processor.py] (class [Processor]),
    [src/core/converter.py] (function [convert]) and
    [src/db/chroma_client.py] (class [VectorDatabaseManager]).

    Python dictionaries are finite maps ([gmap]), JSON arrays are lists.
    A method is a function in the monad [M]: it threads the [world] (the
    ledger files on disk, the two per-run caches of the processor and the
    log of calls made to the collaborators) and it either returns a value or
    raises.  Everything the processor cannot decide by itself (the network,
    the graph database, the pluggable functions, whether a local write goes
    through and how far it got) is an [env]; every answer of the
    environment may depend on the whole history of calls. *)

From stdpp Require Import gmap strings list.
From stdpp Require Import sorting.

Set Default Proof Using "Type".

(** ** Exceptions and results *)

Inductive exn : Type :=
| KeyError (key : string)
| ValueError (msg : string)
| TypeError (msg : string)
| AttributeError (msg : string)
| Exception (msg : string).

Inductive outcome (A : Type) : Type :=
| Ret (a : A)
| Raise (e : exn).
Arguments Ret {A} a.
Arguments Raise {A} e.

Definition returns {A} (o : outcome A) : bool :=
  match o with Ret _ => true | Raise _ => false end.

(** One statement after another, outside the processor. *)
Definition and_then {A B} (o : outcome A) (k : A → outcome B) : outcome B :=
  match o with
  | Ret a => k a
  | Raise e => Raise e
  end.

(** ** JSON values, as [json.load] yields them *)

#[local] Unset Elimination Schemes.
Inductive json : Type :=
| JNull
| JBool (b : bool)
| JNumber (literal : string)
| JString (s : string)
| JArray (items : list json)
| JObject (fields : list (string * json)).
#[local] Set Elimination Schemes.

(** A dict with string keys, in insertion order. *)
Fixpoint dict_get (key : string) (fields : list (string * json)) : option json :=
  match fields with
  | [] => None
  | (k, v) :: rest => if bool_decide (k = key) then Some v else dict_get key rest
  end.

Fixpoint dict_set (key : string) (value : json) (fields : list (string * json))
  : list (string * json) :=
  match fields with
  | [] => [(key, value)]
  | (k, v) :: rest =>
      if bool_decide (k = key) then (k, value) :: rest
      else (k, v) :: dict_set key value rest
  end.

(** [s.startswith(prefix)] and [sub in s] on strings. *)
Fixpoint startswith (s prefix : string) : bool :=
  match prefix, s with
  | EmptyString, _ => true
  | String a prefix', String b s' => Ascii.eqb a b && startswith s' prefix'
  | String _ _, EmptyString => false
  end.

Fixpoint substring_of (sub s : string) : bool :=
  if startswith s sub then true
  else match s with
       | EmptyString => false
       | String _ s' => substring_of sub s'
       end.

(** [item == key] for a string [key]. *)
Definition is_string (key : string) (item : json) : bool :=
  match item with
  | JString s => bool_decide (s = key)
  | _ => false
  end.

(** [key in v], for a string [key]: a key of a dict, an element of a
    list, a substring of a string; nothing else is iterable. *)
Definition py_in (key : string) (v : json) : outcome bool :=
  match v with
  | JObject fields => Ret (bool_decide (is_Some (dict_get key fields)))
  | JArray items => Ret (existsb (is_string key) items)
  | JString s => Ret (substring_of key s)
  | JNull | JBool _ | JNumber _ => Raise (TypeError "argument is not iterable")
  end.

(** [v[key]], for a string [key]. *)
Definition py_getitem (v : json) (key : string) : outcome json :=
  match v with
  | JObject fields =>
      match dict_get key fields with
      | Some item => Ret item
      | None => Raise (KeyError key)
      end
  | JArray _ => Raise (TypeError "list indices must be integers or slices, not str")
  | JString _ => Raise (TypeError "string indices must be integers")
  | JNull | JBool _ | JNumber _ => Raise (TypeError "object is not subscriptable")
  end.

(** [v[key] = item], for a string [key]. *)
Definition py_setitem (v : json) (key : string) (item : json) : outcome json :=
  match v with
  | JObject fields => Ret (JObject (dict_set key item fields))
  | JArray _ => Raise (TypeError "list indices must be integers or slices, not str")
  | _ => Raise (TypeError "object does not support item assignment")
  end.

(** [v.append(item)] *)
Definition py_append (v : json) (item : json) : outcome json :=
  match v with
  | JArray items => Ret (JArray (items ++ [item]))
  | _ => Raise (AttributeError "append")
  end.

(** ** The mapping ledger

    [Dict[str, List[str]]]: document CID to the list of database
    combinations recorded for it. *)

Abbreviation mappings := (gmap string (list string)).

(** What a [mappings.json] path holds when it exists: something on which
    [open] or [json.load] raise (an empty or a cut-off file among them);
    a JSON value of the declared type [Dict[str, List[str]]], kept as the
    finite map it denotes; or any other JSON value. *)
Inductive file : Type :=
| Unreadable
| Ledger (m : mappings)
| IllTyped (j : json).

(** What [__read_mappings] returns: [json.load] checks no type. *)
Inductive loaded : Type :=
| Mapping (m : mappings)
| Value (j : json).

(** The file that holds the [json.dump] of a value. *)
Definition stored (v : loaded) : file :=
  match v with
  | Mapping m => Ledger m
  | Value j => IllTyped j
  end.

(** [pdf_cid in m and db_combination in m[pdf_cid]] *)
Definition is_complete (m : mappings) (pdf_cid db_combination : string) : bool :=
  match m !! pdf_cid with
  | Some combos => bool_decide (db_combination ∈ combos)
  | None => false
  end.

(** The in-memory update of [__update_mappings]:
<<
    if pdf_cid not in m: m[pdf_cid] = []
    if db_combination not in m[pdf_cid]: m[pdf_cid].append(db_combination)
>> *)
Definition add_combination (pdf_cid db_combination : string) (m : mappings) : mappings :=
  let m1 := match m !! pdf_cid with
            | Some _ => m
            | None => <[pdf_cid := []]> m
            end in
  let combos := default [] (m1 !! pdf_cid) in
  if bool_decide (db_combination ∈ combos) then m1
  else <[pdf_cid := combos ++ [db_combination]]> m1.

(** The test of [process] on what [__read_mappings] returned,
    [pdf_cid in m and db_combination in m[pdf_cid]], and the in-memory
    update of [__update_mappings] on it.  On a value that is no dict of
    lists they do what Python does with it. *)
Definition in_mappings (v : loaded) (pdf_cid db_combination : string) : outcome bool :=
  match v with
  | Mapping m => Ret (is_complete m pdf_cid db_combination)
  | Value j =>
      and_then (py_in pdf_cid j) (λ known,
      if known : bool
      then and_then (py_getitem j pdf_cid) (λ combos, py_in db_combination combos)
      else Ret false)
  end.

Definition add_to_mappings (pdf_cid db_combination : string) (v : loaded) : outcome loaded :=
  match v with
  | Mapping m => Ret (Mapping (add_combination pdf_cid db_combination m))
  | Value j =>
      and_then (py_in pdf_cid j) (λ known,
      and_then (if known : bool then Ret j else py_setitem j pdf_cid (JArray [])) (λ j1,
      and_then (py_getitem j1 pdf_cid) (λ combos,
      and_then (py_in db_combination combos) (λ present,
      if present : bool then Ret (Value j1)
      else
        and_then (py_append combos (JString db_combination)) (λ combos',
        and_then (py_setitem j1 pdf_cid combos') (λ j2, Ret (Value j2)))))))
  end.

(** ** Calls to the collaborators *)

Inductive event : Type :=
| EUpload (object : string) (res : option string)
| EPointerFile (git_path hash_value content : string) (ok : bool)
| EGit (subcommand git_path hash_value : string) (ok : bool)
| EWriteFile (path content : string) (ok : bool)
| EReadMappings (path : string)
| EWriteMappings (path : string) (m : loaded) (ok : bool)
| EAddNode (cid : string)
| ERelationship (src dst rel : string)
| EFindConversion (pdf_cid converter : string) (res : option string)
| EFetchContent (cid : string) (res : option string)
| EConvert (converter input_path : string)
| EChunk (chunker input_text : string)
| EEmbed (embedder input_text : string).

Definition is_upload (e : event) : bool :=
  match e with EUpload _ _ => true | _ => false end.
Definition is_graph_write (e : event) : bool :=
  match e with EAddNode _ | ERelationship _ _ _ => true | _ => false end.
Definition is_convert (e : event) : bool :=
  match e with EConvert _ _ => true | _ => false end.
Definition is_chunk (e : event) : bool :=
  match e with EChunk _ _ => true | _ => false end.
Definition is_embed (e : event) : bool :=
  match e with EEmbed _ _ => true | _ => false end.
Definition is_mapping_write (e : event) : bool :=
  match e with EWriteMappings _ _ _ => true | _ => false end.

(** The events of the completion ledger: the only ones a skipped variant
    may produce. *)
Definition is_ledger_event (e : event) : bool :=
  match e with EReadMappings _ | EWriteMappings _ _ _ => true | _ => false end.

(** ** Metadata values, as [json.loads] yields them *)

Inductive mvalue : Type :=
| MStr (s : string)
| MNone
| MScalar (literal : string)   (* a number or a boolean *)
| MCompound (dump : string).   (* a list or dict, with its [json.dumps] *)

(** A line of the metadata file: one that [json.loads] rejects, one that
    is a JSON object, or one that is JSON of another kind. *)
Inductive line : Type :=
| NotJson
| JsonObject (data : gmap string mvalue)
| JsonOther.

(** ** The environment *)

Record env : Type := Env {
  (* os.path.splitext(os.path.basename(pdf_path))[0] *)
  doc_id_of : string → string;
  (* the metadata file: [None] when it cannot be opened, else its lines *)
  metadata_lines : option (list line);
  (* requests.post to Lighthouse; [None] when the call raises *)
  upload_text_to_lighthouse : list event → string → option string;
  (* ipfs_cid.split("ipfs/")[-1] *)
  hash_value_of : string → string;
  (* does makedirs/open/write on this path go through *)
  file_written : list event → string → bool;
  (* a write of a ledger that does not go through: did it fail after
     [open(path, "w")], which leaves the file empty or cut off *)
  ledger_torn : list event → string → bool;
  (* does subprocess.run([git ...], check=True) return *)
  git_ok : list event → string → bool;
  (* graph_db.get_converted_markdown_cid *)
  get_converted_markdown_cid : list event → string → string → option string;
  (* graph_db._query_ipfs_content *)
  query_ipfs_content : list event → string → option string;
  (* the pluggable functions *)
  convert : list event → string → string → outcome string;
  chunk : list event → string → string → outcome (list string);
  (* embed, followed by json.dumps of the embedding *)
  embed : list event → string → string → outcome string;
}.

(** Python truthiness of an [Optional[str]]. *)
Definition truthy (o : option string) : bool :=
  match o with
  | Some s => negb (bool_decide (s = ""))
  | None => false
  end.

(** ** The world and the monad *)

(** The caches are fields of the processor; [process] empties them when it
    starts, so one pair of fields serves every processor.  Only the ledger
    files are kept as state: the temporary file and the pointer files are
    written and handed to the uploader, never read back. *)
Record world : Type := World {
  files : gmap string file;                 (* the mappings.json files, by path *)
  convert_cache : gmap string string;       (* self.convert_cache *)
  chunk_cache : gmap string (list string);  (* self.chunk_cache *)
  log : list event;
}.

Definition M (A : Type) : Type := world → outcome A * world.

Definition ret {A} (a : A) : M A := λ w, (Ret a, w).
Definition raise {A} (e : exn) : M A := λ w, (Raise e, w).
Definition bind {A B} (m : M A) (k : A → M B) : M B :=
  λ w, match m w with
       | (Ret a, w') => k a w'
       | (Raise e, w') => (Raise e, w')
       end.

Declare Scope proc_scope.
Delimit Scope proc_scope with proc.
Notation "x <- c1 ;; c2" := (bind c1 (λ x, c2))
  (at level 100, c1 at next level, right associativity) : proc_scope.
Notation "c1 ;; c2" := (bind c1 (λ _, c2))
  (at level 100, right associativity) : proc_scope.
Local Open Scope proc_scope.

Definition history : M (list event) := λ w, (Ret (log w), w).
Definition emit (e : event) : M unit :=
  λ w, (Ret tt, World (files w) (convert_cache w) (chunk_cache w) (log w ++ [e])).
Definition lift {A} (o : outcome A) : M A := λ w, (o, w).

Definition get_files : M (gmap string file) := λ w, (Ret (files w), w).
Definition put_file (path : string) (f : file) : M unit :=
  λ w, (Ret tt, World (<[path := f]> (files w)) (convert_cache w) (chunk_cache w) (log w)).

Definition get_convert_cache : M (gmap string string) := λ w, (Ret (convert_cache w), w).
Definition set_convert_cache (c : gmap string string) : M unit :=
  λ w, (Ret tt, World (files w) c (chunk_cache w) (log w)).
Definition get_chunk_cache : M (gmap string (list string)) := λ w, (Ret (chunk_cache w), w).
Definition set_chunk_cache (c : gmap string (list string)) : M unit :=
  λ w, (Ret tt, World (files w) (convert_cache w) c (log w)).

(** [for x in l: body x] *)
Fixpoint for_each {A} (body : A → M unit) (l : list A) : M unit :=
  match l with
  | [] => ret tt
  | x :: l' => body x ;; for_each body l'
  end.

(** What [__read_mappings] returns at a path. *)
Definition loaded_at (fs : gmap string file) (path : string) : loaded :=
  match fs !! path with
  | Some (Ledger m) => Mapping m
  | Some (IllTyped j) => Value j
  | Some Unreadable => Mapping ∅
  | None => Mapping ∅
  end.

(** The mapping a path holds: the empty one where there is no file, no
    JSON, or JSON that is no dict of lists. *)
Definition ledger_at (fs : gmap string file) (path : string) : mappings :=
  match loaded_at fs path with
  | Mapping m => m
  | Value _ => ∅
  end.

(** The ledger at a path, where it is JSON, is a dict of lists. *)
Definition well_typed_at (fs : gmap string file) (path : string) : Prop :=
  ∀ j, fs !! path ≠ Some (IllTyped j).

(** ** The processor *)

(** The fields of the processor that [process] reads. *)
Record Processor : Type := {
  author_cid : string;
  temp_dir : string;        (* project_root / "temp" *)
  user_temp_dir : string;   (* temp_dir / user_email *)
}.

Record db_config : Type := DbConfig {
  converter : string;
  chunker : string;
  embedder : string;
}.

(** [f"{converter_func}_{chunker_func}_{embedder_func}"] *)
Definition db_combination (c : db_config) : string :=
  converter c +:+ "_" +:+ chunker c +:+ "_" +:+ embedder c.

(** [f"{converter_func}_{chunker_func}"] *)
Definition chunk_cache_key (converter_func chunker_func : string) : string :=
  converter_func +:+ "_" +:+ chunker_func.

Definition global_mappings_path (self : Processor) : string :=
  temp_dir self +:+ "/mappings.json".
Definition user_mappings_path (self : Processor) : string :=
  user_temp_dir self +:+ "/mappings.json".
Definition tmp_file_path (self : Processor) : string :=
  user_temp_dir self +:+ "/tmp.txt".

Definition default_metadata : gmap string mvalue :=
  <["doi" := MStr "No DOI available"]>
  (<["abstract" := MStr "No abstract available."]>
  (<["categories" := MStr "Unknown Categories"]>
  (<["authors" := MStr "Unknown Authors"]>
  (<["title" := MStr "Unknown Title"]> ∅)))).

(** The dict comprehension of [process] over the metadata values. *)
Definition stringify (v : mvalue) : string :=
  match v with
  | MStr s => s
  | MNone => "N/A"
  | MScalar literal => literal
  | MCompound dump => dump
  end.

(** The line scan of [get_metadata_for_doc]: [json.loads] in a [try]
    that handles [JSONDecodeError], then [data.get("id")], which only a
    dict has. *)
Fixpoint scan_metadata (doc_id : string) (lines : list line)
  : outcome (gmap string mvalue) :=
  match lines with
  | [] => Ret ∅
  | NotJson :: rest => scan_metadata doc_id rest
  | JsonObject data :: rest =>
      match data !! "id" with
      | Some (MStr i) =>
          if bool_decide (i = doc_id) then Ret data else scan_metadata doc_id rest
      | _ => scan_metadata doc_id rest
      end
  | JsonOther :: rest => Raise (AttributeError "get")
  end.

Section Processor.
Context (E : env) (self : Processor).

Definition get_metadata_for_doc (doc_id : string) : M (gmap string mvalue) :=
  match metadata_lines E with
  | None => raise (Exception "metadata file")
  | Some lines => lift (scan_metadata doc_id lines)
  end.

(** [__create_file_with_ipfs]: a failure is logged, the caller ignores
    the returned path. *)
Definition create_file_with_ipfs (content git_path hash_value : string) : M unit :=
  h <- history ;;
  emit (EPointerFile git_path hash_value content
          (file_written E h (git_path +:+ "/" +:+ hash_value +:+ ".txt"))).

Definition git (subcommand git_path hash_value : string) : M bool :=
  h <- history ;;
  let ok := git_ok E h subcommand in
  emit (EGit subcommand git_path hash_value ok) ;;
  ret ok.

(** [__lighthouse_and_commit]: the CID, or the empty string when any
    step of the [try] block raises. *)
Definition lighthouse_and_commit (object git_path : string) : M string :=
  h <- history ;;
  let res := upload_text_to_lighthouse E h object in
  emit (EUpload object res) ;;
  match res with
  | None => ret ""
  | Some ipfs_cid =>
      let hash_value := hash_value_of E ipfs_cid in
      create_file_with_ipfs ipfs_cid git_path hash_value ;;
      added <- git "add" git_path hash_value ;;
      if added : bool then
        committed <- git "commit" git_path hash_value ;;
        if committed : bool then ret ipfs_cid else ret ""
      else ret ""
  end.

(** [__write_to_file]: a failure is logged and swallowed. *)
Definition write_to_file (content path : string) : M unit :=
  h <- history ;;
  emit (EWriteFile path content (file_written E h path)).

(** [__read_mappings]: the empty dict when the file is missing or when
    reading it raises; otherwise whatever [json.load] returns. *)
Definition read_mappings (path : string) : M loaded :=
  emit (EReadMappings path) ;;
  fs <- get_files ;;
  match fs !! path with
  | None => ret (Mapping ∅)
  | Some (Ledger m) => ret (Mapping m)
  | Some (IllTyped j) => ret (Value j)
  | Some Unreadable => ret (Mapping ∅)
  end.

(** [__write_mappings]: the file is rewritten wholesale, [open(path, "w")]
    first and [json.dump] into it next.  A failure is logged and
    swallowed: before [open] returns it leaves the file as it was, after
    it the file is empty or cut off. *)
Definition write_mappings (m : loaded) (path : string) : M unit :=
  h <- history ;;
  let ok := file_written E h path in
  emit (EWriteMappings path m ok) ;;
  if ok then put_file path (stored m)
  else if ledger_torn E h path then put_file path Unreadable
  else ret tt.

(** [__update_mappings] *)
Definition update_mappings (pdf_cid combination : string) : M unit :=
  global_mappings <- read_mappings (global_mappings_path self) ;;
  global_mappings <- lift (add_to_mappings pdf_cid combination global_mappings) ;;
  write_mappings global_mappings (global_mappings_path self) ;;
  user_mappings <- read_mappings (user_mappings_path self) ;;
  user_mappings <- lift (add_to_mappings pdf_cid combination user_mappings) ;;
  write_mappings user_mappings (user_mappings_path self).

(** Modelled from the spec: [descidb/db/graph_db.py] is not among the
    sources.  [add_ipfs_node] and [create_relationship] are idempotent
    upserts into the graph database; the processor only sees them
    return, a failure inside them is logged there. *)
Definition add_ipfs_node (cid : string) : M unit := emit (EAddNode cid).

(** Modelled from the spec: the edge upsert of [descidb/db/graph_db.py],
    as [add_ipfs_node] above. *)
Definition create_relationship (src dst rel : string) : M unit :=
  emit (ERelationship src dst rel).

(** Step 2.1, first half: look for an existing conversion in the graph
    and, when its content can be fetched, seed the convert cache.
    Returns [converted_text_ipfs_cid]. *)
Definition find_conversion (pdf_cid converter_func : string) : M (option string) :=
  h <- history ;;
  let found := get_converted_markdown_cid E h pdf_cid converter_func in
  emit (EFindConversion pdf_cid converter_func found) ;;
  if truthy found then
    let cid := default "" found in
    h <- history ;;
    let converted_text := query_ipfs_content E h cid in
    emit (EFetchContent cid converted_text) ;;
    if truthy converted_text then
      cache <- get_convert_cache ;;
      set_convert_cache (<[converter_func := default "" converted_text]> cache) ;;
      ret found
    else ret None
  else ret found.

(** Step 2.1, second half: the body of
    [if not converted_text_ipfs_cid or converter_func not in self.convert_cache]. *)
Definition perform_conversion (pdf_path git_path pdf_cid converter_func : string)
  : M string :=
  cache <- get_convert_cache ;;
  converted_text <-
    match cache !! converter_func with
    | None =>
        h <- history ;;
        emit (EConvert converter_func pdf_path) ;;
        text <- lift (convert E h converter_func pdf_path) ;;
        set_convert_cache (<[converter_func := text]> cache) ;;
        ret text
    | Some text => ret text
    end ;;
  write_to_file converted_text (tmp_file_path self) ;;
  cid <- lighthouse_and_commit (tmp_file_path self) git_path ;;
  add_ipfs_node cid ;;
  create_relationship pdf_cid cid ("CONVERTED_BY_" +:+ converter_func) ;;
  create_relationship cid (author_cid self) "AUTHORED_BY" ;;
  ret cid.

(** Step 2.1 as a whole; returns [converted_text_ipfs_cid]. *)
Definition resolve_conversion (pdf_path git_path pdf_cid converter_func : string)
  : M string :=
  found <- find_conversion pdf_cid converter_func ;;
  cache <- get_convert_cache ;;
  if negb (truthy found) || bool_decide (cache !! converter_func = None) then
    perform_conversion pdf_path git_path pdf_cid converter_func
  else ret (default "" found).

(** Step 2.2: the chunks of the converted text, through the chunk cache. *)
Definition resolve_chunks (converter_func chunker_func : string) : M (list string) :=
  cache <- get_convert_cache ;;
  match cache !! converter_func with
  | None => raise (KeyError converter_func)
  | Some converted_text =>
      let chunk_cache_key := chunk_cache_key converter_func chunker_func in
      chunks <- get_chunk_cache ;;
      match chunks !! chunk_cache_key with
      | None =>
          h <- history ;;
          emit (EChunk chunker_func converted_text) ;;
          chunked_text <- lift (chunk E h chunker_func converted_text) ;;
          set_chunk_cache (<[chunk_cache_key := chunked_text]> chunks) ;;
          ret chunked_text
      | Some chunked_text => ret chunked_text
      end
  end.

(** The body of the chunk loop, steps 2.2 (upload) and 2.3. *)
Definition process_chunk (git_path converted_text_ipfs_cid chunker_func embedder_func
                          chunk_i : string) : M unit :=
  write_to_file chunk_i (tmp_file_path self) ;;
  chunk_text_ipfs_cid <- lighthouse_and_commit (tmp_file_path self) git_path ;;
  add_ipfs_node chunk_text_ipfs_cid ;;
  create_relationship converted_text_ipfs_cid chunk_text_ipfs_cid
                      ("CHUNKED_BY_" +:+ chunker_func) ;;
  create_relationship chunk_text_ipfs_cid (author_cid self) "AUTHORED_BY" ;;
  h <- history ;;
  emit (EEmbed embedder_func chunk_i) ;;
  embedding <- lift (embed E h embedder_func chunk_i) ;;
  write_to_file embedding (tmp_file_path self) ;;
  embedding_ipfs_cid <- lighthouse_and_commit (tmp_file_path self) git_path ;;
  add_ipfs_node embedding_ipfs_cid ;;
  create_relationship chunk_text_ipfs_cid embedding_ipfs_cid
                      ("EMBEDDED_BY_" +:+ embedder_func) ;;
  create_relationship embedding_ipfs_cid (author_cid self) "AUTHORED_BY".

(** The compute path of one variant, up to the end of the chunk loop. *)
Definition compute_variant (pdf_path git_path pdf_cid : string) (c : db_config) : M unit :=
  converted_text_ipfs_cid <- resolve_conversion pdf_path git_path pdf_cid (converter c) ;;
  chunked_text <- resolve_chunks (converter c) (chunker c) ;;
  for_each (process_chunk git_path converted_text_ipfs_cid (chunker c) (embedder c))
           chunked_text.

(** The body of [for db_config in databases]. *)
Definition process_variant (pdf_path git_path pdf_cid : string) (c : db_config) : M unit :=
  global_mappings <- read_mappings (global_mappings_path self) ;;
  done <- lift (in_mappings global_mappings pdf_cid (db_combination c)) ;;
  if done : bool then
    update_mappings pdf_cid (db_combination c)
  else
    compute_variant pdf_path git_path pdf_cid c ;;
    update_mappings pdf_cid (db_combination c).

(** [process] *)
Definition process (pdf_path : string) (databases : list db_config) (git_path : string)
  : M unit :=
  let doc_id := doc_id_of E pdf_path in
  set_convert_cache ∅ ;;
  set_chunk_cache ∅ ;;
  found <- get_metadata_for_doc doc_id ;;
  let metadata := if bool_decide (found = ∅) then default_metadata else found in
  let metadata := stringify <$> metadata in
  pdf_ipfs_cid <- lighthouse_and_commit pdf_path git_path ;;
  let metadata := <["pdf_ipfs_cid" := pdf_ipfs_cid]> metadata in
  if bool_decide (pdf_ipfs_cid = "") then ret tt
  else
    add_ipfs_node pdf_ipfs_cid ;;
    create_relationship pdf_ipfs_cid (author_cid self) "AUTHORED_BY" ;;
    for_each (process_variant pdf_path git_path pdf_ipfs_cid) databases.

End Processor.


(** ** Vocabulary of the properties *)

(** [w] after the calls [evs]. *)
Definition logged (w : world) (evs : list event) : world :=
  World (files w) (convert_cache w) (chunk_cache w) (log w ++ evs).

(** The calls [__lighthouse_and_commit] is made of. *)
Definition is_upload_step (e : event) : bool :=
  match e with
  | EUpload _ _ | EPointerFile _ _ _ _ | EGit _ _ _ _ => true
  | _ => false
  end.


(** The variants recorded for a document in the ledger at [path]. *)
Definition recorded (fs : gmap string file) (path pdf_cid : string) : list string :=
  default [] (ledger_at fs path !! pdf_cid).

(** The converter, the chunker and the embedder of a variant return
    whenever they are called (on this document for the converter, on any
    text for the two others). *)
Definition pluggable_functions_return (E : env) (pdf_path : string) (c : db_config) : Prop :=
  (∀ h, returns (convert E h (converter c) pdf_path) = true) ∧
  (∀ h text, returns (chunk E h (chunker c) text) = true) ∧
  (∀ h text, returns (embed E h (embedder c) text) = true).

(** The files after a write of [content] to [path]. *)
Definition write_effect (ok torn : bool) (path : string) (content : file)
  (fs : gmap string file) : gmap string file :=
  if ok then <[path := content]> fs
  else if torn then <[path := Unreadable]> fs
  else fs.

(** The two read-modify-write cycles of [__update_mappings] on ledgers
    that are dicts of lists, spelled out: what each cycle writes, whether
    the write goes through or how it fails, and the files after it. *)
Definition global_written (self : Processor) (pdf_cid combination : string) (w : world)
  : mappings :=
  add_combination pdf_cid combination (ledger_at (files w) (global_mappings_path self)).

Definition global_ok (E : env) (self : Processor) (w : world) : bool :=
  file_written E (log w ++ [EReadMappings (global_mappings_path self)])
               (global_mappings_path self).

Definition global_torn (E : env) (self : Processor) (w : world) : bool :=
  ledger_torn E (log w ++ [EReadMappings (global_mappings_path self)])
              (global_mappings_path self).

Definition files_after_global (E : env) (self : Processor) (pdf_cid combination : string)
  (w : world) : gmap string file :=
  write_effect (global_ok E self w) (global_torn E self w) (global_mappings_path self)
               (Ledger (global_written self pdf_cid combination w)) (files w).

Definition user_written (E : env) (self : Processor) (pdf_cid combination : string)
  (w : world) : mappings :=
  add_combination pdf_cid combination
    (ledger_at (files_after_global E self pdf_cid combination w) (user_mappings_path self)).

(** The calls made when the ledger of the requester is written. *)
Definition user_history (E : env) (self : Processor) (pdf_cid combination : string)
  (w : world) : list event :=
  log w ++ [EReadMappings (global_mappings_path self);
            EWriteMappings (global_mappings_path self)
              (Mapping (global_written self pdf_cid combination w)) (global_ok E self w);
            EReadMappings (user_mappings_path self)].

Definition user_ok (E : env) (self : Processor) (pdf_cid combination : string) (w : world)
  : bool :=
  file_written E (user_history E self pdf_cid combination w) (user_mappings_path self).

Definition user_torn (E : env) (self : Processor) (pdf_cid combination : string) (w : world)
  : bool :=
  ledger_torn E (user_history E self pdf_cid combination w) (user_mappings_path self).

Definition files_after_user (E : env) (self : Processor) (pdf_cid combination : string)
  (w : world) : gmap string file :=
  write_effect (user_ok E self pdf_cid combination w) (user_torn E self pdf_cid combination w)
               (user_mappings_path self)
               (Ledger (user_written E self pdf_cid combination w))
               (files_after_global E self pdf_cid combination w).

Definition update_events (E : env) (self : Processor) (pdf_cid combination : string)
  (w : world) : list event :=
  [EReadMappings (global_mappings_path self);
   EWriteMappings (global_mappings_path self)
     (Mapping (global_written self pdf_cid combination w)) (global_ok E self w);
   EReadMappings (user_mappings_path self);
   EWriteMappings (user_mappings_path self)
     (Mapping (user_written E self pdf_cid combination w))
     (user_ok E self pdf_cid combination w)].


(** The graph writes that link a converted text. *)
Definition conversion_links (self : Processor) (pdf_cid converter_func cid : string)
  : list event :=
  [EAddNode cid;
   ERelationship pdf_cid cid ("CONVERTED_BY_" +:+ converter_func);
   ERelationship cid (author_cid self) "AUTHORED_BY"].

(** What the graph answers to [get_converted_markdown_cid], and what
    [_query_ipfs_content] then returns for that CID. *)
Definition graph_edge (E : env) (pdf_cid converter_func : string) (w : world)
  : option string :=
  get_converted_markdown_cid E (log w) pdf_cid converter_func.

Definition fetched (E : env) (pdf_cid converter_func : string) (w : world)
  : option string :=
  query_ipfs_content E
    (log w ++ [EFindConversion pdf_cid converter_func (graph_edge E pdf_cid converter_func w)])
    (default "" (graph_edge E pdf_cid converter_func w)).

(** The calls that decide where a converted text comes from. *)
Definition is_conversion_lookup (e : event) : bool :=
  match e with
  | EFindConversion _ _ _ | EFetchContent _ _ | EConvert _ _ => true
  | _ => false
  end.




(** One read-modify-write cycle of [__update_mappings], on the ledger at
    [path]. *)
Definition update_cycle (E : env) (path pdf_cid combination : string) : M unit :=
  m <- read_mappings path ;;
  m <- lift (add_to_mappings pdf_cid combination m) ;;
  write_mappings E m path.

(** A ledger never loses a recorded variant: the list recorded for a
    document only grows at its end. *)
Definition ledgers_grow (fs fs' : gmap string file) : Prop :=
  ∀ path pdf_cid, recorded fs path pdf_cid `prefix_of` recorded fs' path pdf_cid.

Definition keeps_files {A} (m : M A) : Prop := ∀ w, files (m w).2 = files w.

(** Converter names without an underscore. *)
Fixpoint no_underscore (s : string) : bool :=
  match s with
  | "" => true
  | String a s' => negb (bool_decide (String a "" = "_")) && no_underscore s'
  end.

(** * [src/core/converter.py] *)

Module Converter.

(** [ConverterFunc]: the three converters call into external libraries;
    [marker] lets a [ValueError] escape, the two others return the empty
    string on any error. *)
Definition ConverterFunc : Type := string → outcome string.

Section Registry.
Context (marker openai markitdown : ConverterFunc).

Definition conversion_methods : gmap string ConverterFunc :=
  <["marker" := marker]> (<["openai" := openai]> (<["markitdown" := markitdown]> ∅)).

(** [conversion_methods[conversion_type](input_path)] *)
Definition convert (conversion_type input_path : string) : outcome string :=
  match conversion_methods !! conversion_type with
  | Some method => method input_path
  | None => Raise (KeyError conversion_type)
  end.

End Registry.
End Converter.

(** * [src/db/chroma_client.py] *)

Module Chroma.
Section Manager.
Context {embedding : Type}.

(** One entry of a collection, as [collection.add] receives it. *)
Record entry : Type := Entry {
  entry_document : string;
  entry_embedding : embedding;
  entry_id : string;
  entry_metadata : gmap string string;
}.

(** The manager with the collections of its client. *)
Record VectorDatabaseManager : Type := Manager {
  db_names : list string;
  collections : gmap string (list entry);
}.

(** [collection.add] of the chromadb client: the collection after the
    insertion, or [None] when the client raises. *)
Context (collection_add : list entry → list entry → option (list entry)).

(** [[metadata["content_cid"] for metadata in metadatas]] *)
Fixpoint content_cids (metadatas : list (gmap string string)) : option (list string) :=
  match metadatas with
  | [] => Some []
  | metadata :: rest =>
      match metadata !! "content_cid", content_cids rest with
      | Some cid, Some cids => Some (cid :: cids)
      | _, _ => None
      end
  end.

Fixpoint entries (documents : list string) (embeddings : list embedding)
  (doc_ids : list string) (metadatas : list (gmap string string)) : list entry :=
  match documents, embeddings, doc_ids, metadatas with
  | d :: ds, e :: es, i :: ids, m :: ms => Entry d e i m :: entries ds es ids ms
  | _, _, _, _ => []
  end.

Definition batch_insert_documents (self : VectorDatabaseManager) (db_name : string)
  (embeddings : list embedding) (metadatas : list (gmap string string))
  (doc_ids : list string) : outcome unit * VectorDatabaseManager :=
  if negb (bool_decide (db_name ∈ db_names self)) then
    (Raise (ValueError ("Database '" +:+ db_name +:+ "' does not exist.")), self)
  else if negb (bool_decide (length embeddings = length metadatas) &&
                bool_decide (length metadatas = length doc_ids)) then
    (Raise (ValueError "All input lists must have the same length."), self)
  else
    match embeddings with
    | [] => (Ret tt, self)
    | _ :: _ =>
        match content_cids metadatas with
        | None => (Raise (KeyError "content_cid"), self)
        | Some documents =>
            match collections self !! db_name with
            | None => (Raise (ValueError ("Collection " +:+ db_name +:+ " does not exist.")), self)
            | Some collection =>
                match collection_add collection
                        (entries documents embeddings doc_ids metadatas) with
                | Some collection' =>
                    (Ret tt, Manager (db_names self)
                                     (<[db_name := collection']> (collections self)))
                | None =>
                    (Raise (Exception ("Error batch inserting documents into database '"
                                       +:+ db_name +:+ "'")), self)
                end
            end
        end
    end.

End Manager.
End Chroma.

(** * Concrete processors, environments and worlds *)

Definition alice : Processor :=
  {| author_cid := "QmAuthor"; temp_dir := "temp";
     user_temp_dir := "temp/alice@example.org" |}.

(** A content-addressed store: the CID of an upload is made of what is
    uploaded, the document itself or what was last written to the
    temporary file. *)
Definition last_written (h : list event) : string :=
  foldl (λ content e, match e with
                      | EWriteFile _ written true => written
                      | _ => content
                      end) "" h.

Definition content_cid (h : list event) (object : string) : string :=
  "Qm-" +:+ (if bool_decide (object = tmp_file_path alice) then last_written h else object).

Definition registry_convert : string → string → outcome string :=
  Converter.convert (λ _, Ret "marker text") (λ _, Ret "openai text")
                    (λ _, Ret "markitdown text").

(** Everything works; the graph knows no conversion yet. *)
Definition ok_env : env :=
  {| doc_id_of := λ p, p;
     metadata_lines := Some [];
     upload_text_to_lighthouse := λ h object, Some (content_cid h object);
     hash_value_of := λ cid, cid;
     file_written := λ _ _, true;
     ledger_torn := λ _ _, false;
     git_ok := λ _ _, true;
     get_converted_markdown_cid := λ _ _ _, None;
     query_ipfs_content := λ _ _, None;
     convert := λ _, registry_convert;
     chunk := λ _ _ text, Ret [text +:+ " 1"; text +:+ " 2"];
     embed := λ _ _ _, Ret "[0.5]" |}.

(** As [ok_env], but the ledger of the user cannot be written. *)
Definition user_ledger_locked_env : env :=
  {| doc_id_of := λ p, p;
     metadata_lines := Some [];
     upload_text_to_lighthouse := λ h object, Some (content_cid h object);
     hash_value_of := λ cid, cid;
     file_written := λ _ path, negb (bool_decide (path = user_mappings_path alice));
     ledger_torn := λ _ _, false;
     git_ok := λ _ _, true;
     get_converted_markdown_cid := λ _ _ _, None;
     query_ipfs_content := λ _ _, None;
     convert := λ _, registry_convert;
     chunk := λ _ _ text, Ret [text +:+ " 1"; text +:+ " 2"];
     embed := λ _ _ _, Ret "[0.5]" |}.

(** Nothing outside the process works: no upload, no git, no local write. *)
Definition offline_env : env :=
  {| doc_id_of := λ p, p;
     metadata_lines := Some [];
     upload_text_to_lighthouse := λ _ _, None;
     hash_value_of := λ cid, cid;
     file_written := λ _ _, false;
     ledger_torn := λ _ _, false;
     git_ok := λ _ _, false;
     get_converted_markdown_cid := λ _ _ _, None;
     query_ipfs_content := λ _ _, None;
     convert := λ _, registry_convert;
     chunk := λ _ _ text, Ret [text +:+ " 1"; text +:+ " 2"];
     embed := λ _ _ _, Ret "[0.5]" |}.

(** The target of the last CONVERTED_BY link made for a converter. *)
Definition conversion_target (converter_func : string) (h : list event) : option string :=
  foldl (λ target e,
           match e with
           | ERelationship _ dst rel =>
               if bool_decide (rel = "CONVERTED_BY_" +:+ converter_func)
               then Some dst else target
           | _ => target
           end) None h.

(** The graph answers from the links made so far, but the content of a
    conversion cannot be fetched back. *)
Definition refetch_fails_env : env :=
  {| doc_id_of := λ p, p;
     metadata_lines := Some [];
     upload_text_to_lighthouse := λ h object, Some (content_cid h object);
     hash_value_of := λ cid, cid;
     file_written := λ _ _, true;
     ledger_torn := λ _ _, false;
     git_ok := λ _ _, true;
     get_converted_markdown_cid := λ h _ converter_func, conversion_target converter_func h;
     query_ipfs_content := λ _ _, None;
     convert := λ _, registry_convert;
     chunk := λ _ _ text, Ret [text +:+ " 1"; text +:+ " 2"];
     embed := λ _ _ _, Ret "[0.5]" |}.



(** A processor made with the empty e-mail address: the directory of the
    requester is the shared one. *)
Definition anonymous : Processor :=
  {| author_cid := "QmAuthor"; temp_dir := "temp"; user_temp_dir := "temp" |}.

Definition empty_world : world := World ∅ ∅ ∅ [].

(** The global ledger parses, to the empty JSON array. *)
Definition ill_typed_world : world :=
  World {[ "temp/mappings.json" := IllTyped (JArray []) ]} ∅ ∅ [].



(** The global ledger exists but cannot be parsed. *)
Definition garbled_world : world :=
  World {[ "temp/mappings.json" := Unreadable ]} ∅ ∅ [].

(** A manager over natural-number embeddings whose client appends. *)
Definition demo_manager : @Chroma.VectorDatabaseManager nat :=
  Chroma.Manager ["marker_paragraph_openai"] {[ "marker_paragraph_openai" := [] ]}.

Definition demo_add (old new : list (@Chroma.entry nat)) : option (list (@Chroma.entry nat)) :=
  Some (old ++ new).


(** * Further vocabulary *)


(** A property of the ledger files that a computation keeps. *)
Definition preserves (P : gmap string file → Prop) {A} (m : M A) : Prop :=
  ∀ w, P (files w) → P (files (m w).2).

(** What a ledger write can leave at [path]: the dump of what the update
    made of what was read there, or nothing readable. *)
Definition cycle_content (fs : gmap string file) (path : string) (content : file) : Prop :=
  content = Unreadable ∨
  ∃ pdf_cid combination v,
    add_to_mappings pdf_cid combination (loaded_at fs path) = Ret v ∧ content = stored v.

(** The calls of one converter among the calls made. *)
Definition is_convert_by (converter_func : string) (e : event) : bool :=
  match e with
  | EConvert c _ => bool_decide (c = converter_func)
  | _ => false
  end.

Definition converter_calls (converter_func : string) (l : list event) : nat :=
  length (List.filter (is_convert_by converter_func) l).

(** A computation that calls no converter and leaves the convert cache
    as it was. *)
Definition quiet {A} (m : M A) : Prop :=
  ∀ w, List.filter is_convert (log (m w).2) = List.filter is_convert (log w) ∧
       convert_cache (m w).2 = convert_cache w.

(** Beyond the [base] calls, a converter was called once at most, and
    then its text is in the convert cache. *)
Definition conversions_cached (base : string → nat) (w : world) : Prop :=
  ∀ converter_func,
    converter_calls converter_func (log w) ≤
    base converter_func + match convert_cache w !! converter_func with
                          | Some _ => 1
                          | None => 0
                          end.

Definition conversions_capped (base : string → nat) (w : world) : Prop :=
  ∀ converter_func, converter_calls converter_func (log w) ≤ base converter_func + 1.

(** A computation that goes through the convert cache: where it returns
    the cache accounts for the calls, where it raises the calls are
    capped all the same. *)
Definition caching {A} (m : M A) : Prop :=
  ∀ base w, conversions_cached base w →
    match m w with
    | (Ret _, w') => conversions_cached base w'
    | (Raise _, w') => conversions_capped base w'
    end.

Definition is_add_node (e : event) : bool :=
  match e with EAddNode _ => true | _ => false end.
Definition is_relationship (e : event) : bool :=
  match e with ERelationship _ _ _ => true | _ => false end.

(** A line of the metadata file that the lookup of [doc_id] passes over:
    it is not JSON, or it is an object whose "id" is not the string
    [doc_id]. *)
Definition other_line (doc_id : string) (l : line) : Prop :=
  match l with
  | NotJson => True
  | JsonObject data => data !! "id" ≠ Some (MStr doc_id)
  | JsonOther => False
  end.


(** The metadata file of the runs below: a line that is not JSON, the
    record of another paper, two records for doc.pdf. *)
Definition sample_metadata : list line :=
  [NotJson;
   JsonObject {[ "id" := MStr "other.pdf"; "title" := MStr "Another paper" ]};
   JsonObject {[ "id" := MStr "doc.pdf"; "title" := MStr "First record" ]};
   JsonObject {[ "id" := MStr "doc.pdf"; "title" := MStr "Second record" ]}].

(** A metadata file with a line that is JSON but no object (a bare
    number, say) before the record of doc.pdf. *)
Definition scalar_metadata : list line :=
  [JsonObject {[ "id" := MStr "other.pdf"; "title" := MStr "Another paper" ]};
   JsonOther;
   JsonObject {[ "id" := MStr "doc.pdf"; "title" := MStr "First record" ]}].


(** [E] with another metadata file. *)
Definition with_metadata (E : env) (lines : option (list line)) : env :=
  {| doc_id_of := doc_id_of E;
     metadata_lines := lines;
     upload_text_to_lighthouse := upload_text_to_lighthouse E;
     hash_value_of := hash_value_of E;
     file_written := file_written E;
     ledger_torn := ledger_torn E;
     git_ok := git_ok E;
     get_converted_markdown_cid := get_converted_markdown_cid E;
     query_ipfs_content := query_ipfs_content E;
     convert := convert E;
     chunk := chunk E;
     embed := embed E |}.

(** * [src/db/chroma_client.py], the rest of the manager *)

Module ChromaManager.
Section Manager.
Context {embedding : Type}.

#[local] Abbreviation entry := (@Chroma.entry embedding).
#[local] Abbreviation VectorDatabaseManager := (@Chroma.VectorDatabaseManager embedding).

(** The chromadb client: which collection names it accepts, and
    [collection.add] as in [Chroma]. *)
Context (valid_name : string → bool).
Context (collection_add : list entry → list entry → option (list entry)).

(** [db_client.get_or_create_collection(name=db_name)] on the collections
    persisted at [db_path]; [None] when the client rejects the name. *)
Definition get_or_create_collection (client : gmap string (list entry)) (name : string)
  : option (gmap string (list entry)) :=
  if valid_name name then
    match client !! name with
    | Some _ => Some client
    | None => Some (<[name := []]> client)
    end
  else None.

(** [initialize_databases] *)
Fixpoint initialize_databases (db_names : list string) (client : gmap string (list entry))
  : option (gmap string (list entry)) :=
  match db_names with
  | [] => Some client
  | db_name :: rest =>
      match get_or_create_collection client db_name with
      | Some client' => initialize_databases rest client'
      | None => None
      end
  end.

(** [__init__], from the collections the persistent client opens. *)
Definition init (db_names : list string) (client : gmap string (list entry))
  : outcome VectorDatabaseManager :=
  match db_names with
  | [] => Raise (ValueError "db_names must be a non-empty list of database names.")
  | _ :: _ =>
      match initialize_databases db_names client with
      | Some collections => Ret (Chroma.Manager db_names collections)
      | None => Raise (Exception "get_or_create_collection")
      end
  end.

(** [insert_document]: [get_collection] is outside the [try], the lookup
    of "content_cid" and [collection.add] are inside it, and what they
    raise is printed.  The client takes the one embedding as a batch of
    one. *)
Definition insert_document (self : VectorDatabaseManager) (db_name : string)
  (embedding0 : embedding) (metadata : gmap string string) (doc_id : string)
  : outcome unit * VectorDatabaseManager :=
  if negb (bool_decide (db_name ∈ Chroma.db_names self)) then
    (Raise (ValueError ("Database '" +:+ db_name +:+ "' does not exist.")), self)
  else
    match Chroma.collections self !! db_name with
    | None => (Raise (ValueError ("Collection " +:+ db_name +:+ " does not exist.")), self)
    | Some collection =>
        match metadata !! "content_cid" with
        | None => (Ret tt, self)
        | Some content_cid =>
            match collection_add collection [Chroma.Entry content_cid embedding0 doc_id metadata]
            with
            | Some collection' =>
                (Ret tt, Chroma.Manager (Chroma.db_names self)
                           (<[db_name := collection']> (Chroma.collections self)))
            | None => (Ret tt, self)
            end
        end
    end.

(** Every database of the manager has its collection. *)
Definition initialized (self : VectorDatabaseManager) : Prop :=
  ∀ db_name, db_name ∈ Chroma.db_names self → is_Some (Chroma.collections self !! db_name).

End Manager.
End ChromaManager.

(** The client takes names of three characters and more. *)
Definition demo_valid_name (name : string) : bool :=
  bool_decide (3 ≤ String.length name).

(** A client that rejects every insertion. *)
Definition failing_add (old new : list (@Chroma.entry nat)) : option (list (@Chroma.entry nat)) :=
  None.

(** The collections found at [db_path]: one from an earlier run, with an
    entry, and one of another deployment. *)
Definition demo_client : gmap string (list (@Chroma.entry nat)) :=
  {[ "marker_paragraph_openai" := [Chroma.Entry "QmChunk0" 7 "id-0" {[ "content_cid" := "QmChunk0" ]}];
     "legacy" := [] ]}.

(** * [src/core/converter.py], the converters and [convert_from_url] *)

Module Converters.

(** ** The string operations the module uses *)

(** [s.endswith(suffix)] *)
Fixpoint endswith (s suffix : string) : bool :=
  if bool_decide (s = suffix) then true
  else match s with
       | EmptyString => false
       | String _ rest => endswith rest suffix
       end.

(** [s.lower()], on the ASCII letters; every other byte stays. *)
Definition lower_ascii (a : Ascii.ascii) : Ascii.ascii :=
  let n := Ascii.nat_of_ascii a in
  if (65 <=? n)%nat && (n <=? 90)%nat then Ascii.ascii_of_nat (n + 32) else a.

Fixpoint lower (s : string) : string :=
  match s with
  | EmptyString => EmptyString
  | String a rest => String (lower_ascii a) (lower rest)
  end.

(** [s.rfind(sub)] for a separator [sub] of one character: the index of
    its last occurrence, -1 when there is none. *)
Fixpoint rfind (s sub : string) : Z :=
  match s with
  | EmptyString => -1
  | String a rest =>
      let found := rfind rest sub in
      if (0 <=? found)%Z then (found + 1)%Z
      else if bool_decide (String a "" = sub) then 0%Z else (-1)%Z
  end.

(** The slice [s[:stop]]: a negative [stop] counts from the end. *)
Definition slice_to (s : string) (stop : Z) : string :=
  let n := Z.of_nat (String.length s) in
  let stop := if (stop <? 0)%Z then Z.max 0 (stop + n) else Z.min stop n in
  String.substring 0 (Z.to_nat stop) s.

(** [os.path.join(a, b)] *)
Definition path_join (a b : string) : string :=
  match b with
  | EmptyString => if bool_decide (a = "") || endswith a "/" then a else a +:+ "/"
  | String c _ =>
      if bool_decide (String c "" = "/") || bool_decide (a = "") then b
      else if endswith a "/" then a +:+ b else a +:+ "/" +:+ b
  end.

Definition newline : string := String (Ascii.ascii_of_nat 10) "".

(** [sep.join(parts)] *)
Fixpoint join (sep : string) (parts : list string) : string :=
  match parts with
  | [] => ""
  | [part] => part
  | part :: rest => part +:+ sep +:+ join sep rest
  end.

(** [input_path.lower().endswith(".pdf")] *)
Definition is_pdf (name : string) : bool := endswith (lower name) ".pdf".

(** ** The libraries and the file system *)

(** What [os.path] says of a path that exists: [isfile], [isdir] with the
    names [os.listdir] gives, or neither. *)
Inductive node : Type :=
| File
| Directory (names : list string)
| Special.

(** What a call into a library raises: [FileNotFoundError], the one
    class the handler of [marker] names, or something else. *)
Inductive raised : Type :=
| FileNotFoundError (msg : string)
| Other (e : exn).

Inductive result (A : Type) : Type :=
| Ok (a : A)
| Fails (r : raised).
Arguments Ok {A} a.
Arguments Fails {A} r.

(** The calls into the libraries, in the order they are made. *)
Inductive call : Type :=
| CCreateModelDict (ok : bool)
| CPdfConverter (ok : bool)
| CRender (pdf_path : string)
| CMarkItDown (ok : bool)
| CMdConvert (pdf_path : string)
| CPdfReader (input_path : string)
| COpenAI
| CCompletion (chunk : string)
| CDownload (url output_folder : string)
| CExtract (tar_file_path output_path : string).

Definition is_load (c : call) : bool :=
  match c with CCreateModelDict _ | CPdfConverter _ => true | _ => false end.
Definition is_loaded (c : call) : bool :=
  match c with CPdfConverter true => true | _ => false end.
Definition is_render (c : call) : bool :=
  match c with CRender _ => true | _ => false end.
Definition is_completion (c : call) : bool :=
  match c with CCompletion _ => true | _ => false end.

Record libs : Type := Libs {
  (* os.path.exists / isfile / isdir / os.listdir *)
  stat : list call → string → option node;
  (* marker.models.create_model_dict() *)
  create_model_dict : list call → result unit;
  (* ConfigParser(...) and PdfConverter(...) *)
  PdfConverter : list call → result unit;
  (* converter(pdf_path).markdown *)
  render : list call → string → result string;
  (* MarkItDown(enable_plugins=False) *)
  MarkItDown : list call → result unit;
  (* md.convert(input_pdf_path).text_content.strip() *)
  md_convert : list call → string → result string;
  (* PyPDF2.PdfReader(input_path) and page.extract_text() of its pages *)
  pdf_pages : list call → string → result (list string);
  (* textwrap.wrap(text, width=chunk_size, ...) *)
  wrap : string → nat → list string;
  (* OpenAI(api_key=...) *)
  OpenAI : list call → result unit;
  (* client.chat.completions.create(...): [None] without choices, else
     the content of the first choice, which may be [None] *)
  completion : list call → string → result (option (option string));
  (* download_from_url(url, output_folder) *)
  download_from_url : list call → string → string → result string;
  (* extract(tar_file_path, output_path) *)
  extract : list call → string → string → result unit;
}.

(** The module globals ([_marker_models], [_marker_converter],
    [_markitdown_instance]: are they set) and the calls made so far. *)
Record runtime : Type := Runtime {
  marker_models : bool;
  marker_converter : bool;
  markitdown_instance : bool;
  calls : list call;
}.

Definition called (rt : runtime) (cs : list call) : runtime :=
  Runtime (marker_models rt) (marker_converter rt) (markitdown_instance rt) (calls rt ++ cs).

(** An exception that leaves a function without a handler for it. *)
Definition escaped (r : raised) : exn :=
  match r with
  | FileNotFoundError msg => Exception msg
  | Other e => e
  end.

Section Converters.
Context (L : libs).

(** ** [marker] *)

(** The body of [if _marker_models is None or _marker_converter is None]. *)
Definition marker_load (rt : runtime) : result unit * runtime :=
  if marker_models rt && marker_converter rt then (Ok tt, rt)
  else
    match create_model_dict L (calls rt) with
    | Fails r => (Fails r, called rt [CCreateModelDict false])
    | Ok _ =>
        let rt := Runtime true (marker_converter rt) (markitdown_instance rt)
                          (calls rt ++ [CCreateModelDict true]) in
        match PdfConverter L (calls rt) with
        | Fails r => (Fails r, called rt [CPdfConverter false])
        | Ok _ =>
            (Ok tt, Runtime true true (markitdown_instance rt)
                            (calls rt ++ [CPdfConverter true]))
        end
    end.

(** [for pdf_path in input_pdf_paths: std_out += converter(pdf_path).markdown] *)
Fixpoint marker_render (input_pdf_paths : list string) (std_out : string) (rt : runtime)
  : result string * runtime :=
  match input_pdf_paths with
  | [] => (Ok std_out, rt)
  | pdf_path :: rest =>
      match render L (calls rt) pdf_path with
      | Fails r => (Fails r, called rt [CRender pdf_path])
      | Ok rendered_markdown =>
          marker_render rest (std_out +:+ rendered_markdown) (called rt [CRender pdf_path])
      end
  end.

(** [except FileNotFoundError: return ""]; everything else goes on. *)
Definition marker_handler (r : result string) : outcome string :=
  match r with
  | Ok std_out => Ret std_out
  | Fails (FileNotFoundError _) => Ret ""
  | Fails (Other e) => Raise e
  end.

Definition marker_convert (input_pdf_paths : list string) (rt : runtime)
  : outcome string * runtime :=
  match marker_load rt with
  | (Fails r, rt) => (marker_handler (Fails r), rt)
  | (Ok _, rt) =>
      let (r, rt) := marker_render input_pdf_paths "" rt in (marker_handler r, rt)
  end.

Definition marker (input_path : string) (rt : runtime) : outcome string * runtime :=
  match stat L (calls rt) input_path with
  | None => (Ret "", rt)
  | Some File =>
      if is_pdf input_path then marker_convert [input_path] rt
      else (Raise (ValueError ("File at " +:+ input_path +:+ " is not a PDF.")), rt)
  | Some (Directory names) =>
      match path_join input_path <$> List.filter is_pdf names with
      | [] => (Raise (ValueError ("No PDF files found in directory: " +:+ input_path)), rt)
      | input_pdf_paths => marker_convert input_pdf_paths rt
      end
  | Some Special => (Raise (ValueError ("Invalid input path: " +:+ input_path)), rt)
  end.

(** ** [extract_text_from_pdf] and [chunk_text] *)

Definition extract_text_from_pdf (input_path : string) (rt : runtime)
  : result string * runtime :=
  match pdf_pages L (calls rt) input_path with
  | Fails r => (Fails r, called rt [CPdfReader input_path])
  | Ok pages => (Ok (foldl String.app "" pages), called rt [CPdfReader input_path])
  end.

Definition chunk_text (text : string) (chunk_size : nat) : list string :=
  wrap L text chunk_size.

(** ** [openai] *)

(** The loop over the chunks; [None] when a call raises. *)
Fixpoint openai_chunks (chunks : list string) (markdown_chunks : list (option string))
  (rt : runtime) : option (list (option string)) * runtime :=
  match chunks with
  | [] => (Some markdown_chunks, rt)
  | chunk :: rest =>
      match completion L (calls rt) chunk with
      | Fails _ => (None, called rt [CCompletion chunk])
      | Ok (Some content) =>
          openai_chunks rest (markdown_chunks ++ [content]) (called rt [CCompletion chunk])
      | Ok None =>
          openai_chunks rest (markdown_chunks ++ [Some chunk]) (called rt [CCompletion chunk])
      end
  end.

Definition openai (input_path : string) (rt : runtime) : outcome string * runtime :=
  match stat L (calls rt) input_path with
  | None => (Ret "", rt)
  | Some _ =>
      match extract_text_from_pdf input_path rt with
      | (Fails _, rt) => (Ret "", rt)
      | (Ok pdf_text, rt) =>
          let chunks := chunk_text pdf_text 4000 in
          match OpenAI L (calls rt) with
          | Fails _ => (Ret "", called rt [COpenAI])
          | Ok _ =>
              match openai_chunks chunks [] (called rt [COpenAI]) with
              | (None, rt) => (Ret "", rt)
              | (Some markdown_chunks, rt) =>
                  (Ret (join (newline +:+ newline)
                             (omap (λ chunk, chunk) markdown_chunks)), rt)
              end
          end
      end
  end.

(** ** [markitdown] *)

Definition markitdown_load (rt : runtime) : result unit * runtime :=
  if markitdown_instance rt then (Ok tt, rt)
  else
    match MarkItDown L (calls rt) with
    | Fails r => (Fails r, called rt [CMarkItDown false])
    | Ok _ => (Ok tt, Runtime (marker_models rt) (marker_converter rt) true
                              (calls rt ++ [CMarkItDown true]))
    end.

Definition markitdown (input_path : string) (rt : runtime) : outcome string * runtime :=
  match stat L (calls rt) input_path with
  | Some File =>
      if is_pdf input_path then
        match markitdown_load rt with
        | (Fails _, rt) => (Ret "", rt)
        | (Ok _, rt) =>
            match md_convert L (calls rt) input_path with
            | Fails _ => (Ret "", called rt [CMdConvert input_path])
            | Ok text_content => (Ret text_content, called rt [CMdConvert input_path])
            end
        end
      else (Ret "", rt)
  | _ => (Ret "", rt)
  end.

(** ** [convert] and [convert_from_url] *)

(** [convert], over the converters above: the registry is the one of
    [Converter], with each converter started in the runtime of the call. *)
Definition conversion_methods : gmap string (string → runtime → outcome string * runtime) :=
  <["marker" := marker]> (<["openai" := openai]> (<["markitdown" := markitdown]> ∅)).

Definition convert (conversion_type input_path : string) (rt : runtime)
  : outcome string * runtime :=
  match conversion_methods !! conversion_type with
  | Some method => method input_path rt
  | None => (Raise (KeyError conversion_type), rt)
  end.

(** [convert_from_url]: [output_path] is assigned in the branch of the
    ".tar" downloads only, so that every other download ends in
    [UnboundLocalError] where the arguments of [convert] are evaluated. *)
Definition convert_from_url (conversion_type input_url user_temp_dir : string)
  (rt : runtime) : outcome string * runtime :=
  match download_from_url L (calls rt) input_url user_temp_dir with
  | Fails r => (Raise (escaped r), called rt [CDownload input_url user_temp_dir])
  | Ok download_path =>
      let rt := called rt [CDownload input_url user_temp_dir] in
      if endswith download_path ".tar" then
        let output_path := slice_to download_path (rfind download_path "/") in
        match extract L (calls rt) download_path output_path with
        | Fails r => (Raise (escaped r), called rt [CExtract download_path output_path])
        | Ok _ =>
            convert conversion_type output_path
                    (called rt [CExtract download_path output_path])
        end
      else
        (Raise (Exception "UnboundLocalError: cannot access local variable 'output_path'"),
         rt)
  end.

End Converters.

(** The globals are consistent with the calls: the converter is set when
    and only when one construction of it went through, and then the
    models are set too. *)
Definition loaded_once (rt : runtime) : Prop :=
  length (List.filter is_loaded (calls rt)) = (if marker_converter rt then 1 else 0) ∧
  (marker_converter rt = true → marker_models rt = true).

End Converters.

(** A machine with one PDF, one text file and a directory of papers; the
    libraries work, the chat model returns no choices, and a download
    lands in the folder it is asked for under the last segment of the
    URL. *)
Definition demo_stat (input_path : string) : option Converters.node :=
  if bool_decide (input_path = "paper.pdf") then Some Converters.File
  else if bool_decide (input_path = "notes.txt") then Some Converters.File
  else if bool_decide (input_path = "papers") then
    Some (Converters.Directory ["b.pdf"; "readme.md"; "A.PDF"])
  else None.

Definition demo_libs : Converters.libs :=
  {| Converters.stat := λ _, demo_stat;
     Converters.create_model_dict := λ _, Converters.Ok tt;
     Converters.PdfConverter := λ _, Converters.Ok tt;
     Converters.render := λ _ pdf_path, Converters.Ok ("# " +:+ pdf_path +:+ " ");
     Converters.MarkItDown := λ _, Converters.Ok tt;
     Converters.md_convert := λ _ pdf_path, Converters.Ok ("text of " +:+ pdf_path);
     Converters.pdf_pages := λ _ _, Converters.Ok ["page one "; "page two"];
     Converters.wrap := λ text _, [text; "end"];
     Converters.OpenAI := λ _, Converters.Ok tt;
     Converters.completion := λ _ _, Converters.Ok None;
     Converters.download_from_url :=
       λ _ url output_folder,
         Converters.Ok (output_folder +:+ "/" +:+
                        String.substring (Z.to_nat (Converters.rfind url "/" + 1))
                                         (String.length url) url);
     Converters.extract := λ _ _ _, Converters.Ok tt |}.

(** The process at its start, and once the marker models are loaded. *)
Definition fresh_runtime : Converters.runtime := Converters.Runtime false false false [].

Definition warm_runtime : Converters.runtime :=
  Converters.Runtime true true false
    [Converters.CCreateModelDict true; Converters.CPdfConverter true].

(** As [demo_libs], with downloads that land in the working directory
    and are named without it. *)
Definition bare_download_libs : Converters.libs :=
  {| Converters.stat := Converters.stat demo_libs;
     Converters.create_model_dict := Converters.create_model_dict demo_libs;
     Converters.PdfConverter := Converters.PdfConverter demo_libs;
     Converters.render := Converters.render demo_libs;
     Converters.MarkItDown := Converters.MarkItDown demo_libs;
     Converters.md_convert := Converters.md_convert demo_libs;
     Converters.pdf_pages := Converters.pdf_pages demo_libs;
     Converters.wrap := Converters.wrap demo_libs;
     Converters.OpenAI := Converters.OpenAI demo_libs;
     Converters.completion := Converters.completion demo_libs;
     Converters.download_from_url :=
       λ _ url _,
         Converters.Ok (String.substring (Z.to_nat (Converters.rfind url "/" + 1))
                                         (String.length url) url);
     Converters.extract := Converters.extract demo_libs |}.

(** * [src/rewards/token_rewarder.py] *)

Module TokenRewarder.

(** [generate_db_names]: the names over [itertools.product], the last
    component running fastest. *)
Definition generate_db_names (components : gmap string (list string))
  : outcome (list string) :=
  match components !! "converter" with
  | None => Raise (KeyError "converter")
  | Some converters =>
      match components !! "chunker" with
      | None => Raise (KeyError "chunker")
      | Some chunkers =>
          match components !! "embedder" with
          | None => Raise (KeyError "embedder")
          | Some embedders =>
              Ret (c ← converters; ch ← chunkers; e ← embedders;
                   [c +:+ "_" +:+ ch +:+ "_" +:+ e +:+ "_token"])
          end
      end
  end.

(** The database name [add_reward_to_user] connects to. *)
Definition reward_db_name (db_name : string) : string := db_name +:+ "_token".

(** A Python dict of rewards, in insertion order. *)
Fixpoint dict_set (key : string) (value : Z) (d : list (string * Z)) : list (string * Z) :=
  match d with
  | [] => [(key, value)]
  | (k, v) :: rest =>
      if bool_decide (k = key) then (k, value) :: rest else (k, v) :: dict_set key value rest
  end.

(** The order of the items of a dict of tiers: the thresholds are its
    keys, so that no two items have the same. *)
Definition tier_le (a b : Z * Z) : Prop := (a.1 ≤ b.1)%Z.

#[global] Instance tier_le_dec : RelDecision tier_le.
Proof. intros a b. unfold tier_le. apply _. Defined.

(** A transaction handed to the contract. *)
Inductive transaction : Type :=
| Transfer (recipient : string) (wei_amount : Z) (gas : Z)
| BatchDistribute (recipients : list string) (wei_amounts : list Z) (gas : Z).

(** What the rewarder talks to: the owner address of the environment,
    the conversion [int(amount * 1e18)], whether the nonce, the build,
    the signature and the sending of a transaction all go through, and
    the rows "public key, total jobs" a database answers ([None] when
    the connection or the query fails). *)
Record services : Type := Services {
  owner_address : option string;
  to_wei : Z → Z;
  send_transaction : list transaction → transaction → bool;
  user_totals : string → option (list (string * Z));
}.

Section Rewarder.
Context (S : services).

(** [batch_issue_tokens], over the transactions attempted so far. *)
Definition batch_issue_tokens (recipients : list string) (amounts : list Z)
  (attempts : list transaction) : bool * list transaction :=
  if negb (truthy (owner_address S)) then (false, attempts)
  else if bool_decide (recipients = []) || bool_decide (amounts = []) ||
          negb (bool_decide (length recipients = length amounts)) then (false, attempts)
  else
    let txn := BatchDistribute recipients (to_wei S <$> amounts)
                 (200000 + 70000 * Z.of_nat (length recipients)) in
    (send_transaction S attempts txn, attempts ++ [txn]).

(** The loop [for public_key, total_jobs in user_entries] that the
    reward schemes share. *)
Definition rewards_of (rate : Z → Z) (user_entries : list (string * Z)) : list (string * Z) :=
  foldl (λ rewards entry, dict_set entry.1 (entry.2 * rate entry.2) rewards) [] user_entries.

(** [reward_users_constant]; [None] is Python's [None]. *)
Definition reward_users_constant (db_name : string) (reward_per_job : Z)
  : option (list (string * Z)) :=
  rewards_of (λ _, reward_per_job) <$> user_totals S db_name.

(** [get_user_rewards] *)
Definition get_user_rewards (db_name : string) (attempts : list transaction)
  : list transaction :=
  match reward_users_constant db_name 1 with
  | None | Some [] => attempts
  | Some user_rewards =>
      let recipients := user_rewards.*1 in
      let amounts := user_rewards.*2 in
      if negb (bool_decide (recipients = [])) && negb (bool_decide (amounts = []))
      then (batch_issue_tokens recipients amounts attempts).2
      else attempts
  end.

(** [sorted(tiers.items(), reverse=True)] *)
Definition sorted_tiers (tiers : gmap Z Z) : list (Z * Z) :=
  reverse (merge_sort tier_le (map_to_list tiers)).

(** The inner loop of [reward_users_by_tier]: [reward_per_job]. *)
Fixpoint first_tier (tiers : list (Z * Z)) (total_jobs : Z) : Z :=
  match tiers with
  | [] => 0
  | (threshold, reward) :: rest =>
      if bool_decide (threshold ≤ total_jobs)%Z then reward else first_tier rest total_jobs
  end.

Definition default_tiers : gmap Z Z := {[ 100%Z := 5%Z; 50%Z := 3%Z; 0%Z := 1%Z ]}.

(** [reward_users_by_tier] *)
Definition reward_users_by_tier (db_name : string) (tiers : option (gmap Z Z))
  : option (list (string * Z)) :=
  let tiers := default default_tiers tiers in
  rewards_of (first_tier (sorted_tiers tiers)) <$> user_totals S db_name.

End Rewarder.
End TokenRewarder.

(** Rewards of three users, one of them listed twice, with an owner and
    a chain that takes every transaction. *)
Definition demo_services : TokenRewarder.services :=
  {| TokenRewarder.owner_address := Some "0xOwner";
     TokenRewarder.to_wei := λ amount, (amount * 10 ^ 18)%Z;
     TokenRewarder.send_transaction := λ _ _, true;
     TokenRewarder.user_totals :=
       λ db_name,
         if bool_decide (db_name = "marker_paragraph_openai_token")
         then Some [("0xA", 120%Z); ("0xB", 60%Z); ("0xA", 7%Z); ("0xC", 3%Z)]
         else None |}.

Definition demo_components : gmap string (list string) :=
  {[ "converter" := ["marker"; "openai"]; "chunker" := ["paragraph"];
     "embedder" := ["openai"; "bge"] ]}.

(** * Properties *)

(** Unfolds the monad and the primitive calls. *)
Ltac unfold_proc :=
  unfold write_mappings, read_mappings, write_to_file,
    create_file_with_ipfs, git, add_ipfs_node, create_relationship,
    get_files, put_file, get_convert_cache, set_convert_cache,
    get_chunk_cache, set_chunk_cache, history, emit, lift, bind, ret, raise,
    logged in *.

(** ** The ledger *)

Lemma is_complete_empty pdf_cid combination : is_complete ∅ pdf_cid combination = false.
Proof. unfold is_complete. by rewrite lookup_empty. Qed.

Lemma is_complete_elem m pdf_cid combination :
  is_complete m pdf_cid combination = true ↔
  combination ∈ default [] (m !! pdf_cid).
Proof.
  unfold is_complete. destruct (m !! pdf_cid) as [combos|]; simpl.
  - by rewrite bool_decide_eq_true.
  - split; [done | by intros ?%elem_of_nil].
Qed.

Lemma add_combination_lookup pdf_cid combination m :
  default [] (add_combination pdf_cid combination m !! pdf_cid) =
  if bool_decide (combination ∈ default [] (m !! pdf_cid))
  then default [] (m !! pdf_cid)
  else default [] (m !! pdf_cid) ++ [combination].
Proof.
  unfold add_combination.
  destruct (m !! pdf_cid) as [combos|] eqn:Hm; simpl.
  - rewrite Hm. simpl. case_bool_decide.
    + by rewrite Hm.
    + by rewrite lookup_insert_eq.
  - rewrite lookup_insert_eq. simpl. by rewrite lookup_insert_eq.
Qed.


Lemma add_combination_complete pdf_cid combination m :
  is_complete (add_combination pdf_cid combination m) pdf_cid combination = true.
Proof.
  apply is_complete_elem. rewrite add_combination_lookup.
  case_bool_decide; [done|]. apply elem_of_app. right. by apply list_elem_of_singleton.
Qed.


Lemma loaded_at_insert fs path content :
  loaded_at (<[path := content]> fs) path =
  match content with
  | Ledger m => Mapping m
  | IllTyped j => Value j
  | Unreadable => Mapping ∅
  end.
Proof. unfold loaded_at. by rewrite lookup_insert_eq. Qed.

Lemma loaded_at_insert_ne fs path other content :
  path ≠ other → loaded_at (<[path := content]> fs) other = loaded_at fs other.
Proof. intros Hne. unfold loaded_at. by rewrite lookup_insert_ne. Qed.

Lemma ledger_at_insert fs path m :
  ledger_at (<[path := Ledger m]> fs) path = m.
Proof. unfold ledger_at. by rewrite loaded_at_insert. Qed.

Lemma ledger_at_insert_unreadable fs path :
  ledger_at (<[path := Unreadable]> fs) path = ∅.
Proof. unfold ledger_at. by rewrite loaded_at_insert. Qed.

Lemma ledger_at_insert_ne fs path other f :
  path ≠ other → ledger_at (<[path := f]> fs) other = ledger_at fs other.
Proof. intros Hne. unfold ledger_at. by rewrite loaded_at_insert_ne. Qed.

Lemma loaded_at_well_typed fs path :
  well_typed_at fs path → loaded_at fs path = Mapping (ledger_at fs path).
Proof.
  intros Htyped. unfold ledger_at, loaded_at.
  destruct (fs !! path) as [[|m|j]|] eqn:Hfile; try done.
  by destruct (Htyped j).
Qed.

Lemma well_typed_insert fs path other content :
  (∀ j, content ≠ IllTyped j) →
  well_typed_at fs other → well_typed_at (<[path := content]> fs) other.
Proof.
  intros Hcontent Htyped j. destruct (decide (path = other)) as [->|Hne].
  - rewrite lookup_insert_eq. intros [= ->]. by apply (Hcontent j).
  - rewrite lookup_insert_ne by done. apply Htyped.
Qed.

Lemma well_typed_write_effect ok torn fs path other m :
  well_typed_at fs other → well_typed_at (write_effect ok torn path (Ledger m) fs) other.
Proof.
  intros Htyped. unfold write_effect.
  destruct ok; [by apply well_typed_insert|].
  destruct torn; [by apply well_typed_insert | done].
Qed.

Lemma write_effect_other ok torn fs path other content :
  other ≠ path → write_effect ok torn path content fs !! other = fs !! other.
Proof.
  intros Hne. unfold write_effect.
  destruct ok; [by rewrite lookup_insert_ne|].
  destruct torn; [by rewrite lookup_insert_ne | done].
Qed.

Lemma ledger_at_write_effect ok torn fs path m :
  ledger_at (write_effect ok torn path (Ledger m) fs) path =
  if ok then m else if torn then ∅ else ledger_at fs path.
Proof.
  unfold write_effect. destruct ok; [apply ledger_at_insert|].
  destruct torn; [apply ledger_at_insert_unreadable | done].
Qed.

Lemma ledger_at_write_effect_ne ok torn fs path other content :
  path ≠ other → ledger_at (write_effect ok torn path content fs) other = ledger_at fs other.
Proof.
  intros Hne. unfold write_effect.
  destruct ok; [by apply ledger_at_insert_ne|].
  destruct torn; [by apply ledger_at_insert_ne | done].
Qed.

Lemma read_mappings_run path w :
  read_mappings path w = (Ret (loaded_at (files w) path), logged w [EReadMappings path]).
Proof.
  unfold_proc. unfold loaded_at. simpl.
  destruct (files w !! path) as [[|m|j]|]; reflexivity.
Qed.

Lemma write_mappings_run E v path w :
  write_mappings E v path w =
  let ok := file_written E (log w) path in
  (Ret tt,
   World (write_effect ok (ledger_torn E (log w) path) path (stored v) (files w))
         (convert_cache w) (chunk_cache w)
         (log w ++ [EWriteMappings path v ok])).
Proof.
  unfold_proc. unfold write_effect. simpl.
  destruct (file_written E (log w) path); [done|].
  by destruct (ledger_torn E (log w) path).
Qed.

(** What the in-memory update does to a mapping: the list of the
    document gains the variant at its end unless it holds it, and every
    other entry stays. *)
Lemma add_combination_spec pdf_cid combination (m : mappings) :
  add_combination pdf_cid combination m !! pdf_cid =
    Some (if bool_decide (combination ∈ default [] (m !! pdf_cid))
          then default [] (m !! pdf_cid)
          else default [] (m !! pdf_cid) ++ [combination]) ∧
  ∀ other, other ≠ pdf_cid → add_combination pdf_cid combination m !! other = m !! other.
Proof.
  unfold add_combination. split.
  - destruct (m !! pdf_cid) as [combos|] eqn:Hm; simpl.
    + rewrite Hm. simpl. case_bool_decide; [done|]. by rewrite lookup_insert_eq.
    + rewrite lookup_insert_eq. simpl. by rewrite lookup_insert_eq.
  - intros other Hne. destruct (m !! pdf_cid) as [combos|] eqn:Hm; simpl.
    + rewrite Hm. simpl. case_bool_decide; [done|]. by rewrite lookup_insert_ne.
    + rewrite lookup_insert_eq. simpl. by rewrite !lookup_insert_ne.
Qed.

(** The in-memory update keeps the kind of what was read. *)
Lemma add_to_mappings_mapping pdf_cid combination m :
  add_to_mappings pdf_cid combination (Mapping m) =
  Ret (Mapping (add_combination pdf_cid combination m)).
Proof. reflexivity. Qed.


(** Strings *)

Lemma string_app_cons (a : Ascii.ascii) (s t : string) :
  String a s +:+ t = String a (s +:+ t).
Proof. reflexivity. Qed.

Lemma string_app_nil (t : string) : "" +:+ t = t.
Proof. reflexivity. Qed.

Lemma string_app_length (s t : string) :
  String.length (s +:+ t) = String.length s + String.length t.
Proof. induction s as [|a s IH]; [done|]. rewrite string_app_cons. simpl. by rewrite IH. Qed.

Lemma string_app_inv_tail (s1 s2 t : string) : s1 +:+ t = s2 +:+ t → s1 = s2.
Proof.
  revert s2. induction s1 as [|a s1 IH]; intros [|b s2] Heq.
  - done.
  - apply (f_equal String.length) in Heq.
    rewrite string_app_nil, string_app_cons in Heq. simpl in Heq.
    rewrite string_app_length in Heq. lia.
  - apply (f_equal String.length) in Heq.
    rewrite string_app_nil, string_app_cons in Heq. simpl in Heq.
    rewrite string_app_length in Heq. lia.
  - rewrite !string_app_cons in Heq. simplify_eq. f_equal. by apply IH.
Qed.

Lemma mappings_paths_distinct self :
  temp_dir self ≠ user_temp_dir self →
  global_mappings_path self ≠ user_mappings_path self.
Proof. intros Hne Heq. apply Hne. by apply string_app_inv_tail in Heq. Qed.

(** ** [__update_mappings], step by step *)

(** One read-modify-write cycle. *)
Lemma update_cycle_run E path pdf_cid combination w :
  update_cycle E path pdf_cid combination w =
  match add_to_mappings pdf_cid combination (loaded_at (files w) path) with
  | Ret m' =>
      let h := log w ++ [EReadMappings path] in
      (Ret tt,
       World (write_effect (file_written E h path) (ledger_torn E h path) path (stored m')
                           (files w))
             (convert_cache w) (chunk_cache w)
             (h ++ [EWriteMappings path m' (file_written E h path)]))
  | Raise e => (Raise e, logged w [EReadMappings path])
  end.
Proof.
  unfold update_cycle. unfold bind at 1. rewrite read_mappings_run. cbv beta iota.
  unfold bind at 1. unfold lift at 1.
  destruct (add_to_mappings pdf_cid combination (loaded_at (files w) path)) as [m'|e];
    [|done].
  by rewrite write_mappings_run.
Qed.

Lemma update_mappings_cycles E self pdf_cid combination w :
  update_mappings E self pdf_cid combination w =
  bind (update_cycle E (global_mappings_path self) pdf_cid combination)
       (λ _, update_cycle E (user_mappings_path self) pdf_cid combination) w.
Proof.
  unfold update_mappings, update_cycle. unfold bind.
  destruct (read_mappings (global_mappings_path self) w) as [[m|e] w1]; [|done].
  destruct (lift (add_to_mappings pdf_cid combination m) w1) as [[m'|e] w2]; [|done].
  by destruct (write_mappings E m' (global_mappings_path self) w2) as [[[]|e] w3].
Qed.

Section UpdateMappings.
Context (E : env) (self : Processor) (pdf_cid combination : string) (w : world).

Lemma update_mappings_run :
  well_typed_at (files w) (global_mappings_path self) →
  well_typed_at (files w) (user_mappings_path self) →
  update_mappings E self pdf_cid combination w =
  (Ret tt, World (files_after_user E self pdf_cid combination w)
                 (convert_cache w) (chunk_cache w)
                 (log w ++ update_events E self pdf_cid combination w)).
Proof.
  intros Hg Hu. rewrite update_mappings_cycles. unfold bind at 1.
  rewrite update_cycle_run, (loaded_at_well_typed _ _ Hg), add_to_mappings_mapping.
  cbv beta iota zeta.
  rewrite update_cycle_run. cbn [files log convert_cache chunk_cache stored].
  fold (global_ok E self w) (global_torn E self w)
       (global_written self pdf_cid combination w).
  fold (files_after_global E self pdf_cid combination w).
  rewrite (loaded_at_well_typed (files_after_global E self pdf_cid combination w)
             (user_mappings_path self))
    by (by apply well_typed_write_effect).
  rewrite add_to_mappings_mapping. cbv beta iota zeta. cbn [stored].
  unfold files_after_user, user_ok, user_torn, user_written, user_history, update_events.
  rewrite <- !app_assoc. reflexivity.
Qed.

Lemma global_complete_after :
  global_ok E self w = true →
  global_mappings_path self ≠ user_mappings_path self ∨
  user_ok E self pdf_cid combination w = true ∨
  user_torn E self pdf_cid combination w = false →
  is_complete (ledger_at (files_after_user E self pdf_cid combination w)
                         (global_mappings_path self)) pdf_cid combination = true.
Proof.
  intros Hok Huser. unfold files_after_user.
  assert (is_complete (ledger_at (files_after_global E self pdf_cid combination w)
                         (global_mappings_path self)) pdf_cid combination = true) as Hfirst.
  { unfold files_after_global. rewrite ledger_at_write_effect, Hok.
    apply add_combination_complete. }
  destruct (decide (user_mappings_path self = global_mappings_path self)) as [Heq|Hne].
  - rewrite <- Heq. rewrite ledger_at_write_effect.
    destruct (user_ok E self pdf_cid combination w) eqn:Hu;
      [apply add_combination_complete|].
    destruct Huser as [Hne | [? | ->]]; [by destruct Hne | done |].
    by rewrite Heq.
  - by rewrite ledger_at_write_effect_ne.
Qed.

Lemma user_complete_after :
  user_ok E self pdf_cid combination w = true →
  is_complete (ledger_at (files_after_user E self pdf_cid combination w)
                         (user_mappings_path self)) pdf_cid combination = true.
Proof.
  intros Hok. unfold files_after_user. rewrite ledger_at_write_effect, Hok.
  apply add_combination_complete.
Qed.

End UpdateMappings.

(** ** The completion ledger *)

(** C8: reading a ledger file that is missing, or that cannot be read or
    parsed, returns the empty mapping instead of raising, and the
    completeness check on that result says no for every document and every
    variant. *)
Theorem read_mappings_missing_or_unreadable (path : string) (w : world) :
  files w !! path = None ∨ files w !! path = Some Unreadable →
  ∃ m, read_mappings path w = (Ret (Mapping m), logged w [EReadMappings path]) ∧
       m = ∅ ∧
       (∀ pdf_cid combination, is_complete m pdf_cid combination = false) ∧
       ∀ pdf_cid combination, in_mappings (Mapping m) pdf_cid combination = Ret false.
Proof.
  intros Hfile. exists ∅. split; [|split; [done|split]].
  - rewrite read_mappings_run. unfold loaded_at.
    by destruct Hfile as [-> | ->].
  - intros. apply is_complete_empty.
  - intros. unfold in_mappings. by rewrite is_complete_empty.
Qed.

Lemma read_mappings_missing_or_unreadable_witness :
  (files garbled_world !! "temp/mappings.json" = None ∨
   files garbled_world !! "temp/mappings.json" = Some Unreadable) ∧
  ∃ m, read_mappings "temp/mappings.json" garbled_world =
         (Ret (Mapping m), logged garbled_world [EReadMappings "temp/mappings.json"]) ∧
       m = ∅ ∧
       ∀ pdf_cid combination, is_complete m pdf_cid combination = false.
Proof.
  assert (files garbled_world !! "temp/mappings.json" = None ∨
          files garbled_world !! "temp/mappings.json" = Some Unreadable) as H.
  { right. vm_compute. reflexivity. }
  split; [exact H|].
  destruct (read_mappings_missing_or_unreadable "temp/mappings.json" garbled_world H)
    as (m & Hrun & Hm & Hnone & _).
  exists m. split; [exact Hrun|]. split; [exact Hm | exact Hnone].
Defined.

(** C5, amended: on ledger files that hold a dict of lists (or are
    missing or unparseable), [__update_mappings] runs two
    read-modify-write cycles, the global ledger first and the ledger of
    the requester second.  Each cycle writes what it read with the variant
    appended to the list of the document unless the list holds it, every
    other entry as it was read.  The cycles are not transactional: each
    write goes through, fails before the file is opened (the file stays
    as it was) or fails after (the file is left empty and reads as the
    empty mapping) on its own, and touches no other file.  The two ledgers
    are two files exactly when the directory of the requester is not the
    shared one. *)
Theorem update_mappings_global_then_user (E : env) (self : Processor)
  (pdf_cid combination : string) (w : world) :
  let g := global_mappings_path self in
  let u := user_mappings_path self in
  let mg := global_written self pdf_cid combination w in
  let mu := user_written E self pdf_cid combination w in
  let okg := global_ok E self w in
  let oku := user_ok E self pdf_cid combination w in
  let torng := global_torn E self w in
  let tornu := user_torn E self pdf_cid combination w in
  let fs1 := write_effect okg torng g (Ledger mg) (files w) in
  let fs2 := write_effect oku tornu u (Ledger mu) fs1 in
  well_typed_at (files w) g →
  well_typed_at (files w) u →
  update_mappings E self pdf_cid combination w =
    (Ret tt, World fs2 (convert_cache w) (chunk_cache w)
               (log w ++ [EReadMappings g; EWriteMappings g (Mapping mg) okg;
                          EReadMappings u; EWriteMappings u (Mapping mu) oku])) ∧
  mg = add_combination pdf_cid combination (ledger_at (files w) g) ∧
  mu = add_combination pdf_cid combination (ledger_at fs1 u) ∧
  (∀ m : mappings,
     add_combination pdf_cid combination m !! pdf_cid =
       Some (if bool_decide (combination ∈ default [] (m !! pdf_cid))
             then default [] (m !! pdf_cid)
             else default [] (m !! pdf_cid) ++ [combination]) ∧
     ∀ other, other ≠ pdf_cid →
              add_combination pdf_cid combination m !! other = m !! other) ∧
  is_complete mg pdf_cid combination = true ∧
  is_complete mu pdf_cid combination = true ∧
  ledger_at fs1 g = (if okg then mg else if torng then ∅ else ledger_at (files w) g) ∧
  ledger_at fs2 u = (if oku then mu else if tornu then ∅ else ledger_at fs1 u) ∧
  (∀ path, path ≠ g → fs1 !! path = files w !! path) ∧
  (∀ path, path ≠ u → fs2 !! path = fs1 !! path) ∧
  (okg = true → g ≠ u ∨ oku = true ∨ tornu = false →
   is_complete (ledger_at fs2 g) pdf_cid combination = true) ∧
  (oku = true → is_complete (ledger_at fs2 u) pdf_cid combination = true) ∧
  (g ≠ u ↔ temp_dir self ≠ user_temp_dir self) ∧
  (g ≠ u →
   ledger_at fs2 g = ledger_at fs1 g ∧ ledger_at fs1 u = ledger_at (files w) u).
Proof.
  intros g u mg mu okg oku torng tornu fs1 fs2 Hg Hu.
  split; [by apply update_mappings_run|].
  split; [done|]. split; [done|].
  split; [intros m; apply add_combination_spec|].
  split; [apply add_combination_complete|].
  split; [apply add_combination_complete|].
  split; [apply ledger_at_write_effect|].
  split; [apply ledger_at_write_effect|].
  split; [intros path Hne; by apply write_effect_other|].
  split; [intros path Hne; by apply write_effect_other|].
  split; [apply global_complete_after|].
  split; [apply user_complete_after|].
  split.
  - split; [|apply mappings_paths_distinct].
    intros Hne Hdirs. apply Hne. unfold g, u, global_mappings_path, user_mappings_path.
    by rewrite Hdirs.
  - intros Hne. split.
    + subst fs2. by rewrite ledger_at_write_effect_ne.
    + subst fs1. by rewrite ledger_at_write_effect_ne.
Qed.

Lemma update_mappings_global_then_user_witness :
  well_typed_at (files empty_world) (global_mappings_path alice) ∧
  well_typed_at (files empty_world) (user_mappings_path alice) ∧
  global_mappings_path alice ≠ user_mappings_path alice ∧
  update_mappings ok_env alice "QmDoc" "marker_paragraph_openai" empty_world =
    (Ret tt,
     World {[ "temp/mappings.json" := Ledger {[ "QmDoc" := ["marker_paragraph_openai"] ]};
              "temp/alice@example.org/mappings.json" :=
                Ledger {[ "QmDoc" := ["marker_paragraph_openai"] ]} ]} ∅ ∅
           [EReadMappings "temp/mappings.json";
            EWriteMappings "temp/mappings.json"
              (Mapping {[ "QmDoc" := ["marker_paragraph_openai"] ]}) true;
            EReadMappings "temp/alice@example.org/mappings.json";
            EWriteMappings "temp/alice@example.org/mappings.json"
              (Mapping {[ "QmDoc" := ["marker_paragraph_openai"] ]}) true]).
Proof.
  assert (well_typed_at (files empty_world) (global_mappings_path alice)) as Hg
    by (intros j; vm_compute; discriminate).
  assert (well_typed_at (files empty_world) (user_mappings_path alice)) as Hu
    by (intros j; vm_compute; discriminate).
  pose proof (update_mappings_global_then_user ok_env alice
                "QmDoc" "marker_paragraph_openai" empty_world) as Hok.
  cbv zeta in Hok.
  destruct (Hok Hg Hu) as (Hrun & _ & _ & _ & _ & _ & _ & _ & _ & _ & _ & _ & Hsep & _).
  split; [exact Hg|]. split; [exact Hu|].
  split; [apply Hsep; discriminate|].
  rewrite Hrun. vm_compute. reflexivity.
Defined.

(** C5, as stated, fails.  For a processor made with the empty e-mail
    address the two scopes are one file, which both cycles write; and
    when the write of the ledger of the requester fails, the variant is
    added to the global scope only. *)
Lemma update_mappings_one_store_or_one_scope :
  global_mappings_path anonymous = user_mappings_path anonymous ∧
  update_mappings ok_env anonymous "QmDoc" "marker_paragraph_openai" empty_world =
    (Ret tt,
     World {[ "temp/mappings.json" := Ledger {[ "QmDoc" := ["marker_paragraph_openai"] ]} ]}
           ∅ ∅
           [EReadMappings "temp/mappings.json";
            EWriteMappings "temp/mappings.json"
              (Mapping {[ "QmDoc" := ["marker_paragraph_openai"] ]}) true;
            EReadMappings "temp/mappings.json";
            EWriteMappings "temp/mappings.json"
              (Mapping {[ "QmDoc" := ["marker_paragraph_openai"] ]}) true]) ∧
  is_complete
    (ledger_at (files (update_mappings user_ledger_locked_env alice "QmDoc"
                         "marker_paragraph_openai" empty_world).2)
               (global_mappings_path alice))
    "QmDoc" "marker_paragraph_openai" = true ∧
  is_complete
    (ledger_at (files (update_mappings user_ledger_locked_env alice "QmDoc"
                         "marker_paragraph_openai" empty_world).2)
               (user_mappings_path alice))
    "QmDoc" "marker_paragraph_openai" = false.
Proof. split_and!; vm_compute; reflexivity. Qed.

(** ** Skipping a variant that is globally complete *)








(** ** Uploads *)

Lemma lighthouse_and_commit_run E object git_path w :
  ∃ cid evs,
    lighthouse_and_commit E object git_path w = (Ret cid, logged w evs) ∧
    Forall (λ e, is_upload_step e = true) evs.
Proof.
  unfold lighthouse_and_commit. unfold_proc. simpl.
  destruct (upload_text_to_lighthouse E (log w) object) as [ipfs_cid|]; simpl.
  - destruct (git_ok E _ "add"); simpl; [destruct (git_ok E _ "commit"); simpl|];
      (eexists _, _; split;
       [rewrite <- ?app_assoc; simpl; reflexivity | repeat constructor]).
  - eexists _, _; split; [reflexivity | repeat constructor].
Qed.

Lemma upload_step_only e :
  is_upload_step e = true →
  is_graph_write e = false ∧ is_ledger_event e = false ∧
  is_convert e = false ∧ is_chunk e = false ∧ is_embed e = false.
Proof. by destruct e. Qed.

(** C4: when the upload of the raw document yields the empty CID (the
    metadata lookup before it having returned), [process] returns at
    once: the only calls made are those of that one upload attempt, so
    the document is not added to the graph, no relationship is created,
    no variant is processed, and every ledger file is left as it was. *)
Theorem process_aborts_when_upload_fails (E : env) (self : Processor)
  (pdf_path : string) (databases : list db_config) (git_path : string) (w : world)
  (lines : list line) (found : gmap string mvalue) :
  metadata_lines E = Some lines →
  scan_metadata (doc_id_of E pdf_path) lines = Ret found →
  (lighthouse_and_commit E pdf_path git_path (World (files w) ∅ ∅ (log w))).1 = Ret "" →
  ∃ evs,
    process E self pdf_path databases git_path w =
      (Ret tt, World (files w) ∅ ∅ (log w ++ evs)) ∧
    (lighthouse_and_commit E pdf_path git_path (World (files w) ∅ ∅ (log w))).2 =
      World (files w) ∅ ∅ (log w ++ evs) ∧
    Forall (λ e, is_upload_step e = true) evs ∧
    Forall (λ e, is_graph_write e = false ∧ is_ledger_event e = false ∧
                 is_convert e = false ∧ is_chunk e = false ∧ is_embed e = false) evs.
Proof.
  intros Hmeta Hfound Hfail.
  destruct (lighthouse_and_commit_run E pdf_path git_path (World (files w) ∅ ∅ (log w)))
    as (cid & evs & Hrun & Hevs).
  rewrite Hrun in Hfail. simpl in Hfail. simplify_eq.
  exists evs. split_and!.
  - unfold process, get_metadata_for_doc. rewrite Hmeta, Hfound.
    unfold bind at 1. unfold set_convert_cache at 1. cbv beta iota.
    unfold bind at 1. unfold set_chunk_cache at 1. cbv beta iota.
    unfold bind at 1. unfold lift at 1. cbv beta iota.
    unfold bind at 1. cbn [files convert_cache chunk_cache log].
    rewrite Hrun. cbv beta iota. by rewrite bool_decide_eq_true_2.
  - by rewrite Hrun.
  - done.
  - eapply Forall_impl; [exact Hevs|]. apply upload_step_only.
Qed.

Lemma process_aborts_when_upload_fails_witness :
  metadata_lines offline_env = Some [] ∧
  scan_metadata (doc_id_of offline_env "doc.pdf") [] = Ret ∅ ∧
  (lighthouse_and_commit offline_env "doc.pdf" "git"
     (World (files empty_world) ∅ ∅ (log empty_world))).1 = Ret "" ∧
  ∃ evs,
    process offline_env alice "doc.pdf" [DbConfig "marker" "paragraph" "openai"] "git"
            empty_world = (Ret tt, World (files empty_world) ∅ ∅ (log empty_world ++ evs)) ∧
    Forall (λ e, is_upload_step e = true) evs.
Proof.
  assert (metadata_lines offline_env = Some []) as Hmeta by reflexivity.
  assert (scan_metadata (doc_id_of offline_env "doc.pdf") [] = Ret ∅) as Hfound
    by reflexivity.
  assert ((lighthouse_and_commit offline_env "doc.pdf" "git"
             (World (files empty_world) ∅ ∅ (log empty_world))).1 = Ret "") as Hfail
    by (vm_compute; reflexivity).
  split; [exact Hmeta|]. split; [exact Hfound|]. split; [exact Hfail|].
  destruct (process_aborts_when_upload_fails offline_env alice "doc.pdf"
              [DbConfig "marker" "paragraph" "openai"] "git" empty_world [] ∅
              Hmeta Hfound Hfail)
    as (evs & Hrun & _ & Hevs & _).
  exists evs. split; [exact Hrun | exact Hevs].
Defined.

(** ** The conversion step *)

Lemma find_conversion_run E pdf_cid converter_func w :
  let edge := graph_edge E pdf_cid converter_func w in
  let text := fetched E pdf_cid converter_func w in
  find_conversion E pdf_cid converter_func w =
  if truthy edge then
    if truthy text then
      (Ret edge,
       World (files w) (<[converter_func := default "" text]> (convert_cache w))
             (chunk_cache w)
             (log w ++ [EFindConversion pdf_cid converter_func edge;
                        EFetchContent (default "" edge) text]))
    else
      (Ret None, logged w [EFindConversion pdf_cid converter_func edge;
                           EFetchContent (default "" edge) text])
  else (Ret edge, logged w [EFindConversion pdf_cid converter_func edge]).
Proof.
  intros edge text. subst edge text. unfold fetched, graph_edge.
  unfold find_conversion. unfold_proc. simpl.
  destruct (truthy (get_converted_markdown_cid E (log w) pdf_cid converter_func));
    simpl; [|done].
  destruct (truthy (query_ipfs_content E _ _)); simpl; by rewrite <- ?app_assoc.
Qed.

Lemma find_conversion_returns E pdf_cid converter_func w :
  ∃ found w1,
    find_conversion E pdf_cid converter_func w = (Ret found, w1) ∧
    files w1 = files w ∧
    (truthy found = true → is_Some (convert_cache w1 !! converter_func)).
Proof.
  rewrite find_conversion_run. cbv zeta.
  destruct (truthy (graph_edge E pdf_cid converter_func w)) eqn:Hedge;
    [destruct (truthy (fetched E pdf_cid converter_func w)) eqn:Htext|];
    eexists _, _; (split; [reflexivity|]); split; try done.
  - intros _. cbn [convert_cache]. rewrite lookup_insert_eq. by eexists.
  - intros Hfound. by rewrite Hedge in Hfound.
Qed.

Lemma perform_conversion_returns E self pdf_path git_path pdf_cid converter_func w :
  (∀ h, returns (convert E h converter_func pdf_path) = true) →
  ∃ cid w1,
    perform_conversion E self pdf_path git_path pdf_cid converter_func w = (Ret cid, w1) ∧
    files w1 = files w ∧
    is_Some (convert_cache w1 !! converter_func).
Proof.
  intros Hret. unfold perform_conversion.
  unfold bind at 1. unfold get_convert_cache at 1. cbv beta iota.
  destruct (convert_cache w !! converter_func) as [text|] eqn:Hcache.
  - unfold_proc. simpl.
    match goal with |- context [lighthouse_and_commit E ?o ?g ?w0] =>
      destruct (lighthouse_and_commit_run E o g w0) as (cid & evs & -> & _) end.
    simpl. eexists _, _. split; [reflexivity|]. split; [done|].
    simpl. rewrite Hcache. by eexists.
  - unfold_proc. simpl.
    pose proof (Hret (log w)) as Hconv.
    destruct (convert E (log w) converter_func pdf_path) as [text|e]; [|done]. simpl.
    match goal with |- context [lighthouse_and_commit E ?o ?g ?w0] =>
      destruct (lighthouse_and_commit_run E o g w0) as (cid & evs & -> & _) end.
    simpl. eexists _, _. split; [reflexivity|]. split; [done|].
    simpl. rewrite lookup_insert_eq. by eexists.
Qed.

Lemma resolve_conversion_returns E self pdf_path git_path pdf_cid converter_func w :
  (∀ h, returns (convert E h converter_func pdf_path) = true) →
  ∃ cid w1,
    resolve_conversion E self pdf_path git_path pdf_cid converter_func w = (Ret cid, w1) ∧
    files w1 = files w ∧
    is_Some (convert_cache w1 !! converter_func).
Proof.
  intros Hret. unfold resolve_conversion. unfold bind at 1.
  destruct (find_conversion_returns E pdf_cid converter_func w)
    as (found & w1 & -> & Hfiles & Hcache).
  unfold bind at 1. unfold get_convert_cache at 1. cbv beta iota.
  destruct (truthy found) eqn:Hfound; simpl.
  - case_bool_decide as Hnone.
    + destruct (perform_conversion_returns E self pdf_path git_path pdf_cid
                  converter_func w1 Hret) as (cid & w2 & -> & Hfiles2 & Hcache2).
      exists cid, w2. split; [done|]. split; [congruence | done].
    + eexists _, _. split; [reflexivity|]. split; [done|].
      destruct (convert_cache w1 !! converter_func); [by eexists | done].
  - destruct (perform_conversion_returns E self pdf_path git_path pdf_cid
                converter_func w1 Hret) as (cid & w2 & -> & Hfiles2 & Hcache2).
    exists cid, w2. split; [done|]. split; [congruence | done].
Qed.

Lemma resolve_chunks_returns E converter_func chunker_func w :
  (∀ h text, returns (chunk E h chunker_func text) = true) →
  is_Some (convert_cache w !! converter_func) →
  ∃ chunks w1,
    resolve_chunks E converter_func chunker_func w = (Ret chunks, w1) ∧
    files w1 = files w.
Proof.
  intros Hret [text Htext]. unfold resolve_chunks. unfold_proc. simpl. rewrite Htext.
  destruct (chunk_cache w !! chunk_cache_key converter_func chunker_func) as [chunks|].
  - by eexists _, _.
  - simpl. pose proof (Hret (log w) text) as Hchunk.
    destruct (chunk E (log w) chunker_func text) as [chunks|e]; [|done].
    simpl. by eexists _, _.
Qed.

Lemma process_chunk_returns E self git_path converted_cid chunker_func embedder_func
  chunk_i w :
  (∀ h text, returns (embed E h embedder_func text) = true) →
  ∃ w1,
    process_chunk E self git_path converted_cid chunker_func embedder_func chunk_i w =
      (Ret tt, w1) ∧
    files w1 = files w.
Proof.
  intros Hret. unfold process_chunk. unfold_proc. simpl.
  match goal with |- context [lighthouse_and_commit E ?o ?g ?w0] =>
    destruct (lighthouse_and_commit_run E o g w0) as (cid & evs & -> & _) end.
  simpl.
  match goal with |- context [embed E ?h ?e ?c] =>
    pose proof (Hret h c) as Hembed;
    destruct (embed E h e c) as [embedding|err]; [|done] end.
  simpl.
  match goal with |- context [lighthouse_and_commit E ?o ?g ?w0] =>
    destruct (lighthouse_and_commit_run E o g w0) as (cid2 & evs2 & -> & _) end.
  simpl. by eexists.
Qed.

Lemma chunk_loop_returns E self git_path converted_cid chunker_func embedder_func
  chunks w :
  (∀ h text, returns (embed E h embedder_func text) = true) →
  ∃ w1,
    for_each (process_chunk E self git_path converted_cid chunker_func embedder_func)
             chunks w = (Ret tt, w1) ∧
    files w1 = files w.
Proof.
  intros Hret. revert w. induction chunks as [|chunk_i chunks IH]; intros w; simpl.
  - by exists w.
  - unfold bind.
    destruct (process_chunk_returns E self git_path converted_cid chunker_func
                embedder_func chunk_i w Hret) as (w1 & -> & Hfiles1).
    destruct (IH w1) as (w2 & -> & Hfiles2). exists w2. split; [done | congruence].
Qed.

Lemma compute_variant_returns E self pdf_path git_path pdf_cid c w :
  pluggable_functions_return E pdf_path c →
  ∃ w1,
    compute_variant E self pdf_path git_path pdf_cid c w = (Ret tt, w1) ∧
    files w1 = files w.
Proof.
  intros (Hconv & Hchunk & Hembed). unfold compute_variant. unfold bind at 1.
  destruct (resolve_conversion_returns E self pdf_path git_path pdf_cid (converter c) w Hconv)
    as (cid & w1 & -> & Hfiles1 & Hcache).
  unfold bind at 1.
  destruct (resolve_chunks_returns E (converter c) (chunker c) w1 Hchunk Hcache)
    as (chunks & w2 & -> & Hfiles2).
  destruct (chunk_loop_returns E self git_path cid (chunker c) (embedder c) chunks w2 Hembed)
    as (w3 & -> & Hfiles3).
  exists w3. split; [done | congruence].
Qed.

(** ** What leaves the files alone *)

Lemma keeps_bind {A B} (m : M A) (k : A → M B) :
  keeps_files m → (∀ a, keeps_files (k a)) → keeps_files (bind m k).
Proof.
  intros Hm Hk w. unfold bind. specialize (Hm w).
  destruct (m w) as [[a|e] w1]; simpl in *; [|done].
  rewrite <- Hm. apply Hk.
Qed.

Lemma keeps_for_each {A} (body : A → M unit) (l : list A) :
  (∀ x, keeps_files (body x)) → keeps_files (for_each body l).
Proof.
  intros Hbody. induction l as [|x l IH]; simpl; [done|].
  apply keeps_bind; [apply Hbody | done].
Qed.

Create HintDb keeps.

Ltac keeps :=
  cbv zeta;
  repeat first
    [ apply keeps_bind; [|intros ?]
    | solve [auto with keeps]
    | (intros ?; reflexivity)
    | match goal with
      | |- keeps_files (match ?x with _ => _ end) => destruct x
      end ].

Lemma keeps_write_to_file E content path : keeps_files (write_to_file E content path).
Proof. unfold write_to_file. keeps. Qed.

Lemma keeps_lighthouse_and_commit E object git_path :
  keeps_files (lighthouse_and_commit E object git_path).
Proof.
  intros w. by destruct (lighthouse_and_commit_run E object git_path w) as (? & ? & -> & _).
Qed.

Lemma keeps_find_conversion E pdf_cid converter_func :
  keeps_files (find_conversion E pdf_cid converter_func).
Proof.
  intros w. by destruct (find_conversion_returns E pdf_cid converter_func w)
    as (? & ? & -> & ? & _).
Qed.

#[local] Hint Resolve keeps_write_to_file keeps_lighthouse_and_commit
  keeps_find_conversion : keeps.

Lemma keeps_perform_conversion E self pdf_path git_path pdf_cid converter_func :
  keeps_files (perform_conversion E self pdf_path git_path pdf_cid converter_func).
Proof. unfold perform_conversion, add_ipfs_node, create_relationship. keeps. Qed.

#[local] Hint Resolve keeps_perform_conversion : keeps.

Lemma keeps_resolve_conversion E self pdf_path git_path pdf_cid converter_func :
  keeps_files (resolve_conversion E self pdf_path git_path pdf_cid converter_func).
Proof. unfold resolve_conversion. keeps. Qed.

Lemma keeps_resolve_chunks E converter_func chunker_func :
  keeps_files (resolve_chunks E converter_func chunker_func).
Proof. unfold resolve_chunks. keeps. Qed.

Lemma keeps_process_chunk E self git_path converted_cid chunker_func embedder_func chunk_i :
  keeps_files (process_chunk E self git_path converted_cid chunker_func embedder_func chunk_i).
Proof. unfold process_chunk, add_ipfs_node, create_relationship. keeps. Qed.

#[local] Hint Resolve keeps_resolve_conversion keeps_resolve_chunks
  keeps_process_chunk : keeps.

Lemma keeps_compute_variant E self pdf_path git_path pdf_cid c :
  keeps_files (compute_variant E self pdf_path git_path pdf_cid c).
Proof.
  unfold compute_variant. apply keeps_bind; [auto with keeps|]. intros cid.
  apply keeps_bind; [auto with keeps|]. intros chunks.
  apply keeps_for_each. auto with keeps.
Qed.

Lemma keeps_read_mappings path : keeps_files (read_mappings path).
Proof. intros w. by rewrite read_mappings_run. Qed.

Lemma keeps_lift {A} (o : outcome A) : keeps_files (lift o).
Proof. by intros w. Qed.

(** ** The completion record *)

(** C3, amended: a variant that is not globally complete enters the
    compute path.  Uploads, git commits, local writes and graph writes
    that fail are only logged: as long as the converter, the chunker and
    the embedder of the variant return, the chunk loop finishes, whatever
    the rest of the environment does, and it leaves every file as it
    was.  Whenever the chunk loop finishes, what is left of the variant
    is the call of [__update_mappings].  On ledger files that hold a dict
    of lists (or are missing or unparseable) that call returns, and its
    four ledger calls are the read and the write of the global ledger,
    then those of the ledger of the requester, each write carrying the
    variant; a scope records the variant when its write went through. *)
Theorem completion_recorded_after_chunk_loop (E : env) (self : Processor)
  (pdf_path git_path pdf_cid : string) (c : db_config) (w : world) :
  let g := global_mappings_path self in
  let u := user_mappings_path self in
  let V := db_combination c in
  let w0 := logged w [EReadMappings g] in
  in_mappings (loaded_at (files w) g) pdf_cid V = Ret false →
  (pluggable_functions_return E pdf_path c →
   ∃ w1, compute_variant E self pdf_path git_path pdf_cid c w0 = (Ret tt, w1)) ∧
  (∀ w1,
     compute_variant E self pdf_path git_path pdf_cid c w0 = (Ret tt, w1) →
     files w1 = files w ∧
     process_variant E self pdf_path git_path pdf_cid c w =
       update_mappings E self pdf_cid V w1 ∧
     (well_typed_at (files w) g → well_typed_at (files w) u →
      ∃ w',
        process_variant E self pdf_path git_path pdf_cid c w = (Ret tt, w') ∧
        log w' = log w1 ++
          [EReadMappings g;
           EWriteMappings g (Mapping (global_written self pdf_cid V w1))
                          (global_ok E self w1);
           EReadMappings u;
           EWriteMappings u (Mapping (user_written E self pdf_cid V w1))
                          (user_ok E self pdf_cid V w1)] ∧
        files w' = files_after_user E self pdf_cid V w1 ∧
        is_complete (global_written self pdf_cid V w1) pdf_cid V = true ∧
        is_complete (user_written E self pdf_cid V w1) pdf_cid V = true ∧
        (global_ok E self w1 = true →
         g ≠ u ∨ user_ok E self pdf_cid V w1 = true ∨
         user_torn E self pdf_cid V w1 = false →
         is_complete (ledger_at (files w') g) pdf_cid V = true) ∧
        (user_ok E self pdf_cid V w1 = true →
         is_complete (ledger_at (files w') u) pdf_cid V = true))).
Proof.
  intros g u V w0 Hnew. split.
  - intros Hret.
    destruct (compute_variant_returns E self pdf_path git_path pdf_cid c w0 Hret)
      as (w1 & Hcompute & _).
    by exists w1.
  - intros w1 Hcompute.
    assert (files w1 = files w) as Hfiles.
    { pose proof (keeps_compute_variant E self pdf_path git_path pdf_cid c w0) as Hkeep.
      by rewrite Hcompute in Hkeep. }
    assert (process_variant E self pdf_path git_path pdf_cid c w =
            update_mappings E self pdf_cid V w1) as Hcall.
    { unfold process_variant. unfold bind at 1. rewrite read_mappings_run. cbv beta iota.
      unfold bind at 1. unfold lift at 1. fold g V. rewrite Hnew. cbv beta iota.
      unfold bind at 1. fold w0. by rewrite Hcompute. }
    split; [done|]. split; [done|].
    intros Hg Hu.
    exists (World (files_after_user E self pdf_cid V w1) (convert_cache w1)
                  (chunk_cache w1) (log w1 ++ update_events E self pdf_cid V w1)).
    split_and!.
    + rewrite Hcall. apply update_mappings_run; by rewrite Hfiles.
    + done.
    + done.
    + apply add_combination_complete.
    + apply add_combination_complete.
    + apply global_complete_after.
    + apply user_complete_after.
Qed.

Lemma offline_functions_return :
  pluggable_functions_return offline_env "doc.pdf" (DbConfig "marker" "paragraph" "openai").
Proof. split_and!; intros; reflexivity. Qed.

Lemma completion_recorded_after_chunk_loop_witness :
  pluggable_functions_return offline_env "doc.pdf" (DbConfig "marker" "paragraph" "openai") ∧
  in_mappings (loaded_at (files empty_world) (global_mappings_path alice)) "QmDoc"
              (db_combination (DbConfig "marker" "paragraph" "openai")) = Ret false ∧
  well_typed_at (files empty_world) (global_mappings_path alice) ∧
  well_typed_at (files empty_world) (user_mappings_path alice) ∧
  ∃ w1 w',
    compute_variant offline_env alice "doc.pdf" "git" "QmDoc"
      (DbConfig "marker" "paragraph" "openai")
      (logged empty_world [EReadMappings (global_mappings_path alice)]) = (Ret tt, w1) ∧
    process_variant offline_env alice "doc.pdf" "git" "QmDoc"
                    (DbConfig "marker" "paragraph" "openai") empty_world = (Ret tt, w') ∧
    List.filter is_mapping_write (log w') =
      [EWriteMappings (global_mappings_path alice)
         (Mapping {[ "QmDoc" := ["marker_paragraph_openai"] ]}) false;
       EWriteMappings (user_mappings_path alice)
         (Mapping {[ "QmDoc" := ["marker_paragraph_openai"] ]}) false].
Proof.
  pose proof offline_functions_return as Hret.
  assert (in_mappings (loaded_at (files empty_world) (global_mappings_path alice)) "QmDoc"
            (db_combination (DbConfig "marker" "paragraph" "openai")) = Ret false) as Hnew
    by (vm_compute; reflexivity).
  assert (well_typed_at (files empty_world) (global_mappings_path alice)) as Hg
    by (intros j; vm_compute; discriminate).
  assert (well_typed_at (files empty_world) (user_mappings_path alice)) as Hu
    by (intros j; vm_compute; discriminate).
  split; [exact Hret|]. split; [exact Hnew|]. split; [exact Hg|]. split; [exact Hu|].
  destruct (completion_recorded_after_chunk_loop offline_env alice "doc.pdf" "git" "QmDoc"
              (DbConfig "marker" "paragraph" "openai") empty_world Hnew)
    as (Hfinishes & Hrecorded).
  destruct (Hfinishes Hret) as (w1 & Hcompute).
  destruct (Hrecorded w1 Hcompute) as (_ & _ & Hreturns).
  destruct (Hreturns Hg Hu) as (w' & Hrun & _).
  exists w1, w'. split; [exact Hcompute|]. split; [exact Hrun|].
  assert (w' = (process_variant offline_env alice "doc.pdf" "git" "QmDoc"
                  (DbConfig "marker" "paragraph" "openai") empty_world).2) as ->
    by (by rewrite Hrun).
  vm_compute. reflexivity.
Defined.

(** C3, as stated, fails: the global ledger parses to the empty JSON
    array; the variant is not globally complete and enters the compute
    path, the chunk loop finishes, and [__update_mappings] raises on the
    item assignment of its first cycle: no ledger is written, the scope
    of the requester is not reached. *)
Lemma completion_not_recorded_on_ill_typed_ledger :
  in_mappings (loaded_at (files ill_typed_world) (global_mappings_path alice)) "QmDoc"
              (db_combination (DbConfig "marker" "paragraph" "openai")) = Ret false ∧
  (compute_variant ok_env alice "doc.pdf" "git" "QmDoc"
     (DbConfig "marker" "paragraph" "openai")
     (logged ill_typed_world [EReadMappings (global_mappings_path alice)])).1 = Ret tt ∧
  (process_variant ok_env alice "doc.pdf" "git" "QmDoc"
     (DbConfig "marker" "paragraph" "openai") ill_typed_world).1 =
    Raise (TypeError "list indices must be integers or slices, not str") ∧
  List.filter is_mapping_write
    (log (process_variant ok_env alice "doc.pdf" "git" "QmDoc"
            (DbConfig "marker" "paragraph" "openai") ill_typed_world).2) = [] ∧
  List.filter is_ledger_event
    (log (process_variant ok_env alice "doc.pdf" "git" "QmDoc"
            (DbConfig "marker" "paragraph" "openai") ill_typed_world).2) =
    [EReadMappings (global_mappings_path alice);
     EReadMappings (global_mappings_path alice)] ∧
  files (process_variant ok_env alice "doc.pdf" "git" "QmDoc"
           (DbConfig "marker" "paragraph" "openai") ill_typed_world).2 =
    files ill_typed_world.
Proof. split_and!; vm_compute; reflexivity. Qed.

Lemma filter_convert_upload_steps l evs :
  Forall (λ e, is_upload_step e = true) evs →
  List.filter is_convert (l ++ evs) = List.filter is_convert l.
Proof.
  intros Hevs. rewrite List.filter_app.
  replace (List.filter is_convert evs) with (@nil event); [by rewrite app_nil_r|].
  induction Hevs as [|e evs He _ IH]; [done|].
  simpl. rewrite <- IH. by destruct e.
Qed.

Lemma perform_conversion_run E self pdf_path git_path pdf_cid converter_func w :
  let tmp := tmp_file_path self in
  match convert_cache w !! converter_func with
  | Some cached =>
      ∃ cid w2,
        lighthouse_and_commit E tmp git_path
          (logged w [EWriteFile tmp cached (file_written E (log w) tmp)]) = (Ret cid, w2) ∧
        perform_conversion E self pdf_path git_path pdf_cid converter_func w =
          (Ret cid, logged w2 (conversion_links self pdf_cid converter_func cid)) ∧
        List.filter is_convert (log w2) = List.filter is_convert (log w) ∧
        convert_cache w2 = convert_cache w
  | None =>
      match convert E (log w) converter_func pdf_path with
      | Ret converted =>
          ∃ cid w2,
            lighthouse_and_commit E tmp git_path
              (World (files w) (<[converter_func := converted]> (convert_cache w))
                 (chunk_cache w)
                 (log w ++ [EConvert converter_func pdf_path;
                            EWriteFile tmp converted
                              (file_written E (log w ++ [EConvert converter_func pdf_path])
                                            tmp)])) = (Ret cid, w2) ∧
            perform_conversion E self pdf_path git_path pdf_cid converter_func w =
              (Ret cid, logged w2 (conversion_links self pdf_cid converter_func cid)) ∧
            List.filter is_convert (log w2) =
              List.filter is_convert (log w) ++ [EConvert converter_func pdf_path] ∧
            convert_cache w2 = <[converter_func := converted]> (convert_cache w)
      | Raise e =>
          perform_conversion E self pdf_path git_path pdf_cid converter_func w =
            (Raise e, logged w [EConvert converter_func pdf_path])
      end
  end.
Proof.
  intros tmp. unfold perform_conversion.
  unfold bind at 1. unfold get_convert_cache at 1. cbv beta iota.
  destruct (convert_cache w !! converter_func) as [cached|] eqn:Hcache.
  - unfold_proc. simpl. rewrite ?Hcache. simpl. fold tmp.
    match goal with |- context [lighthouse_and_commit E ?o ?g ?w0] =>
      destruct (lighthouse_and_commit_run E o g w0) as (cid & evs & Hup & Hevs);
      exists cid, (logged w0 evs) end.
    rewrite Hup. simpl. split_and!; try done.
    + unfold conversion_links. by rewrite <- !app_assoc.
    + rewrite filter_convert_upload_steps by done.
      rewrite List.filter_app. simpl. by rewrite app_nil_r.
  - unfold_proc. simpl. rewrite ?Hcache. simpl. fold tmp.
    destruct (convert E (log w) converter_func pdf_path) as [converted|e]; simpl; [|done].
    rewrite <- !app_assoc. simpl.
    match goal with |- context [lighthouse_and_commit E ?o ?g ?w0] =>
      destruct (lighthouse_and_commit_run E o g w0) as (cid & evs & Hup & Hevs);
      exists cid, (logged w0 evs) end.
    rewrite Hup. simpl. split_and!; try done.
    + unfold conversion_links. by rewrite <- !app_assoc.
    + rewrite filter_convert_upload_steps by done.
      rewrite List.filter_app. simpl. done.
Qed.

(** C2, amended: when no usable conversion comes back from the graph (no
    CONVERTED_BY edge, or its content cannot be fetched), or when the
    convert cache has no entry for the converter after that lookup, the
    converted text is written out, uploaded, registered as a node and
    linked (CONVERTED_BY_<converter>, then AUTHORED_BY).  The converter
    itself is invoked, and its result cached, only when the convert cache
    has no entry for it; with an entry (left by an earlier variant of the
    run) the cached text is uploaded and linked and the converter is not
    called.  When the converter raises, the exception leaves the step and
    nothing is uploaded or linked. *)
Theorem conversion_step (E : env) (self : Processor)
  (pdf_path git_path pdf_cid converter_func : string) (w : world) :
  let edge := graph_edge E pdf_cid converter_func w in
  let text := fetched E pdf_cid converter_func w in
  let tmp := tmp_file_path self in
  ∃ found w1,
    find_conversion E pdf_cid converter_func w = (Ret found, w1) ∧
    truthy found = truthy edge && truthy text ∧
    List.filter is_convert (log w1) = List.filter is_convert (log w) ∧
    (truthy found = false ∨ convert_cache w1 !! converter_func = None →
     match convert_cache w1 !! converter_func with
     | Some cached =>
         ∃ cid w2,
           lighthouse_and_commit E tmp git_path
             (logged w1 [EWriteFile tmp cached (file_written E (log w1) tmp)]) =
             (Ret cid, w2) ∧
           resolve_conversion E self pdf_path git_path pdf_cid converter_func w =
             (Ret cid, logged w2 (conversion_links self pdf_cid converter_func cid)) ∧
           List.filter is_convert (log w2 ++ conversion_links self pdf_cid converter_func cid)
             = List.filter is_convert (log w)
     | None =>
         match convert E (log w1) converter_func pdf_path with
         | Ret converted =>
             ∃ cid w2,
               lighthouse_and_commit E tmp git_path
                 (World (files w1) (<[converter_func := converted]> (convert_cache w1))
                    (chunk_cache w1)
                    (log w1 ++ [EConvert converter_func pdf_path;
                                EWriteFile tmp converted
                                  (file_written E
                                     (log w1 ++ [EConvert converter_func pdf_path]) tmp)]))
                 = (Ret cid, w2) ∧
               resolve_conversion E self pdf_path git_path pdf_cid converter_func w =
                 (Ret cid, logged w2 (conversion_links self pdf_cid converter_func cid)) ∧
               List.filter is_convert
                 (log w2 ++ conversion_links self pdf_cid converter_func cid) =
                 List.filter is_convert (log w) ++ [EConvert converter_func pdf_path] ∧
               convert_cache w2 !! converter_func = Some converted
         | Raise e =>
             resolve_conversion E self pdf_path git_path pdf_cid converter_func w =
               (Raise e, logged w1 [EConvert converter_func pdf_path])
         end
     end).
Proof.
  intros edge text tmp.
  pose proof (find_conversion_run E pdf_cid converter_func w) as Hfind.
  cbv zeta in Hfind. fold edge text in Hfind.
  assert (∃ found w1,
            find_conversion E pdf_cid converter_func w = (Ret found, w1) ∧
            truthy found = truthy edge && truthy text ∧
            List.filter is_convert (log w1) = List.filter is_convert (log w))
    as (found & w1 & Hrun & Hfound & Hlog).
  { rewrite Hfind. destruct (truthy edge) eqn:Hedge; [destruct (truthy text) eqn:Htext|];
      eexists _, _; (split; [reflexivity|]); simpl;
      rewrite ?Hedge, ?List.filter_app; simpl; by rewrite ?app_nil_r. }
  exists found, w1. split_and!; try done.
  intros Hneeded.
  assert (resolve_conversion E self pdf_path git_path pdf_cid converter_func w =
          perform_conversion E self pdf_path git_path pdf_cid converter_func w1) as Hresolve.
  { unfold resolve_conversion. unfold bind at 1. rewrite Hrun.
    unfold bind at 1. unfold get_convert_cache at 1. cbv beta iota.
    destruct Hneeded as [-> | ->]; [done|].
    by rewrite bool_decide_eq_true_2, orb_true_r. }
  rewrite Hresolve.
  pose proof (perform_conversion_run E self pdf_path git_path pdf_cid converter_func w1)
    as Hperform.
  cbv zeta in Hperform. fold tmp in Hperform.
  destruct (convert_cache w1 !! converter_func) as [cached|].
  - destruct Hperform as (cid & w2 & Hup & Hperform & Hquiet & _).
    exists cid, w2. split_and!; try done.
    rewrite List.filter_app. simpl. rewrite app_nil_r. congruence.
  - destruct (convert E (log w1) converter_func pdf_path) as [converted|e]; [|done].
    destruct Hperform as (cid & w2 & Hup & Hperform & Hcalled & Hcache).
    exists cid, w2. split_and!; try done.
    + rewrite List.filter_app. simpl. rewrite app_nil_r. congruence.
    + rewrite Hcache. apply lookup_insert_eq.
Qed.

Lemma conversion_step_witness :
  (truthy None = false ∨ convert_cache empty_world !! "marker" = None) ∧
  ∃ cid w',
    resolve_conversion ok_env alice "doc.pdf" "git" "QmDoc" "marker" empty_world =
      (Ret cid, w') ∧
    List.filter is_convert (log w') = [EConvert "marker" "doc.pdf"].
Proof.
  assert (truthy None = false ∨ convert_cache empty_world !! "marker" = None) as Hneeded
    by (left; reflexivity).
  split; [exact Hneeded|].
  destruct (conversion_step ok_env alice "doc.pdf" "git" "QmDoc" "marker" empty_world)
    as (found & w1 & Hfind & _ & _ & Hstep).
  assert (found = None ∧ w1 = logged empty_world [EFindConversion "QmDoc" "marker" None])
    as [-> ->].
  { assert (find_conversion ok_env "QmDoc" "marker" empty_world =
            (Ret None, logged empty_world [EFindConversion "QmDoc" "marker" None])) as Hrun
      by (vm_compute; reflexivity).
    rewrite Hrun in Hfind. by simplify_eq. }
  specialize (Hstep Hneeded).
  assert (convert_cache (logged empty_world [EFindConversion "QmDoc" "marker" None])
            !! "marker" = None) as Hmiss by (vm_compute; reflexivity).
  rewrite Hmiss in Hstep.
  assert (convert ok_env (log (logged empty_world [EFindConversion "QmDoc" "marker" None]))
            "marker" "doc.pdf" = Ret "marker text") as Hconv by (vm_compute; reflexivity).
  rewrite Hconv in Hstep.
  destruct Hstep as (cid & w2 & _ & Hrun & Hcalled & _).
  exists cid, (logged w2 (conversion_links alice "QmDoc" "marker" cid)).
  split; [exact Hrun|]. exact Hcalled.
Defined.

(** C2, as stated, fails: two variants with the same converter in one
    run.  The first finds no edge and converts.  The second finds the
    edge, the fetch of its content fails, and the converter is not
    invoked again: the cached text is uploaded and linked. *)
Lemma converter_not_invoked_when_refetch_fails :
  List.filter is_conversion_lookup
    (log (process refetch_fails_env alice "doc.pdf"
            [DbConfig "marker" "paragraph" "openai"; DbConfig "marker" "sentence" "openai"]
            "git" empty_world).2) =
  [EFindConversion "Qm-doc.pdf" "marker" None;
   EConvert "marker" "doc.pdf";
   EFindConversion "Qm-doc.pdf" "marker" (Some "Qm-marker text");
   EFetchContent "Qm-marker text" None].
Proof. vm_compute. reflexivity. Qed.

(** ** Monotonicity of the ledgers *)

#[local] Instance ledgers_grow_preorder : PreOrder ledgers_grow.
Proof.
  split.
  - intros fs path pdf_cid. done.
  - intros fs1 fs2 fs3 H12 H23 path pdf_cid.
    trans (recorded fs2 path pdf_cid); [apply H12 | apply H23].
Qed.














(** ** The chunk cache *)

Lemma underscore_cons (k : string) : ∃ a, "_" = String a "" ∧ "_" +:+ k = String a k.
Proof. eexists. split; reflexivity. Qed.

Lemma chunk_cache_key_inj c1 k1 c2 k2 :
  no_underscore c1 = true → no_underscore c2 = true →
  chunk_cache_key c1 k1 = chunk_cache_key c2 k2 → c1 = c2 ∧ k1 = k2.
Proof.
  unfold chunk_cache_key. revert c2.
  induction c1 as [|a c1 IH]; intros [|b c2] H1 H2 Heq.
  - rewrite !string_app_nil in Heq. split; [done|]. by apply (inj (String.app "_")) in Heq.
  - destruct (underscore_cons k1) as (x & Hx & Hk).
    rewrite string_app_nil, Hk, (string_app_cons b c2) in Heq. by simplify_eq.
  - destruct (underscore_cons k2) as (x & Hx & Hk).
    rewrite string_app_nil, Hk, (string_app_cons a c1) in Heq. by simplify_eq.
  - rewrite (string_app_cons a c1), (string_app_cons b c2) in Heq. simplify_eq.
    simpl in H1, H2. apply andb_true_iff in H1 as [_ H1]. apply andb_true_iff in H2 as [_ H2].
    destruct (IH c2 H1 H2) as [-> ->]; done.
Qed.




(** ** The converter registry *)

(** C9: [convert] looks the conversion type up in a dictionary of three
    entries and calls what it finds: any name other than marker, openai
    and markitdown raises [KeyError] (no result, no empty string), and
    each of the three names dispatches to its function. *)
Theorem convert_closed_registry (marker openai markitdown : Converter.ConverterFunc)
  (conversion_type input_path : string) :
  (conversion_type ≠ "marker" → conversion_type ≠ "openai" →
   conversion_type ≠ "markitdown" →
   Converter.convert marker openai markitdown conversion_type input_path =
     Raise (KeyError conversion_type)) ∧
  Converter.convert marker openai markitdown "marker" input_path = marker input_path ∧
  Converter.convert marker openai markitdown "openai" input_path = openai input_path ∧
  Converter.convert marker openai markitdown "markitdown" input_path =
    markitdown input_path.
Proof.
  unfold Converter.convert, Converter.conversion_methods. split_and!.
  - intros H1 H2 H3. by rewrite !lookup_insert_ne, lookup_empty.
  - by rewrite lookup_insert_eq.
  - rewrite lookup_insert_ne by done. by rewrite lookup_insert_eq.
  - rewrite !lookup_insert_ne by done. by rewrite lookup_insert_eq.
Qed.

Lemma convert_closed_registry_witness :
  "pypdf" ≠ "marker" ∧ "pypdf" ≠ "openai" ∧ "pypdf" ≠ "markitdown" ∧
  registry_convert "pypdf" "doc.pdf" = Raise (KeyError "pypdf").
Proof.
  assert ("pypdf" ≠ "marker") as H1 by discriminate.
  assert ("pypdf" ≠ "openai") as H2 by discriminate.
  assert ("pypdf" ≠ "markitdown") as H3 by discriminate.
  split_and!; [exact H1 | exact H2 | exact H3 |].
  exact (proj1 (convert_closed_registry (λ _, Ret "marker text") (λ _, Ret "openai text")
                  (λ _, Ret "markitdown text") "pypdf" "doc.pdf") H1 H2 H3).
Defined.

(** ** The vector database manager *)

(** C10: [batch_insert_documents] validates before it inserts.  An
    unknown database name raises [ValueError]; lists of different
    lengths raise [ValueError]; an empty list of embeddings returns at
    once.  In each of these cases the manager and its collections are
    what they were. *)
Theorem batch_insert_validates {embedding : Type}
  (collection_add : list (@Chroma.entry embedding) → list (@Chroma.entry embedding) →
                    option (list (@Chroma.entry embedding)))
  (self : @Chroma.VectorDatabaseManager embedding) (db_name : string)
  (embeddings : list embedding) (metadatas : list (gmap string string))
  (doc_ids : list string) :
  let result :=
    Chroma.batch_insert_documents collection_add self db_name embeddings metadatas doc_ids in
  (db_name ∉ Chroma.db_names self →
   result = (Raise (ValueError ("Database '" +:+ db_name +:+ "' does not exist.")), self)) ∧
  (¬ (length embeddings = length metadatas ∧ length metadatas = length doc_ids) →
   (∃ msg, result = (Raise (ValueError msg), self)) ∧
   (db_name ∈ Chroma.db_names self →
    result = (Raise (ValueError "All input lists must have the same length."), self))) ∧
  (embeddings = [] →
   result.2 = self ∧
   (db_name ∈ Chroma.db_names self → metadatas = [] → doc_ids = [] →
    result = (Ret tt, self))).
Proof.
  intros result. subst result. unfold Chroma.batch_insert_documents. split_and!.
  - intros Hname. by rewrite bool_decide_eq_false_2.
  - intros Hlen. case_bool_decide as Hname; simpl.
    + assert (bool_decide (length embeddings = length metadatas) &&
              bool_decide (length metadatas = length doc_ids) = false) as ->.
      { apply andb_false_iff.
        destruct (decide (length embeddings = length metadatas)) as [He|He].
        - right. apply bool_decide_eq_false_2. intros Hm. by apply Hlen.
        - left. by apply bool_decide_eq_false_2. }
      simpl. split; [by eexists | done].
    + split; [by eexists | done].
  - intros ->. split.
    + case_bool_decide; simpl; [|done].
      by destruct (bool_decide _ && bool_decide _).
    + intros Hname -> ->. by rewrite bool_decide_eq_true_2.
Qed.

Lemma batch_insert_validates_witness :
  ("openai_sentence_bge" ∉ Chroma.db_names demo_manager) ∧
  ¬ (length [1; 2] = length [(∅ : gmap string string)] ∧
     length [(∅ : gmap string string)] = length ["id-1"]) ∧
  Chroma.batch_insert_documents demo_add demo_manager "openai_sentence_bge" [1; 2] [∅] ["id-1"]
    = (Raise (ValueError "Database 'openai_sentence_bge' does not exist."), demo_manager) ∧
  Chroma.batch_insert_documents demo_add demo_manager "marker_paragraph_openai" [1; 2] [∅]
    ["id-1"]
    = (Raise (ValueError "All input lists must have the same length."), demo_manager) ∧
  Chroma.batch_insert_documents demo_add demo_manager "marker_paragraph_openai" [] [] []
    = (Ret tt, demo_manager).
Proof.
  assert ("openai_sentence_bge" ∉ Chroma.db_names demo_manager) as Hname.
  { simpl. intros Hin. apply list_elem_of_singleton in Hin. discriminate. }
  assert ("marker_paragraph_openai" ∈ Chroma.db_names demo_manager) as Hin.
  { simpl. by apply list_elem_of_singleton. }
  assert (¬ (length [1; 2] = length [(∅ : gmap string string)] ∧
             length [(∅ : gmap string string)] = length ["id-1"])) as Hlen.
  { simpl. intros [Habs _]. discriminate. }
  split; [exact Hname|]. split; [exact Hlen|]. split_and!.
  - exact (proj1 (batch_insert_validates demo_add demo_manager "openai_sentence_bge"
                    [1; 2] [∅] ["id-1"]) Hname).
  - exact (proj2 (proj1 (proj2 (batch_insert_validates demo_add demo_manager
                    "marker_paragraph_openai" [1; 2] [∅] ["id-1"])) Hlen) Hin).
  - exact (proj2 (proj2 (proj2 (batch_insert_validates demo_add demo_manager
                    "marker_paragraph_openai" [] [] [])) eq_refl) Hin eq_refl eq_refl).
Defined.

(** * Further properties of the processor *)

(** ** [__lighthouse_and_commit] *)

(** X1: [__lighthouse_and_commit] never raises, and it returns the CID of
    the upload exactly when the upload, [git add] and [git commit] all
    went through; in every other case it returns the empty string, also
    when the content was uploaded.  After a failed upload nothing else is
    tried, after a failed [git add] no commit is tried, and the outcome
    of the pointer file plays no part. *)
Theorem lighthouse_and_commit_outcome (E : env) (object git_path : string) (w : world) :
  ∃ cid evs,
    lighthouse_and_commit E object git_path w = (Ret cid, logged w evs) ∧
    match upload_text_to_lighthouse E (log w) object with
    | None => evs = [EUpload object None] ∧ cid = ""
    | Some ipfs_cid =>
        ∃ pointer_ok added,
          let first :=
            [EUpload object (Some ipfs_cid);
             EPointerFile git_path (hash_value_of E ipfs_cid) ipfs_cid pointer_ok;
             EGit "add" git_path (hash_value_of E ipfs_cid) added] in
          if added then
            ∃ committed,
              evs = first ++ [EGit "commit" git_path (hash_value_of E ipfs_cid) committed] ∧
              cid = (if committed then ipfs_cid else "")
          else evs = first ∧ cid = ""
    end.
Proof.
  unfold lighthouse_and_commit. unfold_proc. simpl.
  destruct (upload_text_to_lighthouse E (log w) object) as [ipfs_cid|]; simpl.
  - destruct (git_ok E _ "add") eqn:Hadd; simpl.
    + destruct (git_ok E _ "commit") eqn:Hcommit; simpl;
        (eexists _, _; split; [rewrite <- ?app_assoc; simpl; reflexivity|];
         eexists _, true; simpl; eexists; split; reflexivity).
    + eexists _, _; split; [rewrite <- ?app_assoc; simpl; reflexivity|].
      eexists _, false; simpl. split; reflexivity.
  - eexists _, _. split; [reflexivity|]. split; reflexivity.
Qed.

(** ** Ledger files *)







(** ** Invariants of the ledger files over [process] *)

Lemma preserves_keeps {A} P (m : M A) : keeps_files m → preserves P m.
Proof. intros Hm w HP. by rewrite Hm. Qed.

Lemma preserves_bind {A B} P (m : M A) (k : A → M B) :
  preserves P m → (∀ a, preserves P (k a)) → preserves P (bind m k).
Proof.
  intros Hm Hk w HP. unfold bind. specialize (Hm w HP).
  destruct (m w) as [[a|e] w1]; simpl in *; [|done]. by apply Hk.
Qed.

Lemma preserves_for_each {A} P (body : A → M unit) (l : list A) :
  (∀ x, preserves P (body x)) → preserves P (for_each body l).
Proof.
  intros Hbody. induction l as [|x l IH]; simpl.
  - by intros w.
  - apply preserves_bind; [apply Hbody | done].
Qed.

(** Whatever one read-modify-write cycle on the two ledgers of a
    processor keeps, [process] keeps. *)
Lemma process_invariant (P : gmap string file → Prop) (self : Processor) :
  (∀ fs path content,
     path = global_mappings_path self ∨ path = user_mappings_path self →
     cycle_content fs path content →
     P fs → P (<[path := content]> fs)) →
  ∀ E pdf_path databases git_path,
    preserves P (process E self pdf_path databases git_path).
Proof.
  intros Hcycle E pdf_path databases git_path.
  assert (∀ path pdf_cid combination,
            path = global_mappings_path self ∨ path = user_mappings_path self →
            preserves P (update_cycle E path pdf_cid combination)) as Hone.
  { intros path pdf_cid combination Hpath w HP. rewrite update_cycle_run.
    destruct (add_to_mappings pdf_cid combination (loaded_at (files w) path))
      as [v|e] eqn:Hadd; [|done].
    cbn [snd files]. unfold write_effect.
    destruct (file_written E _ path).
    - apply Hcycle; [done| |done]. right. by exists pdf_cid, combination, v.
    - destruct (ledger_torn E _ path); [|done].
      apply Hcycle; [done | by left | done]. }
  assert (∀ pdf_cid combination, preserves P (update_mappings E self pdf_cid combination))
    as Hupdate.
  { intros pdf_cid combination w HP. rewrite update_mappings_cycles.
    apply (preserves_bind P); [apply Hone; by left | intros _; apply Hone; by right | done]. }
  unfold process, get_metadata_for_doc, add_ipfs_node, create_relationship. cbv zeta.
  apply preserves_bind; [apply preserves_keeps; keeps|]. intros _.
  apply preserves_bind; [apply preserves_keeps; keeps|]. intros _.
  apply preserves_bind; [apply preserves_keeps; keeps|]. intros found.
  apply preserves_bind; [apply preserves_keeps; keeps|]. intros pdf_ipfs_cid.
  case_bool_decide; [apply preserves_keeps; keeps|].
  apply preserves_bind; [apply preserves_keeps; keeps|]. intros _.
  apply preserves_bind; [apply preserves_keeps; keeps|]. intros _.
  apply preserves_for_each. intros c. unfold process_variant.
  apply preserves_bind; [apply preserves_keeps, keeps_read_mappings|]. intros m.
  apply preserves_bind; [apply preserves_keeps, keeps_lift|]. intros [|]; [apply Hupdate|].
  apply preserves_bind; [apply preserves_keeps, keeps_compute_variant|]. intros _.
  apply Hupdate.
Qed.






(** X5: [process] writes no file but the two ledgers of its own
    processor: every other path, the ledger of another user included,
    holds after the call what it held before, whatever the call did. *)
Theorem process_leaves_other_files (E : env) (self : Processor) (pdf_path : string)
  (databases : list db_config) (git_path : string) (w : world) (path : string) :
  path ≠ global_mappings_path self →
  path ≠ user_mappings_path self →
  files (process E self pdf_path databases git_path w).2 !! path = files w !! path.
Proof.
  intros Hg Hu.
  apply (process_invariant (λ fs, fs !! path = files w !! path) self); [|done].
  intros fs p content [-> | ->] _ Hfs; by rewrite lookup_insert_ne.
Qed.

Lemma process_leaves_other_files_witness :
  "temp/bob@example.org/mappings.json" ≠ global_mappings_path alice ∧
  "temp/bob@example.org/mappings.json" ≠ user_mappings_path alice ∧
  files (process ok_env alice "doc.pdf" [DbConfig "marker" "paragraph" "openai"] "git"
           garbled_world).2 !! "temp/bob@example.org/mappings.json" =
  files garbled_world !! "temp/bob@example.org/mappings.json".
Proof.
  assert ("temp/bob@example.org/mappings.json" ≠ global_mappings_path alice) as Hg
    by (vm_compute; discriminate).
  assert ("temp/bob@example.org/mappings.json" ≠ user_mappings_path alice) as Hu
    by (vm_compute; discriminate).
  split; [exact Hg|]. split; [exact Hu|].
  exact (process_leaves_other_files ok_env alice "doc.pdf"
           [DbConfig "marker" "paragraph" "openai"] "git" garbled_world
           "temp/bob@example.org/mappings.json" Hg Hu).
Defined.

(** ** [process] as a whole *)

Lemma process_run E self pdf_path databases git_path w lines found cid w_up :
  metadata_lines E = Some lines →
  scan_metadata (doc_id_of E pdf_path) lines = Ret found →
  lighthouse_and_commit E pdf_path git_path (World (files w) ∅ ∅ (log w)) = (Ret cid, w_up) →
  cid ≠ "" →
  process E self pdf_path databases git_path w =
  for_each (process_variant E self pdf_path git_path cid) databases
    (logged w_up [EAddNode cid; ERelationship cid (author_cid self) "AUTHORED_BY"]).
Proof.
  intros Hmeta Hfound Hup Hcid.
  unfold process, get_metadata_for_doc. rewrite Hmeta, Hfound.
  unfold bind at 1. unfold set_convert_cache at 1. cbv beta iota.
  unfold bind at 1. unfold set_chunk_cache at 1. cbv beta iota.
  unfold bind at 1. unfold lift at 1. cbv beta iota.
  unfold bind at 1. cbn [files convert_cache chunk_cache log].
  rewrite Hup. cbv beta iota. rewrite bool_decide_eq_false_2 by done.
  unfold add_ipfs_node, create_relationship.
  unfold bind at 1. unfold emit at 1. cbv beta iota.
  unfold bind at 1. unfold emit at 1. cbv beta iota.
  unfold logged. cbn [files convert_cache chunk_cache log].
  by rewrite <- app_assoc.
Qed.






(** X7: a converter that raises ends the whole call.  When the metadata
    lookup returns, a variant is not globally complete (the check on the
    global ledger answers no), the graph holds no conversion for its
    converter and the converter raises (as [convert] does for a name
    outside its registry), [process] raises that exception right after
    the call of the converter: nothing is uploaded for the variant, no
    ledger is read or written for it, and the variants that follow in
    the list are never looked at. *)
Theorem converter_exception_aborts_process (E : env) (self : Processor)
  (pdf_path : string) (c : db_config) (rest : list db_config) (git_path : string)
  (w : world) (lines : list line) (found : gmap string mvalue) (cid : string)
  (w_up : world) (e : exn) :
  metadata_lines E = Some lines →
  scan_metadata (doc_id_of E pdf_path) lines = Ret found →
  lighthouse_and_commit E pdf_path git_path (World (files w) ∅ ∅ (log w)) = (Ret cid, w_up) →
  cid ≠ "" →
  in_mappings (loaded_at (files w) (global_mappings_path self)) cid (db_combination c)
    = Ret false →
  (∀ h, truthy (get_converted_markdown_cid E h cid (converter c)) = false) →
  (∀ h, convert E h (converter c) pdf_path = Raise e) →
  ∃ edge,
    process E self pdf_path (c :: rest) git_path w =
      (Raise e,
       logged w_up [EAddNode cid; ERelationship cid (author_cid self) "AUTHORED_BY";
                    EReadMappings (global_mappings_path self);
                    EFindConversion cid (converter c) edge;
                    EConvert (converter c) pdf_path]) ∧
    files w_up = files w.
Proof.
  intros Hmeta Hfound Hup Hcid Hnew Hedge Hraise.
  rewrite (process_run _ _ _ _ _ _ _ _ _ _ Hmeta Hfound Hup Hcid).
  destruct (lighthouse_and_commit_run E pdf_path git_path (World (files w) ∅ ∅ (log w)))
    as (cid' & evs & Hrun & _).
  rewrite Hup in Hrun. simplify_eq.
  set (w2 := logged (logged _ evs) _).
  set (w3 := logged w2 [EReadMappings (global_mappings_path self)]).
  exists (graph_edge E cid' (converter c) w3). split; [|done].
  cbn [for_each]. unfold bind at 1. unfold process_variant. unfold bind at 1.
  rewrite read_mappings_run. cbv beta iota. fold w3.
  unfold bind at 1. unfold lift at 1.
  replace (loaded_at (files w2) (global_mappings_path self))
    with (loaded_at (files w) (global_mappings_path self)) by done.
  rewrite Hnew. cbv beta iota.
  unfold bind at 1. unfold compute_variant. unfold bind at 1.
  unfold resolve_conversion. unfold bind at 1.
  rewrite find_conversion_run. cbv zeta.
  unfold graph_edge at 1. rewrite (Hedge (log w3)). cbv beta iota.
  unfold bind at 1. unfold get_convert_cache at 1. cbv beta iota.
  unfold graph_edge at 1. rewrite (Hedge (log w3)). cbn [negb orb].
  pose proof (perform_conversion_run E self pdf_path git_path cid' (converter c)
                (logged w3 [EFindConversion cid' (converter c)
                              (graph_edge E cid' (converter c) w3)])) as Hperform.
  cbv zeta in Hperform.
  assert (convert_cache (logged w3 [EFindConversion cid' (converter c)
                                      (graph_edge E cid' (converter c) w3)])
            !! converter c = None) as Hmiss by apply lookup_empty.
  rewrite Hmiss, Hraise in Hperform. rewrite Hperform. cbv beta iota.
  subst w3 w2. unfold logged. cbn [files convert_cache chunk_cache log].
  by rewrite <- !app_assoc.
Qed.

Lemma converter_exception_aborts_process_witness :
  let c := DbConfig "pypdf" "paragraph" "openai" in
  let rest := [DbConfig "marker" "paragraph" "openai"] in
  metadata_lines ok_env = Some [] ∧
  scan_metadata (doc_id_of ok_env "doc.pdf") [] = Ret ∅ ∧
  (lighthouse_and_commit ok_env "doc.pdf" "git"
     (World (files empty_world) ∅ ∅ (log empty_world))).1 = Ret "Qm-doc.pdf" ∧
  "Qm-doc.pdf" ≠ "" ∧
  in_mappings (loaded_at (files empty_world) (global_mappings_path alice)) "Qm-doc.pdf"
              (db_combination c) = Ret false ∧
  (∀ h, truthy (get_converted_markdown_cid ok_env h "Qm-doc.pdf" (converter c)) = false) ∧
  (∀ h, convert ok_env h (converter c) "doc.pdf" = Raise (KeyError "pypdf")) ∧
  (process ok_env alice "doc.pdf" (c :: rest) "git" empty_world).1 =
    Raise (KeyError "pypdf") ∧
  files (process ok_env alice "doc.pdf" (c :: rest) "git" empty_world).2 = ∅.
Proof.
  intros c rest.
  assert (metadata_lines ok_env = Some []) as Hmeta by reflexivity.
  assert ((lighthouse_and_commit ok_env "doc.pdf" "git"
             (World (files empty_world) ∅ ∅ (log empty_world))).1 = Ret "Qm-doc.pdf") as Hr
    by (vm_compute; reflexivity).
  assert ("Qm-doc.pdf" ≠ "") as Hcid by discriminate.
  assert (scan_metadata (doc_id_of ok_env "doc.pdf") [] = Ret ∅) as Hfound by reflexivity.
  assert (in_mappings (loaded_at (files empty_world) (global_mappings_path alice))
            "Qm-doc.pdf" (db_combination c) = Ret false) as Hnew
    by (vm_compute; reflexivity).
  assert (∀ h, truthy (get_converted_markdown_cid ok_env h "Qm-doc.pdf" (converter c))
               = false) as Hedge by (intros; reflexivity).
  assert (∀ h, convert ok_env h (converter c) "doc.pdf" = Raise (KeyError "pypdf"))
    as Hraise by (intros; vm_compute; reflexivity).
  destruct (lighthouse_and_commit ok_env "doc.pdf" "git"
              (World (files empty_world) ∅ ∅ (log empty_world))) as [r w_up] eqn:Hup.
  simpl in Hr. subst r.
  destruct (converter_exception_aborts_process ok_env alice "doc.pdf" c rest "git"
              empty_world [] ∅ "Qm-doc.pdf" w_up (KeyError "pypdf")
              Hmeta Hfound Hup Hcid Hnew Hedge Hraise) as (edge & Hrun & Hfiles).
  split; [exact Hmeta|]. split; [exact Hfound|]. split; [reflexivity|].
  split; [exact Hcid|].
  split; [exact Hnew|]. split; [exact Hedge|]. split; [exact Hraise|].
  rewrite Hrun. split; [reflexivity | exact Hfiles].
Defined.

(** ** The ledger key of a variant *)

Lemma db_combination_key c :
  db_combination c =
  chunk_cache_key (converter c) (chunk_cache_key (chunker c) (embedder c)).
Proof. reflexivity. Qed.

(** X8: the ledger key "<converter>_<chunker>_<embedder>" tells two
    variants apart when their converter and chunker names hold no
    underscore (the embedder name may): only then two variants with the
    same key are the same variant, so that neither is skipped as
    complete on the record of the other. *)
Theorem db_combination_distinct (c1 c2 : db_config) :
  no_underscore (converter c1) = true → no_underscore (converter c2) = true →
  no_underscore (chunker c1) = true → no_underscore (chunker c2) = true →
  db_combination c1 = db_combination c2 → c1 = c2.
Proof.
  intros Hv1 Hv2 Hk1 Hk2 Heq. rewrite !db_combination_key in Heq.
  destruct (chunk_cache_key_inj _ _ _ _ Hv1 Hv2 Heq) as [Hconv Hrest].
  destruct (chunk_cache_key_inj _ _ _ _ Hk1 Hk2 Hrest) as [Hchunk Hembed].
  destruct c1, c2. simpl in *. by subst.
Qed.

Lemma db_combination_distinct_witness :
  no_underscore "marker" = true ∧ no_underscore "paragraph" = true ∧
  (db_combination (DbConfig "marker" "paragraph" "bge_large") =
   db_combination (DbConfig "marker" "paragraph" "bge_large") →
   DbConfig "marker" "paragraph" "bge_large" = DbConfig "marker" "paragraph" "bge_large").
Proof.
  assert (no_underscore "marker" = true) as Hv by reflexivity.
  assert (no_underscore "paragraph" = true) as Hk by reflexivity.
  split; [exact Hv|]. split; [exact Hk|].
  exact (db_combination_distinct (DbConfig "marker" "paragraph" "bge_large")
           (DbConfig "marker" "paragraph" "bge_large") Hv Hv Hk Hk).
Defined.

(** ** The chunk loop *)

Lemma upload_steps_filter (f : event → bool) evs :
  (∀ e, is_upload_step e = true → f e = false) →
  Forall (λ e, is_upload_step e = true) evs →
  List.filter f evs = [].
Proof.
  intros Hf Hevs. induction Hevs as [|e evs He _ IH]; [done|].
  simpl. by rewrite (Hf e He).
Qed.

Lemma lighthouse_and_commit_one_upload E object git_path w :
  ∃ cid evs,
    lighthouse_and_commit E object git_path w = (Ret cid, logged w evs) ∧
    Forall (λ e, is_upload_step e = true) evs ∧
    length (List.filter is_upload evs) = 1.
Proof.
  unfold lighthouse_and_commit. unfold_proc. simpl.
  destruct (upload_text_to_lighthouse E (log w) object) as [ipfs_cid|]; simpl.
  - destruct (git_ok E _ "add"); simpl; [destruct (git_ok E _ "commit"); simpl|];
      (eexists _, _; split_and!;
       [rewrite <- ?app_assoc; simpl; reflexivity | repeat constructor | reflexivity]).
  - eexists _, _; split_and!; [reflexivity | repeat constructor | reflexivity].
Qed.

Lemma process_chunk_counts E self git_path converted_cid chunker_func embedder_func
  chunk_i w :
  (∀ h text, returns (embed E h embedder_func text) = true) →
  ∃ w1,
    process_chunk E self git_path converted_cid chunker_func embedder_func chunk_i w =
      (Ret tt, w1) ∧
    List.filter is_embed (log w1) =
      List.filter is_embed (log w) ++ [EEmbed embedder_func chunk_i] ∧
    length (List.filter is_add_node (log w1)) =
      length (List.filter is_add_node (log w)) + 2 ∧
    length (List.filter is_relationship (log w1)) =
      length (List.filter is_relationship (log w)) + 4 ∧
    length (List.filter is_upload (log w1)) = length (List.filter is_upload (log w)) + 2.
Proof.
  intros Hret. unfold process_chunk. unfold_proc. simpl.
  match goal with |- context [lighthouse_and_commit E ?o ?g ?w0] =>
    destruct (lighthouse_and_commit_one_upload E o g w0) as (cid & evs & -> & Hevs & Hu1)
  end.
  simpl.
  match goal with |- context [embed E ?h ?e ?c] =>
    pose proof (Hret h c) as Hembed;
    destruct (embed E h e c) as [embedding|err]; [|done] end.
  simpl.
  match goal with |- context [lighthouse_and_commit E ?o ?g ?w0] =>
    destruct (lighthouse_and_commit_one_upload E o g w0) as (cid2 & evs2 & -> & Hevs2 & Hu2)
  end.
  simpl. eexists. split; [reflexivity|]. simpl.
  assert (∀ l, Forall (λ e, is_upload_step e = true) l →
               List.filter is_embed l = [] ∧ List.filter is_add_node l = [] ∧
               List.filter is_relationship l = []) as Hshape.
  { intros l Hl. split_and!; apply upload_steps_filter; try done; by intros []. }
  destruct (Hshape _ Hevs) as (He1 & Hn1 & Hr1).
  destruct (Hshape _ Hevs2) as (He2 & Hn2 & Hr2).
  rewrite !List.filter_app, !length_app. simpl.
  rewrite He1, He2, Hn1, Hn2, Hr1, Hr2, Hu1, Hu2. simpl.
  rewrite !app_nil_r. split_and!; (done || lia).
Qed.

(** X9: the chunk loop takes the chunks in the order the chunker gave
    them.  As long as the embedder returns, the loop ends normally, it
    embeds exactly the chunks of the list, each once and in order, and
    for every chunk it makes two uploads (whether they work or not), two
    node registrations and four relationships. *)
Theorem chunk_loop_in_order (E : env) (self : Processor)
  (git_path converted_cid chunker_func embedder_func : string)
  (chunks : list string) (w : world) :
  (∀ h text, returns (embed E h embedder_func text) = true) →
  ∃ w',
    for_each (process_chunk E self git_path converted_cid chunker_func embedder_func)
             chunks w = (Ret tt, w') ∧
    List.filter is_embed (log w') =
      List.filter is_embed (log w) ++ (EEmbed embedder_func <$> chunks) ∧
    length (List.filter is_add_node (log w')) =
      length (List.filter is_add_node (log w)) + 2 * length chunks ∧
    length (List.filter is_relationship (log w')) =
      length (List.filter is_relationship (log w)) + 4 * length chunks ∧
    length (List.filter is_upload (log w')) =
      length (List.filter is_upload (log w)) + 2 * length chunks.
Proof.
  intros Hret. revert w. induction chunks as [|chunk_i chunks IH]; intros w; simpl.
  - exists w. rewrite app_nil_r. split_and!; (done || lia).
  - unfold bind.
    destruct (process_chunk_counts E self git_path converted_cid chunker_func
                embedder_func chunk_i w Hret) as (w1 & -> & He & Hn & Hr & Hu).
    destruct (IH w1) as (w' & -> & He' & Hn' & Hr' & Hu').
    exists w'. split; [done|]. rewrite He', He, Hn', Hn, Hr', Hr, Hu', Hu.
    rewrite <- app_assoc. split_and!; (done || lia).
Qed.

Lemma chunk_loop_in_order_witness :
  (∀ h text, returns (embed offline_env h "openai" text) = true) ∧
  ∃ w',
    for_each (process_chunk offline_env alice "git" "QmText" "paragraph" "openai")
             ["one"; "two"; "three"] empty_world = (Ret tt, w') ∧
    List.filter is_embed (log w') =
      [EEmbed "openai" "one"; EEmbed "openai" "two"; EEmbed "openai" "three"].
Proof.
  assert (∀ h text, returns (embed offline_env h "openai" text) = true) as Hret
    by (intros; reflexivity).
  split; [exact Hret|].
  destruct (chunk_loop_in_order offline_env alice "git" "QmText" "paragraph" "openai"
              ["one"; "two"; "three"] empty_world Hret) as (w' & Hrun & Hembed & _).
  exists w'. split; [exact Hrun | exact Hembed].
Defined.

(** ** The metadata file *)

(** X10: [get_metadata_for_doc] goes through the lines of the metadata
    file in order.  Lines that do not parse and objects whose "id" is not
    the document id are passed over; the first object whose "id" is the
    document id is returned, and whatever follows it is not read.  A line
    that parses to something else than an object (a number, a string, a
    list) and is reached before a match makes the lookup raise
    AttributeError.  When every line is passed over, the lookup returns
    the empty record; when the file cannot be opened, it raises. *)
Theorem get_metadata_first_match (E : env) (doc_id : string) (w : world) :
  (metadata_lines E = None →
   ∃ e, get_metadata_for_doc E doc_id w = (Raise e, w)) ∧
  (∀ before data after,
     metadata_lines E = Some (before ++ JsonObject data :: after) →
     Forall (other_line doc_id) before →
     data !! "id" = Some (MStr doc_id) →
     get_metadata_for_doc E doc_id w = (Ret data, w)) ∧
  (∀ before after,
     metadata_lines E = Some (before ++ JsonOther :: after) →
     Forall (other_line doc_id) before →
     get_metadata_for_doc E doc_id w = (Raise (AttributeError "get"), w)) ∧
  (∀ lines,
     metadata_lines E = Some lines →
     Forall (other_line doc_id) lines →
     get_metadata_for_doc E doc_id w = (Ret ∅, w)).
Proof.
  assert (∀ before rest,
            Forall (other_line doc_id) before →
            scan_metadata doc_id (before ++ rest) = scan_metadata doc_id rest) as Hskip.
  { intros before rest Hbefore. induction Hbefore as [|l before Hline _ IH]; [done|].
    simpl. destruct l as [|data|]; [done| |done]. simpl in Hline.
    destruct (data !! "id") as [[i| | |]|]; try done.
    case_bool_decide; [by subst|done]. }
  unfold get_metadata_for_doc. split_and!.
  - intros ->. by eexists.
  - intros before data after -> Hbefore Hid. rewrite (Hskip _ _ Hbefore).
    simpl. rewrite Hid. by rewrite bool_decide_eq_true_2.
  - intros before after -> Hbefore. by rewrite (Hskip _ _ Hbefore).
  - intros lines -> Hlines.
    rewrite <- (app_nil_r lines). by rewrite (Hskip _ _ Hlines).
Qed.

Lemma get_metadata_first_match_witness :
  get_metadata_for_doc (with_metadata ok_env (Some sample_metadata)) "doc.pdf" empty_world =
    (Ret {[ "id" := MStr "doc.pdf"; "title" := MStr "First record" ]}, empty_world) ∧
  get_metadata_for_doc (with_metadata ok_env (Some scalar_metadata)) "doc.pdf" empty_world =
    (Raise (AttributeError "get"), empty_world).
Proof.
  destruct (get_metadata_first_match (with_metadata ok_env (Some sample_metadata))
              "doc.pdf" empty_world) as (_ & Hfirst & _).
  destruct (get_metadata_first_match (with_metadata ok_env (Some scalar_metadata))
              "doc.pdf" empty_world) as (_ & _ & Hraise & _).
  split.
  - apply (Hfirst [NotJson;
                   JsonObject {[ "id" := MStr "other.pdf"; "title" := MStr "Another paper" ]}]
                  {[ "id" := MStr "doc.pdf"; "title" := MStr "First record" ]}
                  [JsonObject {[ "id" := MStr "doc.pdf"; "title" := MStr "Second record" ]}]).
    + reflexivity.
    + repeat constructor. simpl. vm_compute. discriminate.
    + vm_compute. reflexivity.
  - apply (Hraise [JsonObject {[ "id" := MStr "other.pdf";
                                 "title" := MStr "Another paper" ]}]
                  [JsonObject {[ "id" := MStr "doc.pdf"; "title" := MStr "First record" ]}]).
    + reflexivity.
    + repeat constructor. simpl. vm_compute. discriminate.
Defined.

(** ** A run in which everything works *)








(** ** The convert cache over a call *)

Lemma converter_calls_filter converter_func l :
  converter_calls converter_func l =
  length (List.filter (is_convert_by converter_func) (List.filter is_convert l)).
Proof.
  unfold converter_calls. induction l as [|e l IH]; [done|].
  destruct e; simpl; try done. case_bool_decide; simpl; by rewrite IH.
Qed.

Lemma cached_capped base w : conversions_cached base w → conversions_capped base w.
Proof.
  intros Hw converter_func. specialize (Hw converter_func).
  destruct (convert_cache w !! converter_func); lia.
Qed.

Lemma cached_weaken base w w' :
  List.filter is_convert (log w') = List.filter is_convert (log w) →
  (∀ converter_func, is_Some (convert_cache w !! converter_func) →
                     is_Some (convert_cache w' !! converter_func)) →
  conversions_cached base w → conversions_cached base w'.
Proof.
  intros Hlog Hcache Hw converter_func. specialize (Hw converter_func).
  rewrite converter_calls_filter, Hlog, <- converter_calls_filter.
  destruct (convert_cache w !! converter_func) as [text|] eqn:Hold.
  - destruct (Hcache converter_func) as [text' ->]; [by eexists | done].
  - destruct (convert_cache w' !! converter_func); lia.
Qed.

Lemma quiet_caching {A} (m : M A) : quiet m → caching m.
Proof.
  intros Hm base w Hw. destruct (Hm w) as [Hlog Hcache].
  assert (conversions_cached base (m w).2) as Hafter.
  { apply (cached_weaken base w); [done| |done]. intros c. by rewrite Hcache. }
  destruct (m w) as [[a|e] w']; [done | by apply cached_capped].
Qed.

Lemma quiet_bind {A B} (m : M A) (k : A → M B) :
  quiet m → (∀ a, quiet (k a)) → quiet (bind m k).
Proof.
  intros Hm Hk w. unfold bind. specialize (Hm w).
  destruct (m w) as [[a|e] w1]; simpl in *; [|done].
  destruct (Hk a w1) as [Hlog Hcache]. destruct Hm as [Hlog1 Hcache1].
  split; congruence.
Qed.

Lemma quiet_for_each {A} (body : A → M unit) (l : list A) :
  (∀ x, quiet (body x)) → quiet (for_each body l).
Proof.
  intros Hbody. induction l as [|x l IH]; simpl; [done|].
  apply quiet_bind; [apply Hbody | done].
Qed.

Lemma quiet_emit e : is_convert e = false → quiet (emit e).
Proof.
  intros He w. split; [|done]. simpl.
  rewrite List.filter_app. simpl. rewrite He. by rewrite app_nil_r.
Qed.

Lemma quiet_logged {A} (m : M A) :
  (∀ w, ∃ a evs, m w = (a, logged w evs) ∧ List.filter is_convert evs = []) → quiet m.
Proof.
  intros Hm w. destruct (Hm w) as (a & evs & -> & Hevs). split; [|done]. simpl.
  by rewrite List.filter_app, Hevs, app_nil_r.
Qed.

Create HintDb quiet.

Ltac quiet :=
  cbv zeta;
  repeat first
    [ apply quiet_bind; [|intros ?]
    | apply quiet_for_each; intros ?
    | solve [auto with quiet]
    | (apply quiet_emit; reflexivity)
    | (intros ?; split; reflexivity)
    | match goal with
      | |- quiet (match ?x with _ => _ end) => destruct x
      end ].

Lemma quiet_write_to_file E content path : quiet (write_to_file E content path).
Proof. unfold write_to_file. quiet. Qed.

Lemma quiet_lighthouse_and_commit E object git_path :
  quiet (lighthouse_and_commit E object git_path).
Proof.
  intros w. destruct (lighthouse_and_commit_run E object git_path w) as (cid & evs & -> & Hevs).
  split; [|done]. simpl. by apply filter_convert_upload_steps.
Qed.

Lemma quiet_read_mappings path : quiet (read_mappings path).
Proof. intros w. rewrite read_mappings_run. split; [|done]. simpl.
  rewrite List.filter_app. simpl. by rewrite app_nil_r. Qed.

Lemma quiet_update_cycle E path pdf_cid combination :
  quiet (update_cycle E path pdf_cid combination).
Proof.
  intros w. rewrite update_cycle_run.
  destruct (add_to_mappings pdf_cid combination (loaded_at (files w) path)) as [m|e];
    (split; [|done]); simpl; rewrite ?List.filter_app; simpl; by rewrite ?app_nil_r.
Qed.

Lemma quiet_update_mappings E self pdf_cid combination :
  quiet (update_mappings E self pdf_cid combination).
Proof.
  intros w. rewrite update_mappings_cycles.
  apply (quiet_bind (update_cycle E (global_mappings_path self) pdf_cid combination)
                    (λ _, update_cycle E (user_mappings_path self) pdf_cid combination));
    [|intros _]; apply quiet_update_cycle.
Qed.

#[local] Hint Resolve quiet_write_to_file quiet_lighthouse_and_commit quiet_read_mappings
  quiet_update_mappings : quiet.

Lemma quiet_resolve_chunks E converter_func chunker_func :
  quiet (resolve_chunks E converter_func chunker_func).
Proof. unfold resolve_chunks. quiet. Qed.

Lemma quiet_process_chunk E self git_path converted_cid chunker_func embedder_func chunk_i :
  quiet (process_chunk E self git_path converted_cid chunker_func embedder_func chunk_i).
Proof. unfold process_chunk, add_ipfs_node, create_relationship. quiet. Qed.

#[local] Hint Resolve quiet_resolve_chunks quiet_process_chunk : quiet.

Lemma caching_bind {A B} (m : M A) (k : A → M B) :
  caching m → (∀ a, caching (k a)) → caching (bind m k).
Proof.
  intros Hm Hk base w Hw. unfold bind. specialize (Hm base w Hw).
  destruct (m w) as [[a|e] w1]; [|done]. by apply Hk.
Qed.

Lemma caching_for_each {A} (body : A → M unit) (l : list A) :
  (∀ x, caching (body x)) → caching (for_each body l).
Proof.
  intros Hbody. induction l as [|x l IH]; simpl.
  - by intros base w Hw.
  - apply caching_bind; [apply Hbody | done].
Qed.

Lemma caching_find_conversion E pdf_cid converter_func :
  caching (find_conversion E pdf_cid converter_func).
Proof.
  intros base w Hw. rewrite find_conversion_run. cbv zeta.
  destruct (truthy (graph_edge E pdf_cid converter_func w));
    [destruct (truthy (fetched E pdf_cid converter_func w))|].
  - apply (cached_weaken base w); [| |done].
    + simpl. rewrite List.filter_app. simpl. by rewrite app_nil_r.
    + intros c Hc. simpl. destruct (decide (c = converter_func)) as [->|Hne].
      * rewrite lookup_insert_eq. by eexists.
      * by rewrite lookup_insert_ne.
  - apply (cached_weaken base w); [|done|done].
    simpl. rewrite List.filter_app. simpl. by rewrite app_nil_r.
  - apply (cached_weaken base w); [|done|done].
    simpl. rewrite List.filter_app. simpl. by rewrite app_nil_r.
Qed.

Lemma converter_calls_snoc converter_func l l' c pdf_path :
  List.filter is_convert l' = List.filter is_convert l ++ [EConvert c pdf_path] →
  converter_calls converter_func l' =
  converter_calls converter_func l + (if bool_decide (c = converter_func) then 1 else 0).
Proof.
  intros Hl. rewrite !converter_calls_filter, Hl, List.filter_app, length_app. simpl.
  by case_bool_decide.
Qed.

Lemma caching_perform_conversion E self pdf_path git_path pdf_cid converter_func :
  caching (perform_conversion E self pdf_path git_path pdf_cid converter_func).
Proof.
  intros base w Hw.
  pose proof (perform_conversion_run E self pdf_path git_path pdf_cid converter_func w)
    as Hrun. cbv zeta in Hrun.
  destruct (convert_cache w !! converter_func) as [cached|] eqn:Hcache.
  - destruct Hrun as (cid & w2 & _ & -> & Hlog & Hcache2).
    apply (cached_weaken base w); [| |done].
    + simpl. rewrite List.filter_app. simpl. by rewrite app_nil_r.
    + intros c. simpl. by rewrite Hcache2.
  - destruct (convert E (log w) converter_func pdf_path) as [converted|e].
    + destruct Hrun as (cid & w2 & _ & -> & Hlog & Hcache2).
      intros c. simpl. specialize (Hw c).
      assert (List.filter is_convert (log w2 ++ conversion_links self pdf_cid converter_func cid)
              = List.filter is_convert (log w) ++ [EConvert converter_func pdf_path]) as Hall.
      { rewrite List.filter_app, Hlog. simpl. by rewrite app_nil_r. }
      rewrite (converter_calls_snoc c _ _ _ _ Hall), Hcache2.
      case_bool_decide as Hc.
      * subst c. rewrite lookup_insert_eq. rewrite Hcache in Hw. lia.
      * rewrite lookup_insert_ne by done. lia.
    + rewrite Hrun. intros c. simpl. specialize (Hw c).
      assert (List.filter is_convert (log w ++ [EConvert converter_func pdf_path])
              = List.filter is_convert (log w) ++ [EConvert converter_func pdf_path]) as Hall.
      { by rewrite List.filter_app. }
      rewrite (converter_calls_snoc c _ _ _ _ Hall).
      case_bool_decide as Hc.
      * subst c. rewrite Hcache in Hw. lia.
      * destruct (convert_cache w !! c); lia.
Qed.

Lemma caching_resolve_conversion E self pdf_path git_path pdf_cid converter_func :
  caching (resolve_conversion E self pdf_path git_path pdf_cid converter_func).
Proof.
  unfold resolve_conversion.
  apply caching_bind; [apply caching_find_conversion|]. intros found.
  apply caching_bind; [apply quiet_caching; quiet|]. intros cache.
  destruct (negb (truthy found) || bool_decide (cache !! converter_func = None)).
  - apply caching_perform_conversion.
  - apply quiet_caching. quiet.
Qed.

Lemma caching_process_variant E self pdf_path git_path pdf_cid c :
  caching (process_variant E self pdf_path git_path pdf_cid c).
Proof.
  unfold process_variant.
  apply caching_bind; [apply quiet_caching; quiet|]. intros m.
  apply caching_bind; [apply quiet_caching; quiet|]. intros [|].
  - apply quiet_caching. quiet.
  - apply caching_bind; [|intros _; apply quiet_caching; quiet].
    unfold compute_variant.
    apply caching_bind; [apply caching_resolve_conversion|]. intros cid.
    apply quiet_caching. quiet.
Qed.

(** X12: no converter runs twice in one call.  Whatever the list of
    variants, the state of the graph and of the ledgers, and whether the
    call returns or raises, [process] calls each converter once at most:
    the variants that share a converter share its text through the
    convert cache. *)
Theorem converter_called_once_per_process (E : env) (self : Processor) (pdf_path : string)
  (databases : list db_config) (git_path : string) (w : world) (converter_func : string) :
  converter_calls converter_func (log (process E self pdf_path databases git_path w).2) ≤
  converter_calls converter_func (log w) + 1.
Proof.
  unfold process.
  match goal with |- context [bind (set_convert_cache ∅) ?k] => set (rest := k) end.
  change (bind (set_convert_cache ∅) rest w)
    with (rest tt (World (files w) ∅ (chunk_cache w) (log w))).
  assert (caching (rest tt)) as Hrest.
  { subst rest. cbv beta.
    apply caching_bind; [apply quiet_caching; quiet|]. intros _.
    unfold get_metadata_for_doc, add_ipfs_node, create_relationship.
    apply caching_bind; [apply quiet_caching; quiet|]. intros found.
    apply caching_bind; [apply quiet_caching; quiet|]. intros pdf_ipfs_cid.
    case_bool_decide; [apply quiet_caching; quiet|].
    apply caching_bind; [apply quiet_caching; quiet|]. intros _.
    apply caching_bind; [apply quiet_caching; quiet|]. intros _.
    apply caching_for_each. intros c. apply caching_process_variant. }
  specialize (Hrest (λ c, converter_calls c (log w))
                    (World (files w) ∅ (chunk_cache w) (log w))).
  assert (conversions_cached (λ c, converter_calls c (log w))
            (World (files w) ∅ (chunk_cache w) (log w))) as Hstart.
  { intros c. simpl. rewrite lookup_empty. lia. }
  specialize (Hrest Hstart).
  destruct (rest tt _) as [[[]|e] w']; simpl.
  - exact (cached_capped _ _ Hrest converter_func).
  - exact (Hrest converter_func).
Qed.

(** X13: the record found in the metadata file plays no part in
    [process].  The record of the document is looked up, replaced by the
    default record when there is none, and its values are made strings,
    but nothing of it is uploaded, written to the graph or to a ledger:
    with any other metadata file on which the lookup returns as well,
    [process] makes the same calls and leaves the same state. *)
Theorem process_ignores_metadata (E : env) (self : Processor) (pdf_path : string)
  (databases : list db_config) (git_path : string)
  (lines lines' : list line) (found found' : gmap string mvalue) (w : world) :
  metadata_lines E = Some lines →
  scan_metadata (doc_id_of E pdf_path) lines = Ret found →
  scan_metadata (doc_id_of E pdf_path) lines' = Ret found' →
  process (with_metadata E (Some lines')) self pdf_path databases git_path w =
  process E self pdf_path databases git_path w.
Proof.
  intros Hmeta Hfound Hfound'. unfold process, get_metadata_for_doc.
  rewrite Hmeta. cbn [metadata_lines with_metadata doc_id_of].
  rewrite Hfound, Hfound'. reflexivity.
Qed.

Lemma process_ignores_metadata_witness :
  metadata_lines ok_env = Some [] ∧
  scan_metadata (doc_id_of ok_env "doc.pdf") [] = Ret ∅ ∧
  scan_metadata (doc_id_of ok_env "doc.pdf") sample_metadata =
    Ret {[ "id" := MStr "doc.pdf"; "title" := MStr "First record" ]} ∧
  process (with_metadata ok_env (Some sample_metadata)) alice "doc.pdf"
    [DbConfig "marker" "paragraph" "openai"] "git" empty_world =
  process ok_env alice "doc.pdf" [DbConfig "marker" "paragraph" "openai"] "git" empty_world.
Proof.
  assert (metadata_lines ok_env = Some []) as Hmeta by reflexivity.
  assert (scan_metadata (doc_id_of ok_env "doc.pdf") [] = Ret ∅) as Hfound by reflexivity.
  assert (scan_metadata (doc_id_of ok_env "doc.pdf") sample_metadata =
            Ret {[ "id" := MStr "doc.pdf"; "title" := MStr "First record" ]}) as Hfound'
    by (vm_compute; reflexivity).
  split; [exact Hmeta|]. split; [exact Hfound|]. split; [exact Hfound'|].
  exact (process_ignores_metadata ok_env alice "doc.pdf"
           [DbConfig "marker" "paragraph" "openai"] "git" [] sample_metadata ∅ _ empty_world
           Hmeta Hfound Hfound').
Defined.

(** X14: the caches live for one call.  [process] empties the convert
    cache and the chunk cache before anything else, so that what an
    earlier call left in them (the text of another document under the
    same converter and chunker) is never used: the outcome, the files
    and the calls of a run do not depend on the caches it starts with. *)
Theorem process_resets_caches (E : env) (self : Processor) (pdf_path : string)
  (databases : list db_config) (git_path : string) (fs : gmap string file)
  (converted converted' : gmap string string) (chunked chunked' : gmap string (list string))
  (calls : list event) :
  process E self pdf_path databases git_path (World fs converted chunked calls) =
  process E self pdf_path databases git_path (World fs converted' chunked' calls).
Proof. reflexivity. Qed.

(** ** The vector database manager, continued *)

Lemma get_or_create_collection_spec {embedding : Type} (valid_name : string → bool)
  (client : gmap string (list (@Chroma.entry embedding))) name client' :
  ChromaManager.get_or_create_collection (embedding := embedding) valid_name client name
    = Some client' →
  is_Some (client' !! name) ∧
  (∀ other collection, client !! other = Some collection →
                       client' !! other = Some collection) ∧
  (∀ other, other ≠ name → client' !! other = client !! other) ∧
  (client !! name = None → client' !! name = Some []).
Proof.
  unfold ChromaManager.get_or_create_collection.
  destruct (valid_name name); [|done].
  destruct (client !! name) as [collection|] eqn:Hname; intros [= <-].
  - rewrite Hname. split_and!; (done || eauto).
  - split_and!.
    + rewrite lookup_insert_eq. eauto.
    + intros other collection Hother. rewrite lookup_insert_ne; [done|congruence].
    + intros other Hother. by rewrite lookup_insert_ne.
    + intros _. by rewrite lookup_insert_eq.
Qed.

Lemma initialize_databases_spec {embedding : Type} (valid_name : string → bool) db_names
  (client : gmap string (list (@Chroma.entry embedding))) client' :
  ChromaManager.initialize_databases (embedding := embedding) valid_name db_names client
    = Some client' →
  (∀ name, name ∈ db_names → is_Some (client' !! name)) ∧
  (∀ name collection, client !! name = Some collection →
                      client' !! name = Some collection) ∧
  (∀ name, name ∉ db_names → client' !! name = client !! name) ∧
  (∀ name, name ∈ db_names → client !! name = None → client' !! name = Some []).
Proof.
  revert client. induction db_names as [|db_name rest IH]; intros client; simpl.
  - intros [= <-]. split_and!; try done.
    + intros name Hin. by apply elem_of_nil in Hin.
    + intros name Hin. by apply elem_of_nil in Hin.
  - destruct (ChromaManager.get_or_create_collection valid_name client db_name)
      as [client1|] eqn:Hfirst; [|done].
    intros Hrest.
    destruct (get_or_create_collection_spec _ _ _ _ Hfirst) as (Hhas & Hkeep & Hother & Hnew).
    destruct (IH _ Hrest) as (Hhas' & Hkeep' & Hother' & Hnew').
    split_and!.
    + intros name [->|Hin]%elem_of_cons; [|by apply Hhas'].
      destruct Hhas as [collection Hc]. rewrite (Hkeep' _ _ Hc). eauto.
    + intros name collection Hc. apply Hkeep', Hkeep, Hc.
    + intros name Hnot. apply not_elem_of_cons in Hnot as [Hne Hnot].
      rewrite (Hother' _ Hnot). by apply Hother.
    + intros name Hin Hnone. destruct (decide (name = db_name)) as [->|Hne].
      * apply Hkeep', Hnew, Hnone.
      * apply elem_of_cons in Hin as [?|Hin]; [done|].
        apply Hnew'; [done|]. by rewrite (Hother _ Hne).
Qed.

(** X15: [VectorDatabaseManager.__init__] refuses an empty list of names
    with [ValueError]; for a list of names the client accepts it returns
    a manager over exactly these names in which every name has its
    collection.  A collection the client had before is kept with its
    entries, whether it is named or not; a name without a collection
    gets an empty one; no other collection appears. *)
Theorem init_creates_missing_collections {embedding : Type} (valid_name : string → bool)
  (db_names : list string)
  (client : gmap string (list (@Chroma.entry embedding))) :
  (db_names = [] →
   ChromaManager.init valid_name db_names client =
     Raise (ValueError "db_names must be a non-empty list of database names.")) ∧
  (db_names ≠ [] → Forall (λ name, valid_name name = true) db_names →
   ∃ self,
     ChromaManager.init valid_name db_names client = Ret self ∧
     Chroma.db_names self = db_names ∧
     ChromaManager.initialized self ∧
     (∀ name collection, client !! name = Some collection →
                         Chroma.collections self !! name = Some collection) ∧
     (∀ name, name ∉ db_names → Chroma.collections self !! name = client !! name) ∧
     (∀ name, name ∈ db_names → client !! name = None →
              Chroma.collections self !! name = Some [])).
Proof.
  split; [by intros ->|].
  intros Hne Hvalid.
  assert (∃ client', ChromaManager.initialize_databases valid_name db_names client
                     = Some client') as [client' Hinit].
  { clear Hne. revert client. induction Hvalid as [|name rest Hname _ IH]; intros client.
    - by eexists.
    - simpl. unfold ChromaManager.get_or_create_collection. rewrite Hname.
      destruct (client !! name); apply IH. }
  destruct (initialize_databases_spec _ _ _ _ Hinit) as (Hhas & Hkeep & Hother & Hnew).
  exists (Chroma.Manager db_names client'). split_and!; try done.
  unfold ChromaManager.init. destruct db_names; [done|]. by rewrite Hinit.
Qed.

(** X16: [insert_document] is a batch insertion of one with the errors
    swallowed.  The two leave the same manager on every input and refuse
    an unknown database in the same way; in an initialised manager
    [insert_document] returns normally for every known database, also
    where the batch raises: metadata without "content_cid" and a client
    that rejects the entry leave the manager as it was, without a
    word to the caller. *)
Theorem insert_document_swallows_errors {embedding : Type}
  (collection_add : list (@Chroma.entry embedding) → list (@Chroma.entry embedding) →
                    option (list (@Chroma.entry embedding)))
  (self : @Chroma.VectorDatabaseManager embedding)
  (db_name : string) (embedding0 : embedding) (metadata : gmap string string)
  (doc_id : string) :
  let single := ChromaManager.insert_document collection_add self db_name embedding0
                  metadata doc_id in
  let batch := Chroma.batch_insert_documents collection_add self db_name [embedding0]
                 [metadata] [doc_id] in
  single.2 = batch.2 ∧
  (db_name ∉ Chroma.db_names self → single = batch) ∧
  (returns batch.1 = true → single = batch) ∧
  (ChromaManager.initialized self → db_name ∈ Chroma.db_names self →
   single.1 = Ret tt ∧
   (metadata !! "content_cid" = None →
    single = (Ret tt, self) ∧ batch = (Raise (KeyError "content_cid"), self)) ∧
   (returns batch.1 = false → single = (Ret tt, self))).
Proof.
  intros single batch. subst single batch.
  unfold ChromaManager.insert_document, Chroma.batch_insert_documents.
  case_bool_decide as Hname; simpl; [|by split_and!].
  destruct (metadata !! "content_cid") as [content_cid|] eqn:Hcid;
    destruct (Chroma.collections self !! db_name) as [collection|] eqn:Hcoll; simpl;
    try destruct (collection_add collection _) as [collection'|]; simpl;
    split_and!; try done;
    try (intros Hinit _; destruct (Hinit db_name Hname) as [? ?]; congruence);
    intros _ _; by split_and!.
Qed.

(** X17: [batch_insert_documents] touches one collection at most.
    Whatever it is called with, the names of the manager and every
    collection but the named one stay as they are, an initialised
    manager stays initialised, and whenever it raises (unknown database,
    lists of different lengths, metadata without "content_cid", a
    failing client) the manager is exactly what it was. *)
Theorem batch_insert_frame {embedding : Type}
  (collection_add : list (@Chroma.entry embedding) → list (@Chroma.entry embedding) →
                    option (list (@Chroma.entry embedding)))
  (self : @Chroma.VectorDatabaseManager embedding)
  (db_name : string) (embeddings : list embedding) (metadatas : list (gmap string string))
  (doc_ids : list string) :
  let result := Chroma.batch_insert_documents collection_add self db_name embeddings
                  metadatas doc_ids in
  Chroma.db_names result.2 = Chroma.db_names self ∧
  (∀ other, other ≠ db_name →
            Chroma.collections result.2 !! other = Chroma.collections self !! other) ∧
  (ChromaManager.initialized self → ChromaManager.initialized result.2) ∧
  (returns result.1 = false → result.2 = self).
Proof.
  intros result. subst result. unfold Chroma.batch_insert_documents.
  destruct (negb (bool_decide (db_name ∈ Chroma.db_names self))); [done|].
  destruct (negb (bool_decide _ && bool_decide _)); [done|].
  destruct embeddings as [|e es]; [done|].
  destruct (Chroma.content_cids metadatas) as [documents|]; [|done].
  destruct (Chroma.collections self !! db_name) as [collection|] eqn:Hcoll; [|done].
  destruct (collection_add collection _) as [collection'|]; [|done].
  simpl. split_and!; try done.
  - intros other Hother. by rewrite lookup_insert_ne.
  - intros Hinit name Hname. simpl in *.
    destruct (decide (name = db_name)) as [->|Hne].
    + rewrite lookup_insert_eq. eauto.
    + rewrite lookup_insert_ne by done. by apply Hinit.
Qed.

Lemma content_cids_spec metadatas documents :
  Chroma.content_cids metadatas = Some documents →
  Some <$> documents = (λ metadata : gmap string string, metadata !! "content_cid")
                         <$> metadatas.
Proof.
  revert documents. induction metadatas as [|metadata rest IH]; intros documents; simpl.
  - by intros [= <-].
  - destruct (metadata !! "content_cid") as [cid|] eqn:Hcid; [|done].
    destruct (Chroma.content_cids rest) as [cids|]; [|done].
    intros [= <-]. rewrite !fmap_cons. f_equal. by apply IH.
Qed.

Lemma content_cids_total metadatas :
  Forall (λ metadata : gmap string string, is_Some (metadata !! "content_cid")) metadatas →
  ∃ documents, Chroma.content_cids metadatas = Some documents.
Proof.
  induction 1 as [|metadata rest [cid Hcid] _ [cids IH]]; simpl; [by eexists|].
  rewrite Hcid, IH. by eexists.
Qed.

Lemma entries_columns {embedding : Type} (documents : list string) (embeddings : list embedding)
  (doc_ids : list string) (metadatas : list (gmap string string)) :
  length documents = length metadatas → length embeddings = length metadatas →
  length metadatas = length doc_ids →
  let new := Chroma.entries documents embeddings doc_ids metadatas in
  Chroma.entry_document <$> new = documents ∧
  Chroma.entry_embedding <$> new = embeddings ∧
  Chroma.entry_id <$> new = doc_ids ∧
  Chroma.entry_metadata <$> new = metadatas.
Proof.
  revert embeddings doc_ids metadatas.
  induction documents as [|d ds IH]; intros [|e es] [|i ids] [|m ms]; simpl; try done.
  intros [= Hd] [= He] [= Hi].
  destruct (IH es ids ms Hd He Hi) as (H1 & H2 & H3 & H4). cbv zeta in *.
  split_and!; f_equal; assumption.
Qed.

(** X18: what a batch hands to the client.  For a known database of an
    initialised manager, lists of one length, not empty, and metadata
    that all carry "content_cid", [batch_insert_documents] makes one call
    of [collection.add] with one entry per position: the i-th embedding,
    the i-th id, the i-th metadata, and as document the "content_cid" of
    the i-th metadata.  When the client takes them, the call returns and
    the collection is what the client made of it; when it does not, the
    call raises. *)
Theorem batch_insert_entries {embedding : Type}
  (collection_add : list (@Chroma.entry embedding) → list (@Chroma.entry embedding) →
                    option (list (@Chroma.entry embedding)))
  (self : @Chroma.VectorDatabaseManager embedding)
  (db_name : string) (embeddings : list embedding) (metadatas : list (gmap string string))
  (doc_ids : list string) :
  ChromaManager.initialized self → db_name ∈ Chroma.db_names self →
  length embeddings = length metadatas → length metadatas = length doc_ids →
  embeddings ≠ [] →
  Forall (λ metadata : gmap string string, is_Some (metadata !! "content_cid")) metadatas →
  ∃ collection new,
    Chroma.collections self !! db_name = Some collection ∧
    Chroma.entry_embedding <$> new = embeddings ∧
    Chroma.entry_id <$> new = doc_ids ∧
    Chroma.entry_metadata <$> new = metadatas ∧
    Some ∘ Chroma.entry_document <$> new =
      (λ metadata : gmap string string, metadata !! "content_cid") <$> metadatas ∧
    Chroma.batch_insert_documents collection_add self db_name embeddings metadatas doc_ids =
      match collection_add collection new with
      | Some collection' =>
          (Ret tt, Chroma.Manager (Chroma.db_names self)
                     (<[db_name := collection']> (Chroma.collections self)))
      | None =>
          (Raise (Exception ("Error batch inserting documents into database '"
                             +:+ db_name +:+ "'")), self)
      end.
Proof.
  intros Hinit Hname Hlen1 Hlen2 Hne Hcids.
  destruct (Hinit db_name Hname) as [collection Hcoll].
  destruct (content_cids_total _ Hcids) as [documents Hdocs].
  pose proof (content_cids_spec _ _ Hdocs) as Hspec.
  assert (length documents = length metadatas) as Hlen0.
  { apply (f_equal length) in Hspec. by rewrite !length_fmap in Hspec. }
  destruct (entries_columns documents embeddings doc_ids metadatas Hlen0 Hlen1 Hlen2)
    as (Hd & He & Hi & Hm).
  exists collection, (Chroma.entries documents embeddings doc_ids metadatas).
  split_and!; try done.
  - rewrite list_fmap_compose, Hd. exact Hspec.
  - unfold Chroma.batch_insert_documents.
    rewrite bool_decide_eq_true_2 by done. simpl.
    rewrite !bool_decide_eq_true_2 by done. simpl.
    destruct embeddings as [|e es]; [done|].
    by rewrite Hdocs, Hcoll.
Qed.

Lemma init_creates_missing_collections_witness :
  ["marker_paragraph_openai"; "openai_sentence_bge"] ≠ [] ∧
  Forall (λ name, demo_valid_name name = true)
         ["marker_paragraph_openai"; "openai_sentence_bge"] ∧
  ∃ self,
    ChromaManager.init demo_valid_name ["marker_paragraph_openai"; "openai_sentence_bge"]
      demo_client = Ret self ∧
    Chroma.collections self !! "marker_paragraph_openai" =
      demo_client !! "marker_paragraph_openai" ∧
    Chroma.collections self !! "openai_sentence_bge" = Some [] ∧
    Chroma.collections self !! "legacy" = Some [].
Proof.
  assert (["marker_paragraph_openai"; "openai_sentence_bge"] ≠ []) as Hne by discriminate.
  assert (Forall (λ name, demo_valid_name name = true)
                 ["marker_paragraph_openai"; "openai_sentence_bge"]) as Hvalid
    by (repeat constructor).
  split; [exact Hne|]. split; [exact Hvalid|].
  destruct (proj2 (init_creates_missing_collections demo_valid_name
                     ["marker_paragraph_openai"; "openai_sentence_bge"] demo_client)
              Hne Hvalid) as (self & Hrun & _ & _ & Hkeep & _ & Hnew).
  exists self. split; [exact Hrun|]. split_and!.
  - apply Hkeep. vm_compute. reflexivity.
  - apply Hnew; [|vm_compute; reflexivity].
    apply elem_of_cons. right. apply elem_of_cons. by left.
  - apply Hkeep. vm_compute. reflexivity.
Defined.

Lemma insert_document_swallows_errors_witness :
  ChromaManager.initialized demo_manager ∧
  "marker_paragraph_openai" ∈ Chroma.db_names demo_manager ∧
  (∅ : gmap string string) !! "content_cid" = None ∧
  ChromaManager.insert_document demo_add demo_manager "marker_paragraph_openai" 7 ∅ "id-1"
    = (Ret tt, demo_manager) ∧
  Chroma.batch_insert_documents demo_add demo_manager "marker_paragraph_openai" [7] [∅]
    ["id-1"] = (Raise (KeyError "content_cid"), demo_manager).
Proof.
  assert (ChromaManager.initialized demo_manager) as Hinit.
  { intros name Hin. apply list_elem_of_singleton in Hin. subst name.
    vm_compute. eauto. }
  assert ("marker_paragraph_openai" ∈ Chroma.db_names demo_manager) as Hname
    by (by apply list_elem_of_singleton).
  assert ((∅ : gmap string string) !! "content_cid" = None) as Hcid by reflexivity.
  split; [exact Hinit|]. split; [exact Hname|]. split; [exact Hcid|].
  exact (proj1 (proj2 (proj2 (proj2 (proj2 (insert_document_swallows_errors demo_add
           demo_manager "marker_paragraph_openai" 7 ∅ "id-1"))) Hinit Hname)) Hcid).
Defined.

Lemma batch_insert_frame_witness :
  let result := Chroma.batch_insert_documents failing_add demo_manager
                  "marker_paragraph_openai" [7] [{[ "content_cid" := "QmChunk1" ]}]
                  ["id-1"] in
  returns result.1 = false ∧ result.2 = demo_manager.
Proof.
  intros result.
  assert (returns result.1 = false) as Hraise by reflexivity.
  split; [exact Hraise|].
  exact (proj2 (proj2 (proj2 (batch_insert_frame failing_add demo_manager
           "marker_paragraph_openai" [7] [{[ "content_cid" := "QmChunk1" ]}] ["id-1"])))
           Hraise).
Defined.

Lemma batch_insert_entries_witness :
  let metadatas : list (gmap string string) :=
    [{[ "content_cid" := "QmChunk1" ]}; {[ "content_cid" := "QmChunk2" ]}] in
  ChromaManager.initialized demo_manager ∧
  "marker_paragraph_openai" ∈ Chroma.db_names demo_manager ∧
  [7; 8] ≠ [] ∧
  Forall (λ metadata : gmap string string, is_Some (metadata !! "content_cid")) metadatas ∧
  ∃ new,
    Chroma.entry_id <$> new = ["id-1"; "id-2"] ∧
    Some ∘ Chroma.entry_document <$> new = [Some "QmChunk1"; Some "QmChunk2"] ∧
    Chroma.batch_insert_documents demo_add demo_manager "marker_paragraph_openai" [7; 8]
      metadatas ["id-1"; "id-2"] =
    (Ret tt, Chroma.Manager ["marker_paragraph_openai"]
               (<["marker_paragraph_openai" := new]> (Chroma.collections demo_manager))).
Proof.
  intros metadatas.
  assert (ChromaManager.initialized demo_manager) as Hinit.
  { intros name Hin. apply list_elem_of_singleton in Hin. subst name.
    vm_compute. eauto. }
  assert ("marker_paragraph_openai" ∈ Chroma.db_names demo_manager) as Hname
    by (by apply list_elem_of_singleton).
  assert ([7; 8] ≠ []) as Hne by discriminate.
  assert (Forall (λ metadata : gmap string string, is_Some (metadata !! "content_cid"))
                 metadatas) as Hcids.
  { subst metadatas. repeat constructor; vm_compute; eauto. }
  split; [exact Hinit|]. split; [exact Hname|]. split; [exact Hne|]. split; [exact Hcids|].
  destruct (batch_insert_entries demo_add demo_manager "marker_paragraph_openai" [7; 8]
              metadatas ["id-1"; "id-2"] Hinit Hname eq_refl eq_refl Hne Hcids)
    as (collection & new & Hcoll & _ & Hids & _ & Hdocs & Hrun).
  assert (collection = []) as -> by (vm_compute in Hcoll; congruence).
  exists new. split; [exact Hids|]. split; [exact Hdocs|]. exact Hrun.
Defined.

(** ** The converters *)

Lemma marker_render_run (L : Converters.libs) (text : string → string)
  (input_pdf_paths : list string) (std_out : string) (rt : Converters.runtime) :
  (∀ h pdf_path, Converters.render L h pdf_path = Converters.Ok (text pdf_path)) →
  Converters.marker_render L input_pdf_paths std_out rt =
    (Converters.Ok (foldl String.app std_out (text <$> input_pdf_paths)),
     Converters.called rt (Converters.CRender <$> input_pdf_paths)).
Proof.
  intros Hrender. revert std_out rt.
  induction input_pdf_paths as [|pdf_path rest IH]; intros std_out rt; simpl.
  - unfold Converters.called. rewrite app_nil_r. by destruct rt.
  - rewrite Hrender, IH. unfold Converters.called. simpl. by rewrite <- app_assoc.
Qed.

Lemma marker_render_calls (L : Converters.libs) (input_pdf_paths : list string)
  (std_out : string) (rt : Converters.runtime) :
  ∃ r cs,
    Converters.marker_render L input_pdf_paths std_out rt = (r, Converters.called rt cs) ∧
    Forall (λ c, Converters.is_load c = false) cs.
Proof.
  revert std_out rt.
  induction input_pdf_paths as [|pdf_path rest IH]; intros std_out rt; simpl.
  - exists (Converters.Ok std_out), []. split; [|done].
    unfold Converters.called. rewrite app_nil_r. by destruct rt.
  - destruct (Converters.render L (Converters.calls rt) pdf_path) as [md|r].
    + destruct (IH (std_out +:+ md) (Converters.called rt [Converters.CRender pdf_path]))
        as (r & cs & -> & Hcs).
      exists r, (Converters.CRender pdf_path :: cs). split.
      * unfold Converters.called. simpl. by rewrite <- app_assoc.
      * by constructor.
    + eexists _, _. split; [reflexivity|]. by repeat constructor.
Qed.

Lemma loaded_once_called (rt : Converters.runtime) (cs : list Converters.call) :
  Forall (λ c, Converters.is_load c = false) cs →
  Converters.loaded_once rt → Converters.loaded_once (Converters.called rt cs).
Proof.
  intros Hcs [Hcount Hmodels]. split; [|done]. simpl.
  rewrite List.filter_app, length_app, Hcount.
  replace (List.filter Converters.is_loaded cs) with (@nil Converters.call); [simpl; lia|].
  induction Hcs as [|c cs Hc _ IH]; [done|]. simpl. rewrite <- IH. by destruct c.
Qed.

Lemma marker_load_loaded_once (L : Converters.libs) (rt : Converters.runtime) :
  Converters.loaded_once rt → Converters.loaded_once (Converters.marker_load L rt).2.
Proof.
  intros [Hcount Hmodels]. unfold Converters.marker_load.
  destruct (Converters.marker_models rt && Converters.marker_converter rt) eqn:Hloaded;
    [done|].
  destruct (Converters.create_model_dict L (Converters.calls rt)) as [[]|r]; simpl.
  - destruct (Converters.PdfConverter L _) as [[]|r]; simpl.
    + split; [|done]. simpl.
      rewrite !List.filter_app, !length_app. simpl.
      destruct (Converters.marker_converter rt) eqn:Hconv.
      * rewrite (Hmodels eq_refl) in Hloaded. done.
      * lia.
    + split; [|done]. simpl.
      rewrite !List.filter_app, !length_app. simpl. lia.
  - split; [|done]. simpl. rewrite !List.filter_app, !length_app. simpl. lia.
Qed.

Lemma marker_convert_loaded_once (L : Converters.libs) (input_pdf_paths : list string)
  (rt : Converters.runtime) :
  Converters.loaded_once rt →
  Converters.loaded_once (Converters.marker_convert L input_pdf_paths rt).2.
Proof.
  intros Hrt. unfold Converters.marker_convert.
  pose proof (marker_load_loaded_once L rt Hrt) as Hload.
  destruct (Converters.marker_load L rt) as [[[]|r] rt1]; simpl in *; [|done].
  destruct (marker_render_calls L input_pdf_paths "" rt1) as (r & cs & -> & Hcs).
  simpl. by apply loaded_once_called.
Qed.

Lemma marker_loaded_once (L : Converters.libs) (input_path : string)
  (rt : Converters.runtime) :
  Converters.loaded_once rt → Converters.loaded_once (Converters.marker L input_path rt).2.
Proof.
  intros Hrt. unfold Converters.marker.
  destruct (Converters.stat L _ input_path) as [[|names|]|]; try done.
  - destruct (Converters.is_pdf input_path); [|done].
    by apply marker_convert_loaded_once.
  - destruct (Converters.path_join input_path <$> List.filter Converters.is_pdf names);
      [done|]. by apply marker_convert_loaded_once.
Qed.

Lemma openai_chunks_calls (L : Converters.libs) (chunks : list string)
  (markdown_chunks : list (option string)) (rt : Converters.runtime) :
  ∃ r cs,
    Converters.openai_chunks L chunks markdown_chunks rt = (r, Converters.called rt cs) ∧
    Forall (λ c, Converters.is_load c = false) cs.
Proof.
  revert markdown_chunks rt.
  induction chunks as [|chunk rest IH]; intros markdown_chunks rt; simpl.
  - eexists _, []. split; [|done].
    unfold Converters.called. rewrite app_nil_r. by destruct rt.
  - destruct (Converters.completion L (Converters.calls rt) chunk) as [[content|]|r].
    + destruct (IH (markdown_chunks ++ [content])
                   (Converters.called rt [Converters.CCompletion chunk]))
        as (r & cs & -> & Hcs).
      exists r, (Converters.CCompletion chunk :: cs). split.
      * unfold Converters.called. simpl. by rewrite <- app_assoc.
      * by constructor.
    + destruct (IH (markdown_chunks ++ [Some chunk])
                   (Converters.called rt [Converters.CCompletion chunk]))
        as (r & cs & -> & Hcs).
      exists r, (Converters.CCompletion chunk :: cs). split.
      * unfold Converters.called. simpl. by rewrite <- app_assoc.
      * by constructor.
    + eexists _, _. split; [reflexivity|]. by repeat constructor.
Qed.

Lemma called_called (rt : Converters.runtime) (cs1 cs2 : list Converters.call) :
  Converters.called (Converters.called rt cs1) cs2 = Converters.called rt (cs1 ++ cs2).
Proof. unfold Converters.called. simpl. by rewrite <- app_assoc. Qed.

Lemma called_nil (rt : Converters.runtime) : Converters.called rt [] = rt.
Proof. unfold Converters.called. rewrite app_nil_r. by destruct rt. Qed.

Lemma openai_run (L : Converters.libs) (input_path : string) (rt : Converters.runtime) :
  ∃ text cs,
    Converters.openai L input_path rt = (Ret text, Converters.called rt cs) ∧
    Forall (λ c, Converters.is_load c = false) cs.
Proof.
  unfold Converters.openai.
  destruct (Converters.stat L _ input_path) as [n|].
  - unfold Converters.extract_text_from_pdf.
    destruct (Converters.pdf_pages L _ input_path) as [pages|r].
    + destruct (Converters.OpenAI L _) as [[]|r].
      * match goal with |- context [Converters.openai_chunks L ?c ?m ?r0] =>
          destruct (openai_chunks_calls L c m r0) as ([md|] & cs & -> & Hcs) end;
          rewrite !called_called; eexists _, _; (split; [reflexivity|]);
          repeat (constructor; [done|]); done.
      * rewrite called_called. eexists _, _. split; [reflexivity|]. by repeat constructor.
    + eexists _, _. split; [reflexivity|]. by repeat constructor.
  - exists "", []. by rewrite called_nil.
Qed.

Lemma markitdown_run (L : Converters.libs) (input_path : string) (rt : Converters.runtime) :
  ∃ text rt',
    Converters.markitdown L input_path rt = (Ret text, rt') ∧
    Converters.marker_models rt' = Converters.marker_models rt ∧
    Converters.marker_converter rt' = Converters.marker_converter rt ∧
    List.filter Converters.is_loaded (Converters.calls rt') =
      List.filter Converters.is_loaded (Converters.calls rt).
Proof.
  unfold Converters.markitdown.
  destruct (Converters.stat L _ input_path) as [[|names|]|]; try by eexists _, _.
  destruct (Converters.is_pdf input_path); [|by eexists _, _].
  unfold Converters.markitdown_load.
  destruct (Converters.markitdown_instance rt).
  - destruct (Converters.md_convert L _ input_path) as [text|r];
      eexists _, _; (split; [reflexivity|]); simpl;
      rewrite List.filter_app; simpl; by rewrite app_nil_r.
  - destruct (Converters.MarkItDown L _) as [[]|r].
    + destruct (Converters.md_convert L _ input_path) as [text|r];
        eexists _, _; (split; [reflexivity|]); simpl;
        rewrite !List.filter_app; simpl; by rewrite !app_nil_r.
    + eexists _, _. split; [reflexivity|]. simpl.
      rewrite List.filter_app. simpl. by rewrite app_nil_r.
Qed.

Lemma conversion_methods_lookup (L : Converters.libs) (conversion_type : string) :
  Converters.conversion_methods L !! conversion_type =
  if bool_decide (conversion_type = "marker") then Some (Converters.marker L)
  else if bool_decide (conversion_type = "openai") then Some (Converters.openai L)
  else if bool_decide (conversion_type = "markitdown") then Some (Converters.markitdown L)
  else None.
Proof.
  unfold Converters.conversion_methods.
  repeat case_bool_decide; subst;
    rewrite ?lookup_insert_eq, ?lookup_insert_ne, ?lookup_empty by done; try done.
  all: by rewrite ?lookup_insert_ne, ?lookup_insert_eq by done.
Qed.

(** X19: a missing input is empty text for every converter.  When the
    input path does not exist, [convert] returns the empty string for
    each of the three registered types, without loading a model and
    without a call into any library; no exception tells the caller. *)
Theorem missing_input_converts_to_empty (L : Converters.libs)
  (conversion_type input_path : string) (rt : Converters.runtime) :
  Converters.stat L (Converters.calls rt) input_path = None →
  conversion_type ∈ ["marker"; "openai"; "markitdown"] →
  Converters.convert L conversion_type input_path rt = (Ret "", rt).
Proof.
  intros Hstat Htype. unfold Converters.convert.
  rewrite conversion_methods_lookup.
  repeat (apply elem_of_cons in Htype as [->|Htype]); [| |  |by apply elem_of_nil in Htype].
  - simpl. unfold Converters.marker. by rewrite Hstat.
  - simpl. unfold Converters.openai. by rewrite Hstat.
  - simpl. unfold Converters.markitdown. by rewrite Hstat.
Qed.

(** X20: a file that is not a PDF.  For an existing file whose name does
    not end in ".pdf" (in any case of the letters), [marker] raises
    [ValueError] and [markitdown] returns the empty string, both before
    any model is loaded; [openai] does not look at the name and hands the
    file to the PDF reader. *)
Theorem non_pdf_file_by_converter (L : Converters.libs) (input_path : string)
  (rt : Converters.runtime) :
  Converters.stat L (Converters.calls rt) input_path = Some Converters.File →
  Converters.is_pdf input_path = false →
  Converters.marker L input_path rt =
    (Raise (ValueError ("File at " +:+ input_path +:+ " is not a PDF.")), rt) ∧
  Converters.markitdown L input_path rt = (Ret "", rt) ∧
  ∃ cs, (Converters.openai L input_path rt).2 =
          Converters.called rt (Converters.CPdfReader input_path :: cs).
Proof.
  intros Hstat Hpdf. split_and!.
  - unfold Converters.marker. by rewrite Hstat, Hpdf.
  - unfold Converters.markitdown. by rewrite Hstat, Hpdf.
  - unfold Converters.openai. rewrite Hstat. unfold Converters.extract_text_from_pdf.
    destruct (Converters.pdf_pages L _ input_path) as [pages|r]; [|by eexists].
    destruct (Converters.OpenAI L _) as [[]|r].
    + match goal with |- context [Converters.openai_chunks L ?c ?m ?r0] =>
        destruct (openai_chunks_calls L c m r0) as ([md|] & cs & -> & Hcs) end;
        rewrite !called_called; by eexists.
    + rewrite called_called. by eexists.
Qed.

(** X21: of the three converters only [marker] lets an exception out.
    [convert] raises [KeyError] for a type outside the registry; for
    "openai" and "markitdown" it returns on every input and in every
    state of the libraries, with the empty string where something
    failed. *)
Theorem convert_raises_only_for_marker (L : Converters.libs)
  (conversion_type input_path : string) (rt : Converters.runtime) :
  (conversion_type ∉ ["marker"; "openai"; "markitdown"] →
   Converters.convert L conversion_type input_path rt = (Raise (KeyError conversion_type), rt)) ∧
  (conversion_type = "openai" ∨ conversion_type = "markitdown" →
   returns (Converters.convert L conversion_type input_path rt).1 = true) ∧
  (Converters.convert L conversion_type input_path rt).1 =
    Converter.convert (λ p, (Converters.marker L p rt).1) (λ p, (Converters.openai L p rt).1)
                      (λ p, (Converters.markitdown L p rt).1) conversion_type input_path.
Proof.
  unfold Converters.convert. rewrite conversion_methods_lookup. split_and!.
  - intros Hnot. rewrite !not_elem_of_cons in Hnot. destruct Hnot as (? & ? & ? & _).
    by rewrite !bool_decide_eq_false_2.
  - intros [-> | ->]; simpl.
    + by destruct (openai_run L input_path rt) as (text & cs & -> & _).
    + by destruct (markitdown_run L input_path rt) as (text & rt' & -> & _).
  - unfold Converter.convert, Converter.conversion_methods.
    repeat case_bool_decide; subst;
      rewrite ?lookup_insert_eq, ?lookup_insert_ne, ?lookup_empty by done; try done.
    all: by rewrite ?lookup_insert_ne, ?lookup_insert_eq, ?lookup_empty by done.
Qed.

(** X22: the marker converter object is constructed at most once with
    success.  The globals stay consistent with the calls over every call
    of [convert], whatever its type, input and outcome: the converter
    object is set exactly when one construction of it went through, and
    no second construction succeeds; when models and converter are set,
    [marker] makes no loading call at all.  The model dictionary has no
    such bound: as long as the converter object is not set (after a
    failed construction, say), loading starts by building the model
    dictionary, also when one was built before. *)
Theorem marker_converter_built_once (L : Converters.libs)
  (conversion_type input_path : string) (rt : Converters.runtime) :
  Converters.loaded_once rt →
  Converters.loaded_once (Converters.convert L conversion_type input_path rt).2 ∧
  (Converters.marker_models rt = true → Converters.marker_converter rt = true →
   List.filter Converters.is_load (Converters.calls (Converters.marker L input_path rt).2) =
     List.filter Converters.is_load (Converters.calls rt)) ∧
  (Converters.marker_converter rt = false →
   ∃ built rest,
     Converters.calls (Converters.marker_load L rt).2 =
       Converters.calls rt ++ Converters.CCreateModelDict built :: rest).
Proof.
  intros Hrt. split; [|split]; [| |
    intros Hconv; unfold Converters.marker_load;
    rewrite Hconv, andb_false_r;
    destruct (Converters.create_model_dict L (Converters.calls rt)) as [?|?];
      [|by eexists false, []];
    cbn [Converters.calls];
    destruct (Converters.PdfConverter L _) as [?|?]; cbn [snd Converters.calls Converters.called];
    rewrite <- app_assoc; by eexists true, _].
  - unfold Converters.convert. rewrite conversion_methods_lookup.
    repeat case_bool_decide; try done.
    + by apply marker_loaded_once.
    + destruct (openai_run L input_path rt) as (text & cs & -> & Hcs).
      by apply loaded_once_called.
    + destruct (markitdown_run L input_path rt) as (text & rt' & -> & Hm & Hc & Hcalls).
      destruct Hrt as [Hcount Hmodels]. split; simpl.
      * by rewrite Hcalls, Hc.
      * by rewrite Hc, Hm.
  - intros Hmodels Hconv. unfold Converters.marker.
    assert (∀ paths, List.filter Converters.is_load
                       (Converters.calls (Converters.marker_convert L paths rt).2) =
                     List.filter Converters.is_load (Converters.calls rt)) as Hconvert.
    { intros paths. unfold Converters.marker_convert, Converters.marker_load.
      rewrite Hmodels, Hconv. simpl.
      destruct (marker_render_calls L paths "" rt) as (r & cs & -> & Hcs).
      simpl. rewrite List.filter_app.
      replace (List.filter Converters.is_load cs) with (@nil Converters.call);
        [by rewrite app_nil_r|].
      induction Hcs as [|c cs Hc _ IH]; [done|]. simpl. by rewrite Hc. }
    destruct (Converters.stat L _ input_path) as [[|names|]|]; try done.
    + by destruct (Converters.is_pdf input_path).
    + by destruct (Converters.path_join input_path <$> List.filter Converters.is_pdf names).
Qed.

(** X23: [marker] on a directory.  With the models in place and a
    renderer that returns, [marker] renders the entries of the directory
    whose names end in ".pdf", in the order of the listing, and returns
    their markdown concatenated in that order; the other entries are
    never handed to the renderer. *)
Theorem marker_directory_in_listing_order (L : Converters.libs) (text : string → string)
  (input_path : string) (names : list string) (rt : Converters.runtime) :
  let input_pdf_paths :=
    Converters.path_join input_path <$> List.filter Converters.is_pdf names in
  Converters.stat L (Converters.calls rt) input_path = Some (Converters.Directory names) →
  Converters.marker_models rt = true → Converters.marker_converter rt = true →
  (∀ h pdf_path, Converters.render L h pdf_path = Converters.Ok (text pdf_path)) →
  input_pdf_paths ≠ [] →
  Converters.marker L input_path rt =
    (Ret (foldl String.app "" (text <$> input_pdf_paths)),
     Converters.called rt (Converters.CRender <$> input_pdf_paths)).
Proof.
  intros input_pdf_paths Hstat Hmodels Hconv Hrender Hne. subst input_pdf_paths.
  unfold Converters.marker. rewrite Hstat.
  destruct (Converters.path_join input_path <$> List.filter Converters.is_pdf names)
    as [|pdf_path rest] eqn:Hpaths; [done|].
  unfold Converters.marker_convert, Converters.marker_load.
  rewrite Hmodels, Hconv. simpl andb. cbv iota.
  by rewrite (marker_render_run L text _ _ _ Hrender).
Qed.

Lemma openai_chunks_untransformed (L : Converters.libs) (chunks : list string)
  (markdown_chunks : list (option string)) (rt : Converters.runtime) :
  (∀ h chunk, Converters.completion L h chunk = Converters.Ok None) →
  Converters.openai_chunks L chunks markdown_chunks rt =
    (Some (markdown_chunks ++ (Some <$> chunks)),
     Converters.called rt (Converters.CCompletion <$> chunks)).
Proof.
  intros Hnone. revert markdown_chunks rt.
  induction chunks as [|chunk rest IH]; intros markdown_chunks rt; simpl.
  - by rewrite app_nil_r, called_nil.
  - rewrite Hnone, IH, called_called. by rewrite <- app_assoc.
Qed.

(** X24: [openai] without choices.  When the file can be read and every
    completion comes back without choices, [openai] returns the text of
    the PDF as it was wrapped, the chunks joined by blank lines: one
    completion is requested for each chunk, in order, and none of them
    shows in the result. *)
Theorem openai_untransformed_without_choices (L : Converters.libs) (input_path : string)
  (rt : Converters.runtime) (n : Converters.node) (pages : list string) :
  Converters.stat L (Converters.calls rt) input_path = Some n →
  Converters.pdf_pages L (Converters.calls rt) input_path = Converters.Ok pages →
  (∀ h, Converters.OpenAI L h = Converters.Ok tt) →
  (∀ h chunk, Converters.completion L h chunk = Converters.Ok None) →
  let chunks := Converters.wrap L (foldl String.app "" pages) 4000 in
  Converters.openai L input_path rt =
    (Ret (Converters.join (Converters.newline +:+ Converters.newline) chunks),
     Converters.called rt (Converters.CPdfReader input_path :: Converters.COpenAI ::
                           (Converters.CCompletion <$> chunks))).
Proof.
  intros Hstat Hpages Hclient Hnone chunks. subst chunks.
  unfold Converters.openai. rewrite Hstat.
  unfold Converters.extract_text_from_pdf. rewrite Hpages, Hclient.
  unfold Converters.chunk_text.
  assert (∀ l : list string, omap (λ chunk : option string, chunk) (Some <$> l) = l) as Hid.
  { induction l as [|chunk rest IH]; [done|]. simpl. f_equal. exact IH. }
  rewrite (openai_chunks_untransformed L _ _ _ Hnone), !called_called.
  rewrite app_nil_l, Hid. reflexivity.
Qed.

Lemma missing_input_converts_to_empty_witness :
  Converters.stat demo_libs (Converters.calls fresh_runtime) "gone.pdf" = None ∧
  "markitdown" ∈ ["marker"; "openai"; "markitdown"] ∧
  Converters.convert demo_libs "markitdown" "gone.pdf" fresh_runtime = (Ret "", fresh_runtime).
Proof.
  assert (Converters.stat demo_libs (Converters.calls fresh_runtime) "gone.pdf" = None)
    as Hstat by reflexivity.
  assert ("markitdown" ∈ ["marker"; "openai"; "markitdown"]) as Htype.
  { apply elem_of_cons. right. apply elem_of_cons. right. apply elem_of_cons. by left. }
  split; [exact Hstat|]. split; [exact Htype|].
  exact (missing_input_converts_to_empty demo_libs "markitdown" "gone.pdf" fresh_runtime
           Hstat Htype).
Defined.

Lemma non_pdf_file_by_converter_witness :
  Converters.stat demo_libs (Converters.calls fresh_runtime) "notes.txt"
    = Some Converters.File ∧
  Converters.is_pdf "notes.txt" = false ∧
  Converters.marker demo_libs "notes.txt" fresh_runtime =
    (Raise (ValueError "File at notes.txt is not a PDF."), fresh_runtime) ∧
  Converters.markitdown demo_libs "notes.txt" fresh_runtime = (Ret "", fresh_runtime).
Proof.
  assert (Converters.stat demo_libs (Converters.calls fresh_runtime) "notes.txt"
          = Some Converters.File) as Hstat by reflexivity.
  assert (Converters.is_pdf "notes.txt" = false) as Hpdf by reflexivity.
  split; [exact Hstat|]. split; [exact Hpdf|].
  destruct (non_pdf_file_by_converter demo_libs "notes.txt" fresh_runtime Hstat Hpdf)
    as (Hmarker & Hmarkitdown & _).
  split; [exact Hmarker | exact Hmarkitdown].
Defined.

Lemma convert_raises_only_for_marker_witness :
  ("pypdf" ∉ ["marker"; "openai"; "markitdown"]) ∧
  Converters.convert demo_libs "pypdf" "paper.pdf" fresh_runtime =
    (Raise (KeyError "pypdf"), fresh_runtime) ∧
  returns (Converters.convert demo_libs "openai" "paper.pdf" fresh_runtime).1 = true.
Proof.
  assert ("pypdf" ∉ ["marker"; "openai"; "markitdown"]) as Hnot.
  { rewrite !not_elem_of_cons. split_and!; try discriminate. apply not_elem_of_nil. }
  split; [exact Hnot|]. split.
  - exact (proj1 (convert_raises_only_for_marker demo_libs "pypdf" "paper.pdf"
                    fresh_runtime) Hnot).
  - exact (proj1 (proj2 (convert_raises_only_for_marker demo_libs "openai" "paper.pdf"
                           fresh_runtime)) (or_introl eq_refl)).
Defined.

Lemma fresh_runtime_loaded_once : Converters.loaded_once fresh_runtime.
Proof. split; [reflexivity | discriminate]. Qed.

Lemma marker_converter_built_once_witness :
  Converters.loaded_once fresh_runtime ∧
  Converters.loaded_once (Converters.convert demo_libs "marker" "paper.pdf" fresh_runtime).2.
Proof.
  split; [exact fresh_runtime_loaded_once|].
  exact (proj1 (marker_converter_built_once demo_libs "marker" "paper.pdf" fresh_runtime
                  fresh_runtime_loaded_once)).
Defined.

Lemma marker_directory_in_listing_order_witness :
  Converters.stat demo_libs (Converters.calls warm_runtime) "papers"
    = Some (Converters.Directory ["b.pdf"; "readme.md"; "A.PDF"]) ∧
  Converters.marker demo_libs "papers" warm_runtime =
    (Ret "# papers/b.pdf # papers/A.PDF ",
     Converters.called warm_runtime
       [Converters.CRender "papers/b.pdf"; Converters.CRender "papers/A.PDF"]).
Proof.
  assert (Converters.stat demo_libs (Converters.calls warm_runtime) "papers"
          = Some (Converters.Directory ["b.pdf"; "readme.md"; "A.PDF"])) as Hstat
    by reflexivity.
  split; [exact Hstat|].
  apply (marker_directory_in_listing_order demo_libs (λ p, "# " +:+ p +:+ " ") "papers"
           ["b.pdf"; "readme.md"; "A.PDF"] warm_runtime Hstat eq_refl eq_refl).
  - intros h pdf_path. reflexivity.
  - vm_compute. discriminate.
Defined.

Lemma openai_untransformed_without_choices_witness :
  Converters.stat demo_libs (Converters.calls fresh_runtime) "paper.pdf"
    = Some Converters.File ∧
  (Converters.openai demo_libs "paper.pdf" fresh_runtime).1 =
    Ret ("page one page two" +:+ Converters.newline +:+ Converters.newline +:+ "end").
Proof.
  assert (Converters.stat demo_libs (Converters.calls fresh_runtime) "paper.pdf"
          = Some Converters.File) as Hstat by reflexivity.
  split; [exact Hstat|].
  rewrite (openai_untransformed_without_choices demo_libs "paper.pdf" fresh_runtime
             Converters.File ["page one "; "page two"] Hstat eq_refl
             (λ _, eq_refl) (λ _ _, eq_refl)).
  reflexivity.
Defined.

(** ** [convert_from_url] *)

Lemma substring_app_prefix (a b : string) : String.substring 0 (String.length a) (a +:+ b) = a.
Proof.
  induction a as [|c a IH].
  - rewrite string_app_nil. by destruct b.
  - rewrite string_app_cons. simpl. by rewrite IH.
Qed.

Lemma slice_to_prefix (a b : string) :
  Converters.slice_to (a +:+ b) (Z.of_nat (String.length a)) = a.
Proof.
  unfold Converters.slice_to. rewrite string_app_length.
  assert ((Z.of_nat (String.length a) <? 0)%Z = false) as -> by (apply Z.ltb_ge; lia).
  rewrite Z.min_l by lia. rewrite Nat2Z.id. apply substring_app_prefix.
Qed.

Lemma slice_to_all_but_last (stem : string) (c : Ascii.ascii) :
  Converters.slice_to (stem +:+ String c "") (-1) = stem.
Proof.
  unfold Converters.slice_to. rewrite string_app_length. simpl String.length.
  assert ((-1 <? 0)%Z = true) as -> by done.
  replace (Z.to_nat (Z.max 0 (-1 + Z.of_nat (String.length stem + 1))))
    with (String.length stem) by lia.
  apply substring_app_prefix.
Qed.

Lemma rfind_lower_bound (s sub : string) : (-1 ≤ Converters.rfind s sub)%Z.
Proof.
  induction s as [|a s IH]; simpl; [lia|].
  destruct (0 <=? Converters.rfind s sub)%Z eqn:Hfound.
  - apply Z.leb_le in Hfound. lia.
  - case_bool_decide; lia.
Qed.

Lemma rfind_last_separator (dir name : string) :
  Converters.rfind name "/" = (-1)%Z →
  Converters.rfind (dir +:+ "/" +:+ name) "/" = Z.of_nat (String.length dir).
Proof.
  intros Hname. induction dir as [|a dir IH].
  - rewrite string_app_nil.
    change ("/" +:+ name) with (String (Ascii.ascii_of_nat 47) name).
    simpl Converters.rfind. rewrite Hname. reflexivity.
  - rewrite string_app_cons. simpl Converters.rfind. rewrite IH.
    assert ((0 <=? Z.of_nat (String.length dir))%Z = true) as -> by (apply Z.leb_le; lia).
    simpl String.length. lia.
Qed.

(** X25: [convert_from_url] works for ".tar" downloads only.  When the
    downloaded file has any other name, the call raises
    ([UnboundLocalError] on [output_path]) before [convert] is reached:
    no converter runs and nothing is extracted, whatever the conversion
    type, registered or not. *)
Theorem convert_from_url_needs_tar (L : Converters.libs)
  (conversion_type input_url user_temp_dir download_path : string)
  (rt : Converters.runtime) :
  Converters.download_from_url L (Converters.calls rt) input_url user_temp_dir
    = Converters.Ok download_path →
  Converters.endswith download_path ".tar" = false →
  ∃ msg,
    Converters.convert_from_url L conversion_type input_url user_temp_dir rt =
      (Raise (Exception msg), Converters.called rt [Converters.CDownload input_url user_temp_dir]).
Proof.
  intros Hdownload Htar. unfold Converters.convert_from_url.
  rewrite Hdownload, Htar. by eexists.
Qed.

Lemma convert_from_url_needs_tar_witness :
  Converters.download_from_url demo_libs (Converters.calls fresh_runtime)
    "https://example.org/paper.pdf" "tmp" = Converters.Ok "tmp/paper.pdf" ∧
  Converters.endswith "tmp/paper.pdf" ".tar" = false ∧
  returns (Converters.convert_from_url demo_libs "marker" "https://example.org/paper.pdf"
             "tmp" fresh_runtime).1 = false.
Proof.
  assert (Converters.download_from_url demo_libs (Converters.calls fresh_runtime)
            "https://example.org/paper.pdf" "tmp" = Converters.Ok "tmp/paper.pdf")
    as Hdownload by (vm_compute; reflexivity).
  assert (Converters.endswith "tmp/paper.pdf" ".tar" = false) as Htar by reflexivity.
  split; [exact Hdownload|]. split; [exact Htar|].
  destruct (convert_from_url_needs_tar demo_libs "marker" "https://example.org/paper.pdf"
              "tmp" "tmp/paper.pdf" fresh_runtime Hdownload Htar) as [msg ->].
  reflexivity.
Defined.

(** X26: where the archive is converted.  For a download
    "<dir>/<name>.tar" the archive is extracted into <dir>, the part
    before the last slash, and [convert] is called on <dir>: the
    directory of the download with everything else in it, not the
    unpacked archive alone. *)
Theorem convert_from_url_converts_download_dir (L : Converters.libs)
  (conversion_type input_url user_temp_dir dir name : string) (rt : Converters.runtime) :
  let download_path := dir +:+ "/" +:+ name in
  Converters.download_from_url L (Converters.calls rt) input_url user_temp_dir
    = Converters.Ok download_path →
  Converters.rfind name "/" = (-1)%Z →
  Converters.endswith download_path ".tar" = true →
  (∀ h tar output_path, Converters.extract L h tar output_path = Converters.Ok tt) →
  Converters.convert_from_url L conversion_type input_url user_temp_dir rt =
    Converters.convert L conversion_type dir
      (Converters.called rt [Converters.CDownload input_url user_temp_dir;
                             Converters.CExtract download_path dir]).
Proof.
  intros download_path Hdownload Hname Htar Hextract. subst download_path.
  unfold Converters.convert_from_url. rewrite Hdownload, Htar.
  rewrite (rfind_last_separator dir name Hname), slice_to_prefix, Hextract.
  by rewrite called_called.
Qed.

Lemma convert_from_url_converts_download_dir_witness :
  Converters.download_from_url demo_libs (Converters.calls fresh_runtime)
    "https://example.org/papers.tar" "papers" = Converters.Ok ("papers" +:+ "/" +:+ "papers.tar") ∧
  Converters.rfind "papers.tar" "/" = (-1)%Z ∧
  Converters.endswith ("papers" +:+ "/" +:+ "papers.tar") ".tar" = true ∧
  (Converters.convert_from_url demo_libs "markitdown" "https://example.org/papers.tar"
     "papers" fresh_runtime).1 = Ret "".
Proof.
  assert (Converters.download_from_url demo_libs (Converters.calls fresh_runtime)
            "https://example.org/papers.tar" "papers"
          = Converters.Ok ("papers" +:+ "/" +:+ "papers.tar")) as Hdownload
    by (vm_compute; reflexivity).
  assert (Converters.rfind "papers.tar" "/" = (-1)%Z) as Hname by reflexivity.
  assert (Converters.endswith ("papers" +:+ "/" +:+ "papers.tar") ".tar" = true) as Htar
    by reflexivity.
  split; [exact Hdownload|]. split; [exact Hname|]. split; [exact Htar|].
  rewrite (convert_from_url_converts_download_dir demo_libs "markitdown"
             "https://example.org/papers.tar" "papers" "papers" "papers.tar" fresh_runtime
             Hdownload Hname Htar (λ _ _ _, eq_refl)).
  reflexivity.
Defined.

(** X27: a download path without a slash.  [rfind] then answers -1 and
    the slice [download_path[:-1]] drops the last character: the archive
    "<stem>r" (as in "papers.tar") is extracted into, and [convert] is
    called on, "<stem>" ("papers.ta"). *)
Theorem convert_from_url_bare_name (L : Converters.libs)
  (conversion_type input_url user_temp_dir stem : string) (c : Ascii.ascii)
  (rt : Converters.runtime) :
  let download_path := stem +:+ String c "" in
  Converters.download_from_url L (Converters.calls rt) input_url user_temp_dir
    = Converters.Ok download_path →
  Converters.rfind download_path "/" = (-1)%Z →
  Converters.endswith download_path ".tar" = true →
  (∀ h tar output_path, Converters.extract L h tar output_path = Converters.Ok tt) →
  Converters.convert_from_url L conversion_type input_url user_temp_dir rt =
    Converters.convert L conversion_type stem
      (Converters.called rt [Converters.CDownload input_url user_temp_dir;
                             Converters.CExtract download_path stem]).
Proof.
  intros download_path Hdownload Hname Htar Hextract. subst download_path.
  unfold Converters.convert_from_url. rewrite Hdownload, Htar, Hname.
  rewrite slice_to_all_but_last, Hextract. by rewrite called_called.
Qed.

Lemma convert_from_url_bare_name_witness :
  Converters.download_from_url bare_download_libs (Converters.calls fresh_runtime)
    "https://example.org/papers.tar" "tmp" = Converters.Ok ("papers.ta" +:+ "r") ∧
  Converters.rfind ("papers.ta" +:+ "r") "/" = (-1)%Z ∧
  Converters.endswith ("papers.ta" +:+ "r") ".tar" = true ∧
  Converters.convert_from_url bare_download_libs "marker" "https://example.org/papers.tar"
    "tmp" fresh_runtime =
  (Ret "", Converters.called fresh_runtime
             [Converters.CDownload "https://example.org/papers.tar" "tmp";
              Converters.CExtract "papers.tar" "papers.ta"]).
Proof.
  assert (Converters.download_from_url bare_download_libs (Converters.calls fresh_runtime)
            "https://example.org/papers.tar" "tmp" = Converters.Ok ("papers.ta" +:+ "r"))
    as Hdownload by (vm_compute; reflexivity).
  assert (Converters.rfind ("papers.ta" +:+ "r") "/" = (-1)%Z) as Hname by reflexivity.
  assert (Converters.endswith ("papers.ta" +:+ "r") ".tar" = true) as Htar by reflexivity.
  split; [exact Hdownload|]. split; [exact Hname|]. split; [exact Htar|].
  rewrite (convert_from_url_bare_name bare_download_libs "marker"
             "https://example.org/papers.tar" "tmp" "papers.ta" (Ascii.ascii_of_nat 114)
             fresh_runtime Hdownload Hname Htar (λ _ _ _, eq_refl)).
  reflexivity.
Defined.

(** ** The token rewarder *)

Lemma string_app_assoc (a b c : string) : (a +:+ b) +:+ c = a +:+ (b +:+ c).
Proof.
  induction a as [|x a IH]; [by rewrite !string_app_nil|].
  rewrite !string_app_cons. by rewrite IH.
Qed.

Lemma reward_db_name_combination (c : db_config) :
  TokenRewarder.reward_db_name (db_combination c) =
  converter c +:+ "_" +:+ chunker c +:+ "_" +:+ embedder c +:+ "_token".
Proof.
  unfold TokenRewarder.reward_db_name, db_combination. by rewrite !string_app_assoc.
Qed.

Lemma length_bind_const {A B} (f : A → list B) (l : list A) (n : nat) :
  (∀ x, length (f x) = n) → length (l ≫= f) = length l * n.
Proof.
  intros Hf. induction l as [|x l IH]; [done|].
  rewrite bind_cons, length_app, IH, Hf. simpl. lia.
Qed.

(** X28: the reward databases are those of the variants.  Over
    components with converters, chunkers and embedders,
    [generate_db_names] returns one name for every triple, the product
    of the three lengths in all, and a name is in the list exactly when
    it is the ledger key of a variant over these components followed by
    "_token", the name under which [add_reward_to_user] looks for the
    database of that variant.  A component that is missing raises
    [KeyError]. *)
Theorem generate_db_names_of_variants (components : gmap string (list string))
  (converters chunkers embedders : list string) :
  (components !! "converter" = None →
   TokenRewarder.generate_db_names components = Raise (KeyError "converter")) ∧
  (components !! "converter" = Some converters →
   components !! "chunker" = Some chunkers →
   components !! "embedder" = Some embedders →
   ∃ names,
     TokenRewarder.generate_db_names components = Ret names ∧
     length names = length converters * (length chunkers * length embedders) ∧
     ∀ name, name ∈ names ↔
             ∃ c, converter c ∈ converters ∧ chunker c ∈ chunkers ∧
                  embedder c ∈ embedders ∧
                  name = TokenRewarder.reward_db_name (db_combination c)).
Proof.
  unfold TokenRewarder.generate_db_names. split; [by intros ->|].
  intros -> -> ->. eexists. split; [reflexivity|]. split.
  - apply length_bind_const. intros c.
    apply length_bind_const. intros ch.
    rewrite (length_bind_const _ _ 1); [lia|done].
  - intros name. split.
    + intros (c & Hname & Hc)%list_elem_of_bind.
      apply list_elem_of_bind in Hname as (ch & Hname & Hch).
      apply list_elem_of_bind in Hname as (e & Hname & He).
      apply list_elem_of_singleton in Hname.
      exists (DbConfig c ch e). split_and!; try done.
      by rewrite reward_db_name_combination.
    + intros ([c ch e] & Hc & Hch & He & ->). simpl in *.
      apply list_elem_of_bind. exists c. split; [|done].
      apply list_elem_of_bind. exists ch. split; [|done].
      apply list_elem_of_bind. exists e. split; [|done].
      apply list_elem_of_singleton. by rewrite reward_db_name_combination.
Qed.

Lemma generate_db_names_of_variants_witness :
  demo_components !! "converter" = Some ["marker"; "openai"] ∧
  demo_components !! "chunker" = Some ["paragraph"] ∧
  demo_components !! "embedder" = Some ["openai"; "bge"] ∧
  ∃ names,
    TokenRewarder.generate_db_names demo_components = Ret names ∧
    length names = 4 ∧
    TokenRewarder.reward_db_name (db_combination (DbConfig "openai" "paragraph" "bge"))
      ∈ names.
Proof.
  assert (demo_components !! "converter" = Some ["marker"; "openai"]) as Hc
    by (vm_compute; reflexivity).
  assert (demo_components !! "chunker" = Some ["paragraph"]) as Hch
    by (vm_compute; reflexivity).
  assert (demo_components !! "embedder" = Some ["openai"; "bge"]) as He
    by (vm_compute; reflexivity).
  split; [exact Hc|]. split; [exact Hch|]. split; [exact He|].
  destruct (proj2 (generate_db_names_of_variants demo_components ["marker"; "openai"]
                     ["paragraph"] ["openai"; "bge"]) Hc Hch He)
    as (names & Hrun & Hlen & Hnames).
  exists names. split; [exact Hrun|]. split; [exact Hlen|].
  apply Hnames. exists (DbConfig "openai" "paragraph" "bge"). simpl. split_and!.
  - apply elem_of_cons. right. apply elem_of_cons. by left.
  - apply elem_of_cons. by left.
  - apply elem_of_cons. right. apply elem_of_cons. by left.
  - reflexivity.
Defined.

Lemma dict_set_keys (key : string) (value : Z) (d : list (string * Z)) :
  (TokenRewarder.dict_set key value d).*1 =
    if bool_decide (key ∈ d.*1) then d.*1 else d.*1 ++ [key].
Proof.
  induction d as [|[k v] d IH]; [done|].
  cbn [TokenRewarder.dict_set]. rewrite !fmap_cons. cbn [fst].
  destruct (decide (k = key)) as [->|Hne].
  - rewrite bool_decide_eq_true_2 by done.
    rewrite bool_decide_eq_true_2 by (apply elem_of_cons; by left). done.
  - rewrite bool_decide_eq_false_2 by done. rewrite fmap_cons, IH. cbn [fst].
    destruct (decide (key ∈ d.*1)) as [Hin|Hnot].
    + rewrite !bool_decide_eq_true_2; [done| |done]. apply elem_of_cons. by right.
    + rewrite !bool_decide_eq_false_2; [done| |done].
      intros [?|?]%elem_of_cons; [by subst|done].
Qed.

Lemma dict_set_nodup (key : string) (value : Z) (d : list (string * Z)) :
  NoDup d.*1 → NoDup (TokenRewarder.dict_set key value d).*1.
Proof.
  intros Hd. rewrite dict_set_keys. case_bool_decide as Hin; [done|].
  apply NoDup_app. split_and!; [done| |apply NoDup_singleton].
  intros k Hk ->%list_elem_of_singleton. done.
Qed.

Lemma rewards_of_nodup (rate : Z → Z) (user_entries : list (string * Z)) :
  NoDup (TokenRewarder.rewards_of rate user_entries).*1.
Proof.
  unfold TokenRewarder.rewards_of.
  assert (∀ d, NoDup d.*1 →
               NoDup (foldl (λ rewards entry,
                               TokenRewarder.dict_set entry.1 (entry.2 * rate entry.2) rewards)
                            d user_entries).*1) as Hfold.
  { induction user_entries as [|entry rest IH]; intros d Hd; simpl; [done|].
    apply IH. by apply dict_set_nodup. }
  apply Hfold. constructor.
Qed.

(** X29: [get_user_rewards] makes one aligned batch at most.  Whatever
    the database answers, the call attempts no transaction or exactly
    one [batchDistribute]; that one has a recipient, as many amounts as
    recipients, no recipient twice (also when the rows name a user more
    than once), and a gas limit of 200000 plus 70000 for each recipient.
    Without an owner address, or when the query fails or gives no row,
    nothing is attempted. *)
Theorem get_user_rewards_one_batch (S : TokenRewarder.services) (db_name : string)
  (attempts : list TokenRewarder.transaction) :
  let after := TokenRewarder.get_user_rewards S db_name attempts in
  (after = attempts ∨
   ∃ recipients wei_amounts,
     after = attempts ++ [TokenRewarder.BatchDistribute recipients wei_amounts
                            (200000 + 70000 * Z.of_nat (length recipients))] ∧
     recipients ≠ [] ∧ length wei_amounts = length recipients ∧ NoDup recipients) ∧
  (truthy (TokenRewarder.owner_address S) = false → after = attempts) ∧
  (TokenRewarder.user_totals S db_name = None → after = attempts) ∧
  (TokenRewarder.user_totals S db_name = Some [] → after = attempts).
Proof.
  intros after. subst after.
  unfold TokenRewarder.get_user_rewards, TokenRewarder.reward_users_constant.
  destruct (TokenRewarder.user_totals S db_name) as [user_entries|]; simpl;
    [|by split_and!; try left].
  pose proof (rewards_of_nodup (λ _, 1%Z) user_entries) as Hnodup.
  destruct (TokenRewarder.rewards_of (λ _, 1%Z) user_entries) as [|[user amount] rewards]
    eqn:Hrewards; [by split_and!; try left|].
  simpl. unfold TokenRewarder.batch_issue_tokens.
  destruct (truthy (TokenRewarder.owner_address S)); simpl.
  - rewrite length_fmap, length_fmap, bool_decide_eq_true_2 by done. simpl.
    split_and!; try done.
    + right. exists (user :: rewards.*1), (TokenRewarder.to_wei S <$> (amount :: rewards.*2)).
      split_and!; try done.
      * cbn [length]. by rewrite length_fmap.
      * cbn [length fmap list_fmap]. by rewrite !length_fmap.
    + intros Hrows. injection Hrows as ->. done.
  - split_and!; try done; by left.
Qed.

Lemma get_user_rewards_one_batch_witness :
  TokenRewarder.get_user_rewards demo_services "marker_paragraph_openai_token" [] =
    [TokenRewarder.BatchDistribute ["0xA"; "0xB"; "0xC"]
       [7 * 10 ^ 18; 60 * 10 ^ 18; 3 * 10 ^ 18]%Z 410000] ∧
  TokenRewarder.user_totals demo_services "openai_sentence_bge_token" = None ∧
  TokenRewarder.get_user_rewards demo_services "openai_sentence_bge_token" [] = [].
Proof.
  split; [vm_compute; reflexivity|].
  assert (TokenRewarder.user_totals demo_services "openai_sentence_bge_token" = None)
    as Hnone by reflexivity.
  split; [exact Hnone|].
  exact (proj1 (proj2 (proj2 (get_user_rewards_one_batch demo_services
                                "openai_sentence_bge_token" []))) Hnone).
Defined.

Lemma first_tier_greatest (tiers : list (Z * Z)) (total_jobs threshold reward : Z) :
  StronglySorted (flip TokenRewarder.tier_le) tiers → NoDup tiers.*1 →
  (threshold, reward) ∈ tiers → (threshold ≤ total_jobs)%Z →
  (∀ t r, (t, r) ∈ tiers → (t ≤ total_jobs)%Z → (t ≤ threshold)%Z) →
  TokenRewarder.first_tier tiers total_jobs = reward.
Proof.
  intros Hsorted Hnodup Hin Hle Hmax.
  induction tiers as [|[t r] rest IH]; [by apply elem_of_nil in Hin|].
  apply StronglySorted_inv in Hsorted as [Hrest Hhead].
  apply NoDup_cons in Hnodup as [Hfresh Hnodup]. simpl.
  case_bool_decide as Ht.
  - apply elem_of_cons in Hin as [Heq|Hin]; [by simplify_eq|].
    assert (t ≤ threshold)%Z as Hup.
    { apply (Hmax t r); [|done]. apply elem_of_cons. by left. }
    rewrite Forall_forall in Hhead. specialize (Hhead _ Hin).
    unfold flip, TokenRewarder.tier_le in Hhead. simpl in Hhead.
    assert (t = threshold) as -> by lia.
    exfalso. apply Hfresh. apply list_elem_of_fmap. by exists (threshold, reward).
  - apply elem_of_cons in Hin as [Heq|Hin]; [simplify_eq; lia|].
    apply IH; try done. intros t' r' Hin'. apply (Hmax t' r'). apply elem_of_cons. by right.
Qed.

Lemma first_tier_none (tiers : list (Z * Z)) (total_jobs : Z) :
  (∀ t r, (t, r) ∈ tiers → (total_jobs < t)%Z) →
  TokenRewarder.first_tier tiers total_jobs = 0%Z.
Proof.
  induction tiers as [|[t r] rest IH]; intros Hall; simpl; [done|].
  rewrite bool_decide_eq_false_2.
  - apply IH. intros t' r' Hin. apply (Hall t' r'). apply elem_of_cons. by right.
  - assert (total_jobs < t)%Z; [|lia]. apply (Hall t r). apply elem_of_cons. by left.
Qed.

#[local] Instance tier_le_trans : Transitive (flip TokenRewarder.tier_le).
Proof. intros a b c. unfold flip, TokenRewarder.tier_le. lia. Qed.

#[local] Instance tier_le_total : Total TokenRewarder.tier_le.
Proof. intros a b. unfold TokenRewarder.tier_le. lia. Qed.

Lemma sorted_tiers_spec (tiers : gmap Z Z) :
  StronglySorted (flip TokenRewarder.tier_le) (TokenRewarder.sorted_tiers tiers) ∧
  NoDup (TokenRewarder.sorted_tiers tiers).*1 ∧
  ∀ t r, (t, r) ∈ TokenRewarder.sorted_tiers tiers ↔ tiers !! t = Some r.
Proof.
  unfold TokenRewarder.sorted_tiers. split_and!.
  - apply Sorted_StronglySorted; [apply _|].
    apply Sorted_reverse, Sorted_merge_sort. apply _.
  - rewrite fmap_reverse, reverse_Permutation.
    rewrite (merge_sort_Permutation TokenRewarder.tier_le (map_to_list tiers)).
    apply NoDup_fst_map_to_list.
  - intros t r. rewrite elem_of_reverse.
    rewrite (merge_sort_Permutation TokenRewarder.tier_le (map_to_list tiers)).
    apply elem_of_map_to_list.
Qed.

(** X30: the tier of a user is the highest one reached.  In
    [reward_users_by_tier] the reward per job is the one of the greatest
    threshold of the tiers that the total of the user reaches, and 0
    when the total is below every threshold; the reward recorded for a
    user the rows list once is the total times that rate. *)
Theorem reward_by_tier_highest_threshold (tiers : gmap Z Z) (total_jobs : Z) :
  let rate := TokenRewarder.first_tier (TokenRewarder.sorted_tiers tiers) total_jobs in
  (∀ threshold reward,
     tiers !! threshold = Some reward → (threshold ≤ total_jobs)%Z →
     (∀ t, is_Some (tiers !! t) → (t ≤ total_jobs)%Z → (t ≤ threshold)%Z) →
     rate = reward) ∧
  ((∀ t, is_Some (tiers !! t) → (total_jobs < t)%Z) → rate = 0%Z) ∧
  (∀ (S : TokenRewarder.services) db_name public_key,
     TokenRewarder.user_totals S db_name = Some [(public_key, total_jobs)] →
     TokenRewarder.reward_users_by_tier S db_name (Some tiers) =
       Some [(public_key, (total_jobs * rate)%Z)]).
Proof.
  intros rate. subst rate.
  destruct (sorted_tiers_spec tiers) as (Hsorted & Hnodup & Hin).
  split_and!.
  - intros threshold reward Htier Hle Hmax.
    apply (first_tier_greatest _ _ threshold); try done.
    + by apply Hin.
    + intros t r Htr. apply Hmax. apply Hin in Htr. eauto.
  - intros Hbelow. apply first_tier_none.
    intros t r Htr. apply Hbelow. apply Hin in Htr. eauto.
  - intros S db_name public_key Hrows.
    unfold TokenRewarder.reward_users_by_tier. by rewrite Hrows.
Qed.

Lemma reward_by_tier_highest_threshold_witness :
  TokenRewarder.default_tiers !! 50%Z = Some 3%Z ∧
  (∀ t, is_Some (TokenRewarder.default_tiers !! t) → (t ≤ 60)%Z → (t ≤ 50)%Z) ∧
  TokenRewarder.first_tier (TokenRewarder.sorted_tiers TokenRewarder.default_tiers) 60 = 3%Z.
Proof.
  assert (TokenRewarder.default_tiers !! 50%Z = Some 3%Z) as Htier
    by (vm_compute; reflexivity).
  assert (∀ t, is_Some (TokenRewarder.default_tiers !! t) → (t ≤ 60)%Z → (t ≤ 50)%Z)
    as Hmax.
  { intros t [r Hr] Hle. unfold TokenRewarder.default_tiers in Hr.
    destruct (decide (t = 100%Z)) as [->|H100]; [lia|].
    destruct (decide (t = 50%Z)) as [->|H50]; [lia|].
    destruct (decide (t = 0%Z)) as [->|H0]; [lia|].
    rewrite !lookup_insert_ne in Hr by done.
    rewrite lookup_singleton_ne in Hr by done. done. }
  split; [exact Htier|]. split; [exact Hmax|].
  apply (proj1 (reward_by_tier_highest_threshold TokenRewarder.default_tiers 60) 50%Z 3%Z
           Htier); [lia | exact Hmax].
Defined.
